(** * Sophia Who? -- holon identity records: codec, tree scanner, resolver,
      multi-root listing and the create RPC.

    A shallow embedding of [pkg/identity] (writer.go, registry.go),
    [internal/cli] (commands.go) and [internal/server] (server.go).

    Conventions of the embedding.
    - A Go [string] is a [string] of Rocq: a sequence of bytes.
    - A Go [int] is an unbounded [Z]; the two counters of a scan count
      directory entries and stay far below 2^63.
    - A Go [error] is an [option error]: [None] is [nil].
    - Closures that mutate captured variables become functions on an
      explicit state; callbacks handed to a scan are state transformers.
    - The file system is a finite tree, read through [os_Lstat],
      [os_ReadDir] and [os_ReadFile].
    - Functions of the Go standard library that the repository calls
      ([strings], [unicode/utf8], [strconv.Quote], [path/filepath.WalkDir])
      are transcribed from their sources; [filepath.Join], [filepath.Clean],
      [filepath.Dir], [filepath.Rel] and the Unicode tables beyond Latin-1
      are parameters. *)

From stdpp Require Import base gmap strings.
From Stdlib Require Import ZArith List String Ascii Bool Lia Sorted.
From Stdlib Require DecimalString DecimalZ DecimalPos.
Import ListNotations.
Local Open Scope string_scope.

(** stdpp keeps [simpl] from unfolding [String.append]; the proofs below
    compute through the literal parts of rendered text. *)
#[global] Arguments String.append _ _ : simpl nomatch.

(* ================================================================== *)
(** ** Go strings *)
(* ================================================================== *)

Module GoStrings.

(** ["\n"], the line feed. *)
Definition LF : ascii := "010"%char.
Definition NL : string := String LF EmptyString.

(** [strings.HasPrefix(s, prefix)]. *)
Fixpoint HasPrefix (s prefix : string) {struct prefix} : bool :=
  match prefix with
  | EmptyString => true
  | String p prefix' =>
      match s with
      | EmptyString => false
      | String c s' => Ascii.eqb c p && HasPrefix s' prefix'
      end
  end.

(** [strings.TrimSuffix]'s test, [strings.HasSuffix(s, suffix)]. *)
Fixpoint HasSuffix (s suffix : string) : bool :=
  String.eqb s suffix ||
  match s with
  | EmptyString => false
  | String _ s' => HasSuffix s' suffix
  end.

(** Offset of the first occurrence of [substr] in [s], if any. *)
Fixpoint indexFrom (s substr : string) : option nat :=
  if HasPrefix s substr then Some 0%nat
  else match s with
       | EmptyString => None
       | String _ s' => option_map S (indexFrom s' substr)
       end.

(** [strings.Index(s, substr)]: [-1] when [substr] does not occur. *)
Definition Index (s substr : string) : Z :=
  match indexFrom s substr with
  | Some i => Z.of_nat i
  | None => (-1)%Z
  end.

(** [s[n:]] on a byte count. *)
Fixpoint drop (n : nat) (s : string) : string :=
  match n, s with
  | O, _ => s
  | S _, EmptyString => EmptyString
  | S n', String _ s' => drop n' s'
  end.

(** [s[:n]] on a byte count. *)
Fixpoint take (n : nat) (s : string) : string :=
  match n, s with
  | O, _ => EmptyString
  | S _, EmptyString => EmptyString
  | S n', String c s' => String c (take n' s')
  end.

(** The slice expressions [s[i:]] and [s[:j]] for [int] indices.  Every
    slice of the embedded code is in range; out of range Go panics and
    these clip. *)
Definition sliceFrom (s : string) (i : Z) : string := drop (Z.to_nat i) s.
Definition sliceTo (s : string) (j : Z) : string := take (Z.to_nat j) s.

(** [strings.Join(elems, sep)]. *)
Fixpoint Join (elems : list string) (sep : string) : string :=
  match elems with
  | [] => ""
  | [e] => e
  | e :: rest => e ++ sep ++ Join rest sep
  end.

End GoStrings.

(* ================================================================== *)
(** ** unicode/utf8, unicode *)
(* ================================================================== *)

Module Utf8.

Local Open Scope Z_scope.

Definition byte (c : ascii) : Z := Z.of_N (N_of_ascii c).
Definition chr (b : Z) : ascii := ascii_of_N (Z.to_N b).

Definition RuneError : Z := 65533.   (* U+FFFD *)
Definition RuneSelf : Z := 128.
Definition MaxRune : Z := 1114111.   (* U+10FFFF *)

(** A continuation byte, [0x80..0xBF]. *)
Definition isCont (b : Z) : bool := (128 <=? b) && (b <=? 191).

Definition inRange (lo hi b : Z) : bool := (lo <=? b) && (b <=? hi).

(** [utf8.DecodeRuneInString]: the first rune of [s] and its width in
    bytes; [(RuneError, 1)] on an invalid or short encoding and
    [(RuneError, 0)] on the empty string.  The accepted second-byte
    ranges are those of the [acceptRanges] table. *)
Definition DecodeRuneInString (s : string) : Z * nat :=
  match s with
  | EmptyString => (RuneError, 0%nat)
  | String c0 s1 =>
      let b0 := byte c0 in
      if b0 <? RuneSelf then (b0, 1%nat)
      else if inRange 194 223 b0 then
        match s1 with
        | String c1 _ =>
            let b1 := byte c1 in
            if isCont b1
            then (Z.lor (Z.shiftl (Z.land b0 31) 6) (Z.land b1 63), 2%nat)
            else (RuneError, 1%nat)
        | _ => (RuneError, 1%nat)
        end
      else if inRange 224 239 b0 then
        match s1 with
        | String c1 (String c2 _) =>
            let b1 := byte c1 in
            let b2 := byte c2 in
            let lo := if b0 =? 224 then 160 else 128 in
            let hi := if b0 =? 237 then 159 else 191 in
            if inRange lo hi b1 && isCont b2
            then (Z.lor (Z.lor (Z.shiftl (Z.land b0 15) 12)
                               (Z.shiftl (Z.land b1 63) 6))
                        (Z.land b2 63), 3%nat)
            else (RuneError, 1%nat)
        | _ => (RuneError, 1%nat)
        end
      else if inRange 240 244 b0 then
        match s1 with
        | String c1 (String c2 (String c3 _)) =>
            let b1 := byte c1 in
            let b2 := byte c2 in
            let b3 := byte c3 in
            let lo := if b0 =? 240 then 144 else 128 in
            let hi := if b0 =? 244 then 143 else 191 in
            if inRange lo hi b1 && isCont b2 && isCont b3
            then (Z.lor (Z.lor (Z.lor (Z.shiftl (Z.land b0 7) 18)
                                      (Z.shiftl (Z.land b1 63) 12))
                               (Z.shiftl (Z.land b2 63) 6))
                        (Z.land b3 63), 4%nat)
            else (RuneError, 1%nat)
        | _ => (RuneError, 1%nat)
        end
      else (RuneError, 1%nat)
  end.

Definition str1 (b : Z) : string := String (chr b) EmptyString.

(** The UTF-8 encoding of a code point below [0x110000] outside the
    surrogate range. *)
Definition encode (r : Z) : string :=
  if r <=? 127 then str1 r
  else if r <=? 2047 then
    str1 (Z.lor 192 (Z.shiftr r 6)) ++ str1 (Z.lor 128 (Z.land r 63))
  else if r <=? 65535 then
    str1 (Z.lor 224 (Z.shiftr r 12)) ++
    str1 (Z.lor 128 (Z.land (Z.shiftr r 6) 63)) ++
    str1 (Z.lor 128 (Z.land r 63))
  else
    str1 (Z.lor 240 (Z.shiftr r 18)) ++
    str1 (Z.lor 128 (Z.land (Z.shiftr r 12) 63)) ++
    str1 (Z.lor 128 (Z.land (Z.shiftr r 6) 63)) ++
    str1 (Z.lor 128 (Z.land r 63)).

(** [utf8.ValidRune]. *)
Definition ValidRune (r : Z) : bool :=
  inRange 0 55295 r || inRange 57344 MaxRune r.

(** [utf8.AppendRune]: an invalid rune is written as U+FFFD. *)
Definition AppendRune (r : Z) : string :=
  if ValidRune r then encode r else encode RuneError.

(** [unicode.IsSpace]: the Latin-1 cases and the White_Space table. *)
Definition IsSpace (r : Z) : bool :=
  inRange 9 13 r || (r =? 32) || (r =? 133) || (r =? 160) ||
  (r =? 5760) || inRange 8192 8202 r || (r =? 8232) || (r =? 8233) ||
  (r =? 8239) || (r =? 8287) || (r =? 12288).

(** The runes of [s] in order, each with the bytes it was decoded from
    (one byte for an invalid encoding).  [fuel] bounds the number of
    runes; [String.length s] is enough. *)
Fixpoint runesFuel (fuel : nat) (s : string) : list (Z * string) :=
  match fuel with
  | O => []
  | S fuel' =>
      match s with
      | EmptyString => []
      | _ =>
          let '(r, w) := DecodeRuneInString s in
          (r, GoStrings.take w s) :: runesFuel fuel' (GoStrings.drop w s)
      end
  end.

Definition runes (s : string) : list (Z * string) :=
  runesFuel (String.length s) s.

(** A rune with the bytes of a valid encoding: [DecodeRuneInString] did
    not answer [(RuneError, 1)] for it. *)
Definition wellDecoded (rb : Z * string) : bool :=
  negb ((fst rb =? RuneError) && Nat.eqb (String.length (snd rb)) 1).

End Utf8.

Module GoStringsUnicode.

Import GoStrings Utf8.

Fixpoint dropWhileSpace (rs : list (Z * string)) : list (Z * string) :=
  match rs with
  | (r, bs) :: rest => if IsSpace r then dropWhileSpace rest else rs
  | [] => []
  end.

Definition concatBytes (rs : list (Z * string)) : string :=
  fold_right (fun rb acc => snd rb ++ acc) "" rs.

(** [strings.TrimSpace(s)]: [s] without its leading and trailing runes
    that satisfy [unicode.IsSpace]. *)
Definition TrimSpace (s : string) : string :=
  concatBytes (rev (dropWhileSpace (rev (dropWhileSpace (runes s))))).

End GoStringsUnicode.

(* ================================================================== *)
(** ** Errors *)
(* ================================================================== *)

(** A Go [error] value.  [fs.SkipDir] and [fs.SkipAll] are the two
    sentinels of [io/fs], compared by identity; every other error of the
    program is made by [fmt.Errorf] or handed over by the operating
    system, and carries its message. *)
Inductive error : Type :=
| SkipDir
| SkipAll
| errorString (msg : string).

(** [err.Error()]. *)
Definition Error (e : error) : string :=
  match e with
  | SkipDir => "skip this directory"
  | SkipAll => "skip everything and stop the walk"
  | errorString msg => msg
  end.

Definition isSkipDir (e : error) : bool :=
  match e with SkipDir => true | _ => false end.
Definition isSkipAll (e : error) : bool :=
  match e with SkipAll => true | _ => false end.

(* ================================================================== *)
(** ** The identity record *)
(* ================================================================== *)

(** Modelled from the spec: [pkg/identity/identity.go], which declares the
    struct [Identity] and its YAML keys, is not among the sources.  The
    fields are those the template, [toProto] and the tests read; the keys
    are the attribute names of the spec's data model, which are the keys
    the template writes.  A [nil] slice and an empty slice are both [[]]. *)
Record Identity : Type := mkIdentity {
  UUID : string;
  GivenName : string;
  FamilyName : string;
  Motto : string;
  Composer : string;
  Clade : string;
  Status : string;
  Born : string;
  Parents : list string;
  Reproduction : string;
  Aliases : list string;
  GeneratedBy : string;
  Lang : string;
  ProtoStatus : string
}.

(** [Identity{}]. *)
Definition zeroIdentity : Identity :=
  mkIdentity "" "" "" "" "" "" "" "" [] "" [] "" "" "".

(* ================================================================== *)
(** ** strconv.Quote, as [fmt.Sprintf("%q", s)] calls it *)
(* ================================================================== *)

Module Strconv.

Import GoStrings Utf8.
Local Open Scope Z_scope.

Definition lowerhex (n : Z) : string :=
  match String.get (Z.to_nat n) "0123456789abcdef" with
  | Some c => String c EmptyString
  | None => ""
  end.

(** [lowerhex[b>>4]], [lowerhex[b&0xF]]. *)
Definition hex2 (b : Z) : string :=
  lowerhex (Z.shiftr b 4) ++ lowerhex (Z.land b 15).

(** [for s := 12; s >= 0; s -= 4 { lowerhex[r>>uint(s)&0xF] }]. *)
Definition hex4 (r : Z) : string :=
  lowerhex (Z.land (Z.shiftr r 12) 15) ++ lowerhex (Z.land (Z.shiftr r 8) 15) ++
  lowerhex (Z.land (Z.shiftr r 4) 15) ++ lowerhex (Z.land r 15).

(** [for s := 28; s >= 0; s -= 4 { lowerhex[r>>uint(s)&0xF] }]. *)
Definition hex8 (r : Z) : string :=
  lowerhex (Z.land (Z.shiftr r 28) 15) ++ lowerhex (Z.land (Z.shiftr r 24) 15) ++
  lowerhex (Z.land (Z.shiftr r 20) 15) ++ lowerhex (Z.land (Z.shiftr r 16) 15) ++
  hex4 r.

(** The backslash and the double quote, as one-byte strings. *)
Definition BS : string := String (ascii_of_nat 92) EmptyString.
Definition DQ : string := String (ascii_of_nat 34) EmptyString.

Section Tables.

(** [strconv]'s tables [isPrint16], [isNotPrint16], [isPrint32],
    [isNotPrint32], which decide printability above U+00FF. *)
Variable isPrintWide : Z -> bool.

(** [strconv.IsPrint]. *)
Definition IsPrint (r : Z) : bool :=
  if r <=? 255
  then inRange 32 126 r || (inRange 161 255 r && negb (r =? 173))
  else isPrintWide r.

(** [appendEscapedRune] with the double quote as [quote], [ASCIIonly]
    and [graphicOnly] false. *)
Definition appendEscapedRune (r : Z) : string :=
  if (r =? 34) || (r =? 92) then BS ++ str1 r
  else if IsPrint r then AppendRune r
  else if r =? 7 then BS ++ "a"
  else if r =? 8 then BS ++ "b"
  else if r =? 12 then BS ++ "f"
  else if r =? 10 then BS ++ "n"
  else if r =? 13 then BS ++ "r"
  else if r =? 9 then BS ++ "t"
  else if r =? 11 then BS ++ "v"
  else if (r <? 32) || (r =? 127) then BS ++ "x" ++ hex2 r
  else if negb (ValidRune r) then BS ++ "u" ++ hex4 RuneError
  else if r <? 65536 then BS ++ "u" ++ hex4 r
  else BS ++ "U" ++ hex8 r.

(** The loop of [appendQuotedWith]: one rune of [s] per turn. *)
Fixpoint quoteBody (s : string) : string :=
  match s with
  | EmptyString => ""
  | String c0 s1 =>
      let '(r, width) :=
        if RuneSelf <=? byte c0 then DecodeRuneInString s
        else (byte c0, 1%nat) in
      (if Nat.eqb width 1 && (r =? RuneError)
       then BS ++ "x" ++ hex2 (byte c0)
       else appendEscapedRune r)
      ++ match width, s1 with
         | 2%nat, String _ s2 => quoteBody s2
         | 3%nat, String _ (String _ s3) => quoteBody s3
         | 4%nat, String _ (String _ (String _ s4)) => quoteBody s4
         | _, _ => quoteBody s1
         end
  end.

(** [strconv.Quote(s)]. *)
Definition Quote (s : string) : string := DQ ++ quoteBody s ++ DQ.

End Tables.

End Strconv.

(* ================================================================== *)
(** ** writer.go: the template *)
(* ================================================================== *)

Module Writer.

Import GoStrings.

Section Tables.

Variable isPrintWide : Z -> bool.

(** [tmplFuncs["quote"]]. *)
Definition quote (s : string) : string := Strconv.Quote isPrintWide s.

(** [tmplFuncs["joinQuoted"]]. *)
Definition joinQuoted (ss : list string) : string :=
  Join (map quote ss) ", ".

(** The text between the two delimiter lines of [holonTemplate],
    executed on [id]. *)
Definition holonFrontmatter (id : Identity) : string :=
  "# Holon Identity v1" ++ NL ++
  "uuid: " ++ quote (UUID id) ++ NL ++
  "given_name: " ++ quote (GivenName id) ++ NL ++
  "family_name: " ++ quote (FamilyName id) ++ NL ++
  "motto: " ++ quote (Motto id) ++ NL ++
  "composer: " ++ quote (Composer id) ++ NL ++
  "clade: " ++ quote (Clade id) ++ NL ++
  "status: " ++ Status id ++ NL ++
  "born: " ++ quote (Born id) ++ NL ++
  NL ++
  "# Lineage" ++ NL ++
  "parents: [" ++ joinQuoted (Parents id) ++ "]" ++ NL ++
  "reproduction: " ++ quote (Reproduction id) ++ NL ++
  NL ++
  "# Optional" ++ NL ++
  "aliases: [" ++ joinQuoted (Aliases id) ++ "]" ++ NL ++
  NL ++
  "# Metadata" ++ NL ++
  "generated_by: " ++ quote (GeneratedBy id) ++ NL ++
  "lang: " ++ quote (Lang id) ++ NL ++
  "proto_status: " ++ ProtoStatus id.

(** What follows the closing delimiter in [holonTemplate]. *)
Definition holonBody (id : Identity) : string :=
  NL ++
  NL ++
  "# " ++ GivenName id ++ " " ++ FamilyName id ++ NL ++
  NL ++
  "> *" ++ Strconv.DQ ++ Motto id ++ Strconv.DQ ++ "*" ++ NL ++
  NL ++
  "## Description" ++ NL ++
  NL ++
  "<Describe what this holon does.>" ++ NL ++
  NL ++
  "## Introspection Notes" ++ NL ++
  NL ++
  "<Any assumptions or ambiguities noted during creation.>" ++ NL.

(** [holonTemplate] executed on [id]: the complete HOLON.md text. *)
Definition holonTemplate (id : Identity) : string :=
  "---" ++ NL ++ holonFrontmatter id ++ NL ++ "---" ++ holonBody id.

End Tables.

End Writer.

(* ================================================================== *)
(** ** The file system under a scanned root *)
(* ================================================================== *)

(** A file-system object.  A non-directory carries what [os.ReadFile]
    returns for it ([None]: the read fails); a directory carries what
    [os.ReadDir] returns for it: the entries it could read, sorted by
    name, and the error if there was one. *)
#[local] Unset Elimination Schemes.
Inductive node : Type :=
| File (content : option string)
| Dir (readErr : option error) (entries : list (string * node)).
#[local] Set Elimination Schemes.

(** An [fs.DirEntry]: the base name and the object it names. *)
Record DirEntry : Type := mkDirEntry {
  Name : string;
  entryNode : node
}.

(** [d.IsDir()]. *)
Definition IsDir (d : DirEntry) : bool :=
  match entryNode d with
  | Dir _ _ => true
  | File _ => false
  end.

(** [os.ReadFile(path)] for the path of the entry [d]. *)
Definition os_ReadFile (d : DirEntry) : option string :=
  match entryNode d with
  | File content => content
  | Dir _ _ => None
  end.

(** [os.ReadDir(path)] for the path of the entry [d]. *)
Definition os_ReadDir (d : DirEntry) : list (string * node) * option error :=
  match entryNode d with
  | Dir readErr entries => (entries, readErr)
  | File _ => ([], Some (errorString "not a directory"))
  end.

(** The file system as the scans see it: [os.Lstat(root)] for each root
    path, an entry with the whole tree below it or an error. *)
Definition FileSystem : Type := string -> DirEntry + error.

Definition os_Lstat (fs : FileSystem) (root : string) : DirEntry + error :=
  fs root.

(* ================================================================== *)
(** ** path/filepath.WalkDir *)
(* ================================================================== *)

Module Filepath.

(** The pair [(d, err)] that [WalkDir] hands to its callback: an entry
    and [nil], or an error with the entry it concerns ([nil] when
    [os.Lstat] failed on the root). *)
Inductive walkArg : Type :=
| Entry (d : DirEntry)
| EntryErr (d : option DirEntry) (err : error).

Section Walk.

Context {St : Type}.

(** [filepath.Join(path, name)]. *)
Variable Join : string -> string -> string.

(** An [fs.WalkDirFunc] that works on a state [St]. *)
Definition WalkDirFunc : Type :=
  string -> walkArg -> St -> St * option error.

Variable walkDirFn : WalkDirFunc.

(** [filepath.walkDir(path, d, walkDirFn)], by recursion on the tree
    that [d] names. *)
Fixpoint walkDir (path : string) (name : string) (n : node) (s : St)
  : St * option error :=
  let d := mkDirEntry name n in
  match n with
  | File _ => walkDirFn path (Entry d) s
  | Dir readErr entries =>
      let '(s1, err) := walkDirFn path (Entry d) s in
      match err with
      | Some e => (s1, if isSkipDir e then None else Some e)
      | None =>
          let '(s2, err2) :=
            match readErr with
            | Some re => walkDirFn path (EntryErr (Some d) re) s1
            | None => (s1, None)
            end in
          match err2 with
          | Some e => (s2, if isSkipDir e then None else Some e)
          | None =>
              (fix loop (dirs : list (string * node)) (s : St)
                 : St * option error :=
                 match dirs with
                 | [] => (s, None)
                 | (name1, n1) :: dirs' =>
                     let '(s', err1) :=
                       walkDir (Join path name1) name1 n1 s in
                     match err1 with
                     | Some e =>
                         if isSkipDir e then (s', None) else (s', Some e)
                     | None => loop dirs' s'
                     end
                 end) entries s2
          end
      end
  end.

(** [filepath.WalkDir(root, fn)]. *)
Definition WalkDir (fs : FileSystem) (root : string) (s : St)
  : St * option error :=
  let '(s', err) :=
    match os_Lstat fs root with
    | inr e => walkDirFn root (EntryErr None e) s
    | inl d => walkDir root (Name d) (entryNode d) s
    end in
  match err with
  | Some e => if isSkipDir e || isSkipAll e then (s', None) else (s', Some e)
  | None => (s', None)
  end.

End Walk.

End Filepath.

(* ================================================================== *)
(** ** registry.go *)
(* ================================================================== *)

(** [LocatedIdentity]. *)
Record LocatedIdentity : Type := mkLocated {
  Identity_ : Identity;
  Path : string
}.

(** [ScanProgress]. *)
Record ScanProgress : Type := mkProgress {
  ScannedFiles : Z;
  HolonsFound : Z
}.

Module Registry.

Import GoStrings Filepath.

Section Registry.

(** [yaml.Unmarshal([]byte(block), &id)] of gopkg.in/yaml.v3: the
    record after the call and the error. *)
Variable yaml_Unmarshal : string -> Identity -> Identity * option error.

(** [filepath.Join(path, name)]. *)
Variable Join : string -> string -> string.

(** [ParseFrontmatter(data)]: the record, the body and the error. *)
Definition ParseFrontmatter (data : string)
  : Identity * string * option error :=
  let content := data in
  if negb (HasPrefix content "---") then
    (zeroIdentity, "", Some (errorString "no YAML frontmatter found"))
  else
    let rest := sliceFrom content 3 in
    let rest :=
      match rest with
      | String c _ => if Ascii.eqb c LF then sliceFrom rest 1 else rest
      | EmptyString => rest
      end in
    let end_ := Index rest (NL ++ "---") in
    if (end_ <? 0)%Z then
      (zeroIdentity, "", Some (errorString "unclosed YAML frontmatter"))
    else
      let yamlBlock := sliceTo rest end_ in
      let body := sliceFrom rest (end_ + 4) in
      match yaml_Unmarshal yamlBlock zeroIdentity with
      | (_, Some err) =>
          (zeroIdentity, "",
           Some (errorString ("YAML parse error: " ++ Error err)))
      | (id, None) => (id, body, None)
      end.

Section Scan.

(** The variables that the two callbacks of a scan capture. *)
Context {U : Type}.

Variable onFound : option (LocatedIdentity -> U -> U).
Variable onProgress : option (ScanProgress -> U -> U).

(** The locals [scanned] and [found] of [ScanAllWithPaths], with the
    callbacks' state. *)
Record scanState : Type := mkScan {
  scanned : Z;
  found : Z;
  user : U
}.

(** The closure [reportProgress]. *)
Definition reportProgress (progressEvery : Z) (force : bool)
           (s : scanState) : scanState :=
  match onProgress with
  | None => s
  | Some cb =>
      if force ||
         ((0 <? progressEvery)%Z && (0 <? scanned s)%Z &&
          (Z.rem (scanned s) progressEvery =? 0)%Z)
      then mkScan (scanned s) (found s)
                  (cb (mkProgress (scanned s) (found s)) (user s))
      else s
  end.

(** The callback that [ScanAllWithPaths] hands to [WalkDir]. *)
Definition scanVisit (progressEvery : Z)
  : @WalkDirFunc scanState :=
  fun path a s =>
    match a with
    | EntryErr _ _ => (s, None)
    | Entry d =>
        if IsDir d then
          let name := Name d in
          if negb (String.eqb name ".") &&
             negb (String.eqb name ".holon") &&
             HasPrefix name "."
          then (s, Some SkipDir)
          else (s, None)
        else
          let s := mkScan (scanned s + 1) (found s) (user s) in
          let s := reportProgress progressEvery false s in
          if negb (String.eqb (Name d) "HOLON.md") then (s, None)
          else
            match os_ReadFile d with
            | None => (s, None)
            | Some data =>
                match ParseFrontmatter data with
                | (_, _, Some _) => (s, None)
                | (id, _, None) =>
                    let located := mkLocated id path in
                    let s := mkScan (scanned s) (found s + 1) (user s) in
                    let s :=
                      match onFound with
                      | Some cb =>
                          mkScan (scanned s) (found s) (cb located (user s))
                      | None => s
                      end in
                    (s, None)
                end
            end
    end.

(** [ScanAllWithPaths(root, progressEvery, onFound, onProgress)]:
    the callbacks' state afterwards and the error. *)
Definition ScanAllWithPaths (fs : FileSystem) (root : string)
           (progressEvery : Z) (u : U) : U * option error :=
  let progressEvery :=
    if (progressEvery <? 0)%Z then 0%Z else progressEvery in
  let '(s, err) :=
    WalkDir Join (scanVisit progressEvery) fs root (mkScan 0 0 u) in
  match err with
  | Some e => (user s, Some e)
  | None => (user (reportProgress progressEvery true s), None)
  end.

End Scan.

(** [FindAllWithPaths(root)]. *)
Definition FindAllWithPaths (fs : FileSystem) (root : string)
  : list LocatedIdentity * option error :=
  ScanAllWithPaths (Some (fun h holons => (holons ++ [h])%list)) None
                   fs root 0 [].

(** [FindAll(root)]. *)
Definition FindAll (fs : FileSystem) (root : string)
  : list Identity * option error :=
  match FindAllWithPaths fs root with
  | (_, Some err) => ([], Some err)
  | (located, None) => (map Identity_ located, None)
  end.

(** The callback that [FindByUUID] hands to [WalkDir]; the state is
    the captured variable [found]. *)
Definition findVisit (target : string) : @WalkDirFunc string :=
  fun path a found =>
    match a with
    | EntryErr _ _ => (found, None)
    | Entry d =>
        if IsDir d || negb (String.eqb (Name d) "HOLON.md")
        then (found, None)
        else
          match os_ReadFile d with
          | None => (found, None)
          | Some data =>
              match ParseFrontmatter data with
              | (_, _, Some _) => (found, None)
              | (id, _, None) =>
                  if String.eqb (UUID id) target ||
                     HasPrefix (UUID id) target
                  then (path, Some SkipAll)
                  else (found, None)
              end
          end
    end.

(** [FindByUUID(root, target)]. *)
Definition FindByUUID (fs : FileSystem) (root target : string)
  : string * option error :=
  let '(found, err) := WalkDir Join (findVisit target) fs root "" in
  match err with
  | Some e => ("", Some e)
  | None =>
      if String.eqb found ""
      then ("", Some (errorString ("holon not found: " ++ target)))
      else (found, None)
  end.

End Registry.

End Registry.

(* ================================================================== *)
(** ** gopkg.in/yaml.v3, on the subset that HOLON.md files use *)
(* ================================================================== *)

(** A model of [yaml.Unmarshal] into [*Identity] for documents written one
    mapping entry per line, the lines broken by line feeds, the layout of
    [holonTemplate] and of every HOLON.md of the tests: blank lines,
    comment lines, and lines
    [key: value] at column 0 whose value is empty, a plain word, a
    double-quoted scalar or a one-line flow sequence of such scalars.
    On this subset it follows the library: the reader's character check,
    the escapes of double-quoted scalars, the null literals, unknown keys
    ignored, duplicate keys and kind mismatches refused.  Every other
    document is answered with an error, also where the library would
    decode it; on an error the record is returned as it was given. *)
Module Yaml.

Import GoStrings Utf8.
Local Open Scope Z_scope.

Inductive scalar : Type :=
| SNull
| SStr (s : string).

Inductive value : Type :=
| VScalar (x : scalar)
| VSeq (items : list scalar).

(** The reader's check of a decoded character
    ([yaml_parser_update_buffer]): tab, line feed, carriage return,
    printable ASCII, U+0085, U+00A0..U+D7FF, U+E000..U+FFFD,
    U+10000..U+10FFFF. *)
Definition allowedChar (r : Z) : bool :=
  (r =? 9) || (r =? 10) || (r =? 13) || inRange 32 126 r || (r =? 133) ||
  inRange 160 55295 r || inRange 57344 65533 r || inRange 65536 1114111 r.

(** The input is valid UTF-8 and every character passes the check. *)
Definition readerOK (s : string) : bool :=
  forallb (fun rb : Z * string => wellDecoded rb && allowedChar (fst rb))
          (runes s).

(** The line breaks of YAML other than the line feed: carriage return,
    U+0085, U+2028 and U+2029. *)
Definition isBreak (r : Z) : bool :=
  (r =? 13) || (r =? 133) || (r =? 8232) || (r =? 8233).

(** The lines of the subset end with a line feed; the scanner folds every
    other break, also inside a quoted scalar, and the subset has none. *)
Definition lineFeedsOnly (s : string) : bool :=
  forallb (fun rb : Z * string => negb (isBreak (fst rb))) (runes s).

(** [strings.Split(s, "\n")]: the lines of the document. *)
Fixpoint splitLines (s : string) : list string :=
  match s with
  | EmptyString => [""%string]
  | String c s' =>
      if Ascii.eqb c LF then ""%string :: splitLines s'
      else match splitLines s' with
           | l :: ls => String c l :: ls
           | [] => [String c ""]
           end
  end.

Definition SP : ascii := " "%char.

Fixpoint skipSpaces (s : string) : string :=
  match s with
  | String c s' => if Ascii.eqb c SP then skipSpaces s' else s
  | EmptyString => s
  end.

Definition allSpaces (s : string) : bool :=
  String.eqb (skipSpaces s) "".

(** Letters, digits, [_] and [-]: the characters of the plain scalars
    and keys of the subset. *)
Definition isWordChar (c : ascii) : bool :=
  let b := byte c in
  inRange 48 57 b || inRange 65 90 b || inRange 97 122 b ||
  (b =? 95) || (b =? 45).

(** The longest prefix of word characters, and the rest. *)
Fixpoint spanWord (s : string) : string * string :=
  match s with
  | String c s' =>
      if isWordChar c
      then let '(w, rest) := spanWord s' in (String c w, rest)
      else (""%string, s)
  | EmptyString => (""%string, ""%string)
  end.

(** [resolve] on a plain scalar bound for a [string]: the null literals
    give the zero value, every other scalar its text. *)
Definition resolvePlain (w : string) : scalar :=
  if String.eqb w "null" || String.eqb w "Null" || String.eqb w "NULL" ||
     String.eqb w "~" || String.eqb w ""
  then SNull else SStr w.

Definition hexVal (c : ascii) : option Z :=
  let b := byte c in
  if inRange 48 57 b then Some (b - 48)
  else if inRange 65 70 b then Some (b - 55)
  else if inRange 97 102 b then Some (b - 87)
  else None.

Fixpoint hexNum (acc : Z) (digits : list ascii) : option Z :=
  match digits with
  | [] => Some acc
  | c :: digits' =>
      match hexVal c with
      | Some v => hexNum (acc * 16 + v) digits'
      | None => None
      end
  end.

(** The character of a [\x], [\u] or [\U] escape, written in UTF-8;
    surrogates and values above U+10FFFF are refused. *)
Definition escapeCode (digits : list ascii) : option string :=
  match hexNum 0 digits with
  | Some v =>
      if inRange 55296 57343 v || (1114111 <? v) then None
      else Some (encode v)
  | None => None
  end.

(** The one-character escapes of a double-quoted scalar. *)
Definition simpleEscape (c : ascii) : option string :=
  let b := byte c in
  if b =? 48 then Some (str1 0)            (* \0 *)
  else if b =? 97 then Some (str1 7)       (* \a *)
  else if b =? 98 then Some (str1 8)       (* \b *)
  else if (b =? 116) || (b =? 9) then Some (str1 9)    (* \t *)
  else if b =? 110 then Some (str1 10)     (* \n *)
  else if b =? 118 then Some (str1 11)     (* \v *)
  else if b =? 102 then Some (str1 12)     (* \f *)
  else if b =? 114 then Some (str1 13)     (* \r *)
  else if b =? 101 then Some (str1 27)     (* \e *)
  else if b =? 32 then Some (str1 32)      (* \ followed by a space *)
  else if b =? 34 then Some (str1 34)      (* \ followed by a double quote *)
  else if b =? 47 then Some (str1 47)      (* \/ *)
  else if b =? 92 then Some (str1 92)      (* \\ *)
  else if b =? 78 then Some (encode 133)   (* \N *)
  else if b =? 95 then Some (encode 160)   (* \_ *)
  else if b =? 76 then Some (encode 8232)  (* \L *)
  else if b =? 80 then Some (encode 8233)  (* \P *)
  else None.

Definition prepend (p : string) (r : option (string * string))
  : option (string * string) :=
  match r with
  | Some (s, rest) => Some ((p ++ s)%string, rest)
  | None => None
  end.

(** A double-quoted scalar after its opening quote, on one line: the
    decoded text and what follows the closing quote. *)
Fixpoint scanDQ (input : string) : option (string * string) :=
  match input with
  | EmptyString => None
  | String c rest =>
      if byte c =? 34 then Some (""%string, rest)
      else if byte c =? 92 then
        match rest with
        | EmptyString => None
        | String e rest1 =>
            match simpleEscape e with
            | Some p => prepend p (scanDQ rest1)
            | None =>
                if byte e =? 120 then            (* \xHH *)
                  match rest1 with
                  | String h1 (String h2 r) =>
                      match escapeCode [h1; h2] with
                      | Some p => prepend p (scanDQ r)
                      | None => None
                      end
                  | _ => None
                  end
                else if byte e =? 117 then       (* \uHHHH *)
                  match rest1 with
                  | String h1 (String h2 (String h3 (String h4 r))) =>
                      match escapeCode [h1; h2; h3; h4] with
                      | Some p => prepend p (scanDQ r)
                      | None => None
                      end
                  | _ => None
                  end
                else if byte e =? 85 then        (* \UHHHHHHHH *)
                  match rest1 with
                  | String h1 (String h2 (String h3 (String h4
                      (String h5 (String h6 (String h7 (String h8 r))))))) =>
                      match escapeCode [h1; h2; h3; h4; h5; h6; h7; h8] with
                      | Some p => prepend p (scanDQ r)
                      | None => None
                      end
                  | _ => None
                  end
                else None
            end
        end
      else prepend (String c "") (scanDQ rest)
  end.

(** One scalar of the subset at the head of [input]: a double-quoted
    scalar or a plain word that does not start with [-]. *)
Definition scanScalar (input : string) : option (scalar * string) :=
  match input with
  | String c rest =>
      if byte c =? 34 then
        match scanDQ rest with
        | Some (s, rest') => Some (SStr s, rest')
        | None => None
        end
      else if isWordChar c && negb (byte c =? 45) then
        let '(w, rest') := spanWord input in Some (resolvePlain w, rest')
      else None
  | EmptyString => None
  end.

(** The items of a flow sequence after the first, up to the closing
    bracket.  [fuel] bounds the number of items. *)
Fixpoint scanItems (fuel : nat) (input : string)
  : option (list scalar * string) :=
  match fuel with
  | O => None
  | S fuel' =>
      match skipSpaces input with
      | String c rest =>
          if byte c =? 93 then Some ([], rest)            (* ] *)
          else if byte c =? 44 then                       (* , *)
            match scanScalar (skipSpaces rest) with
            | Some (x, rest') =>
                match scanItems fuel' rest' with
                | Some (xs, rest'') => Some (x :: xs, rest'')
                | None => None
                end
            | None => None
            end
          else None
      | EmptyString => None
      end
  end.

(** A flow sequence after its opening bracket. *)
Definition scanSeq (input : string) : option (list scalar * string) :=
  match skipSpaces input with
  | String c rest =>
      if byte c =? 93 then Some ([], rest)
      else
        match scanScalar (String c rest) with
        | Some (x, rest') =>
            match scanItems (String.length rest') rest' with
            | Some (xs, rest'') => Some (x :: xs, rest'')
            | None => None
            end
        | None => None
        end
  | EmptyString => None
  end.

(** The value of an entry: the text after [key:] on its line. *)
Definition scanValue (text : string) : option value :=
  match skipSpaces text with
  | EmptyString => Some (VScalar SNull)
  | String c rest =>
      if byte c =? 35 then Some (VScalar SNull)           (* a comment *)
      else if byte c =? 91 then                           (* [ *)
        match scanSeq rest with
        | Some (items, rest') =>
            if allSpaces rest' then Some (VSeq items) else None
        | None => None
        end
      else
        match scanScalar (String c rest) with
        | Some (x, rest') =>
            if allSpaces rest' then Some (VScalar x) else None
        | None => None
        end
  end.

Inductive line : Type :=
| LSkip
| LEntry (key : string) (v : value)
| LBad.

(** One line of the document. *)
Definition scanLine (l : string) : line :=
  match skipSpaces l with
  | EmptyString => LSkip
  | String c _ =>
      if byte c =? 35 then LSkip                          (* # *)
      else
        let '(key, rest) := spanWord l in
        match key, rest with
        | String k _, String colon text =>
            if negb (byte k =? 45) && (byte colon =? 58) then
              match text with
              | EmptyString => LEntry key (VScalar SNull)
              | String sp text' =>
                  if Ascii.eqb sp SP then
                    match scanValue text' with
                    | Some v => LEntry key v
                    | None => LBad
                    end
                  else LBad
              end
            else LBad
        | _, _ => LBad
        end
  end.

Fixpoint scanLines (ls : list string) : option (list (string * value)) :=
  match ls with
  | [] => Some []
  | l :: ls' =>
      match scanLine l, scanLines ls' with
      | LBad, _ => None
      | _, None => None
      | LSkip, Some es => Some es
      | LEntry k v, Some es => Some ((k, v) :: es)
      end
  end.

Fixpoint uniqueKeys (es : list (string * value)) : bool :=
  match es with
  | [] => true
  | (k, _) :: es' =>
      negb (existsb (fun e => String.eqb (fst e) k) es') && uniqueKeys es'
  end.

(** A scalar decoded into a [string]: null gives the zero value. *)
Definition scalarString (x : scalar) : string :=
  match x with
  | SNull => ""
  | SStr s => s
  end.

Definition asString (v : value) : option string :=
  match v with
  | VScalar x => Some (scalarString x)
  | VSeq _ => None
  end.

Definition asStrings (v : value) : option (list string) :=
  match v with
  | VSeq items => Some (map scalarString items)
  | VScalar SNull => Some []
  | VScalar (SStr _) => None
  end.

(** One entry decoded into the field that carries its key; an unknown
    key is ignored, a value of the wrong kind is an error. *)
Definition setField (key : string) (v : value) (id : Identity)
  : option Identity :=
  let str (f : string -> Identity) := option_map f (asString v) in
  let strs (f : list string -> Identity) := option_map f (asStrings v) in
  let '(mkIdentity a b c d e f g h i j k l m n) := id in
  if String.eqb key "uuid" then
    str (fun x => mkIdentity x b c d e f g h i j k l m n)
  else if String.eqb key "given_name" then
    str (fun x => mkIdentity a x c d e f g h i j k l m n)
  else if String.eqb key "family_name" then
    str (fun x => mkIdentity a b x d e f g h i j k l m n)
  else if String.eqb key "motto" then
    str (fun x => mkIdentity a b c x e f g h i j k l m n)
  else if String.eqb key "composer" then
    str (fun x => mkIdentity a b c d x f g h i j k l m n)
  else if String.eqb key "clade" then
    str (fun x => mkIdentity a b c d e x g h i j k l m n)
  else if String.eqb key "status" then
    str (fun x => mkIdentity a b c d e f x h i j k l m n)
  else if String.eqb key "born" then
    str (fun x => mkIdentity a b c d e f g x i j k l m n)
  else if String.eqb key "parents" then
    strs (fun x => mkIdentity a b c d e f g h x j k l m n)
  else if String.eqb key "reproduction" then
    str (fun x => mkIdentity a b c d e f g h i x k l m n)
  else if String.eqb key "aliases" then
    strs (fun x => mkIdentity a b c d e f g h i j x l m n)
  else if String.eqb key "generated_by" then
    str (fun x => mkIdentity a b c d e f g h i j k x m n)
  else if String.eqb key "lang" then
    str (fun x => mkIdentity a b c d e f g h i j k l x n)
  else if String.eqb key "proto_status" then
    str (fun x => mkIdentity a b c d e f g h i j k l m x)
  else Some id.

Fixpoint setFields (es : list (string * value)) (id : Identity)
  : option Identity :=
  match es with
  | [] => Some id
  | (k, v) :: es' =>
      match setField k v id with
      | Some id' => setFields es' id'
      | None => None
      end
  end.

(** [yaml.Unmarshal([]byte(block), &id)]. *)
Definition Unmarshal (block : string) (id : Identity)
  : Identity * option error :=
  if negb (readerOK block) then
    (id, Some (errorString "yaml: invalid character in the input"))
  else if negb (lineFeedsOnly block) then
    (id, Some (errorString "yaml: document outside the subset"))
  else
    match scanLines (splitLines block) with
    | None => (id, Some (errorString "yaml: document outside the subset"))
    | Some es =>
        if negb (uniqueKeys es) then
          (id, Some (errorString "yaml: mapping key already defined"))
        else
          match setFields es id with
          | None => (id, Some (errorString "yaml: unmarshal errors"))
          | Some id' => (id', None)
          end
    end.

End Yaml.

(* ================================================================== *)
(** ** writer.go: writing the file *)
(* ================================================================== *)

(** What the program does to the file system when it creates a record. *)
Inductive fsOp : Type :=
| OpMkdirAll (dir : string)
| OpCreate (path : string)
| OpWrite (path content : string).

(** The operating system's answers to those calls: the error of
    [os.MkdirAll(dir, 0755)], of [os.Create(path)] and of writing to the
    created file, [None] for success. *)
Record OsWrites : Type := mkOsWrites {
  os_MkdirAll : string -> option error;
  os_Create : string -> option error;
  file_Write : string -> option error
}.

Module WriterIO.

Section WriterIO.

Variable isPrintWide : Z -> bool.
Variable os : OsWrites.

(** [WriteHolonMD(id, path)], on the log of file-system operations.
    The template is a constant that parses, so the first error branch
    is never taken.  [tmpl.Execute] is one write: when it fails the
    file exists and what it holds is left open. *)
Definition WriteHolonMD (id : Identity) (path : string) (log : list fsOp)
  : list fsOp * option error :=
  match os_Create os path with
  | Some err =>
      (log, Some (errorString
                    ("cannot create " ++ path ++ ": " ++ Error err)))
  | None =>
      let log := (log ++ [OpCreate path])%list in
      match file_Write os path with
      | Some err =>
          (log, Some (errorString
                        ("template execution error: " ++ Error err)))
      | None =>
          ((log ++ [OpWrite path (Writer.holonTemplate isPrintWide id)])%list,
           None)
      end
  end.

End WriterIO.

End WriterIO.

(* ================================================================== *)
(** ** internal/cli/commands.go: RunList *)
(* ================================================================== *)

Module Cli.

Import GoStrings.

(** What [RunList] writes, in order, to standard output and standard
    error. *)
Inductive output : Type :=
| PrintHeader
| PrintRule
| PrintEntry (id : Identity) (name origin path : string)
| PrintNoHolons
| ErrClearLine
| ErrProgressLine (scanLabel : string) (scannedFiles : Z)
| ErrProgressInline (scanLabel : string) (scannedFiles : Z).

(** The variables of [RunList] that its closures capture, with
    [lastReported] of the running [scanAndPrint] and the output so far.
    [localSeen] is the one map that is ever passed as [dedupe]. *)
Record listState : Type := mkList {
  localSeen : gset string;
  printedHeader : bool;
  printedEntries : Z;
  progressVisible : bool;
  lastReported : Z;
  out : list output
}.

Section RunList.

Variable yaml_Unmarshal : string -> Identity -> Identity * option error.

(** [filepath.Join(elem...)], [filepath.Clean], [filepath.Dir],
    [filepath.Rel]. *)
Variable filepath_Join : list string -> string.
Variable filepath_Clean : string -> string.
Variable filepath_Dir : string -> string.
Variable filepath_Rel : string -> string -> string + error.

(** [os.UserHomeDir()], [None] when it fails; [isTerminal(os.Stderr)]. *)
Variable os_UserHomeDir : option string.
Variable stderrIsTerminal : bool.

Variable fs : FileSystem.

(** [holonCacheDir()]. *)
Definition holonCacheDir : string :=
  match os_UserHomeDir with
  | None => ""
  | Some home => filepath_Join [home; ".holon"; "cache"]
  end.

(** [relHolonDir(root, holonPath)]. *)
Definition relHolonDir (root holonPath : string) : string :=
  let dir := filepath_Dir holonPath in
  match filepath_Rel root dir with
  | inr _ => filepath_Clean dir
  | inl rel => filepath_Clean rel
  end.

Definition emit (o : output) (st : listState) : listState :=
  mkList (localSeen st) (printedHeader st) (printedEntries st)
         (progressVisible st) (lastReported st) (out st ++ [o])%list.

(** The closure [clearProgressLine]. *)
Definition clearProgressLine (st : listState) : listState :=
  let inlineProgress := stderrIsTerminal in
  if negb inlineProgress || negb (progressVisible st) then st
  else
    let st := emit ErrClearLine st in
    mkList (localSeen st) (printedHeader st) (printedEntries st)
           false (lastReported st) (out st).

(** The closure [printProgress]. *)
Definition printProgress (scanLabel : string) (scannedFiles : Z)
           (st : listState) : listState :=
  let inlineProgress := stderrIsTerminal in
  if negb inlineProgress
  then emit (ErrProgressLine scanLabel scannedFiles) st
  else
    let st := emit (ErrProgressInline scanLabel scannedFiles) st in
    mkList (localSeen st) (printedHeader st) (printedEntries st)
           true (lastReported st) (out st).

(** The closure [printEntry]. *)
Definition printEntry (id : Identity) (origin path : string)
           (st : listState) : listState :=
  let st := clearProgressLine st in
  let st :=
    if negb (printedHeader st) then
      let st := emit PrintRule (emit PrintHeader st) in
      mkList (localSeen st) true (printedEntries st)
             (progressVisible st) (lastReported st) (out st)
    else st in
  let name :=
    GoStringsUnicode.TrimSpace (GivenName id ++ " " ++ FamilyName id) in
  let st := emit (PrintEntry id name origin path) st in
  mkList (localSeen st) (printedHeader st) (printedEntries st + 1)
         (progressVisible st) (lastReported st) (out st).

(** The [onFound] callback of [scanAndPrint]; [dedupe] says whether
    the map [localSeen] was passed, or [nil]. *)
Definition scanOnFound (root origin : string) (dedupe : bool)
           (h : LocatedIdentity) (st : listState) : listState :=
  let key := UUID (Identity_ h) in
  let key := if String.eqb key "" then Path h else key in
  if dedupe && bool_decide (key ∈ localSeen st) then st
  else
    let st :=
      if dedupe
      then mkList ({[ key ]} ∪ localSeen st) (printedHeader st)
                  (printedEntries st) (progressVisible st)
                  (lastReported st) (out st)
      else st in
    printEntry (Identity_ h) origin (relHolonDir root (Path h)) st.

(** The [onProgress] callback of [scanAndPrint]. *)
Definition scanOnProgress (scanLabel : string) (progress : ScanProgress)
           (st : listState) : listState :=
  if (ScannedFiles progress =? 0)%Z ||
     (ScannedFiles progress =? lastReported st)%Z
  then st
  else
    let st :=
      mkList (localSeen st) (printedHeader st) (printedEntries st)
             (progressVisible st) (ScannedFiles progress) (out st) in
    printProgress scanLabel (ScannedFiles progress) st.

(** The closure [scanAndPrint]. *)
Definition scanAndPrint (root scanRoot scanLabel origin : string)
           (dedupe : bool) (st : listState) : listState :=
  let st :=
    mkList (localSeen st) (printedHeader st) (printedEntries st)
           (progressVisible st) 0 (out st) in
  fst (Registry.ScanAllWithPaths
         yaml_Unmarshal (fun p n => filepath_Join [p; n])
         (Some (scanOnFound root origin dedupe))
         (Some (scanOnProgress scanLabel))
         fs scanRoot 500 st).

(** [RunList(root)]: the final state with everything printed, and the
    error, which is always [nil]. *)
Definition RunList (root : string) : listState * option error :=
  let root := if String.eqb root "" then "." else root in
  let root := filepath_Clean root in
  let st := mkList ∅ false 0 false 0 [] in
  let st :=
    scanAndPrint root (filepath_Join [root; "holons"])
                 "local" "local" true st in
  let st := scanAndPrint root root "root" "local" true st in
  let cacheDir := holonCacheDir in
  let st :=
    if negb (String.eqb cacheDir "")
    then scanAndPrint root cacheDir "cache" "cached" false st
    else st in
  let st := clearProgressLine st in
  let st :=
    if (printedEntries st =? 0)%Z then emit PrintNoHolons st else st in
  (st, None).

End RunList.

End Cli.

(* ================================================================== *)
(** ** internal/server/server.go: CreateIdentity *)
(* ================================================================== *)

Module Server.

Import GoStrings.

(** The enumerations of the protocol. *)
Inductive pbClade : Type :=
| Clade_CLADE_UNSPECIFIED
| Clade_DETERMINISTIC_PURE
| Clade_DETERMINISTIC_STATEFUL
| Clade_DETERMINISTIC_IO_BOUND
| Clade_PROBABILISTIC_GENERATIVE
| Clade_PROBABILISTIC_PERCEPTUAL
| Clade_PROBABILISTIC_ADAPTIVE.

Inductive pbStatus : Type :=
| Status_STATUS_UNSPECIFIED
| Status_DRAFT
| Status_STABLE
| Status_DEPRECATED
| Status_DEAD.

Inductive pbReproductionMode : Type :=
| ReproductionMode_REPRODUCTION_UNSPECIFIED
| ReproductionMode_MANUAL
| ReproductionMode_ASSISTED
| ReproductionMode_AUTOMATIC
| ReproductionMode_AUTOPOIETIC
| ReproductionMode_BRED.

(** [pb.HolonIdentity]. *)
Record HolonIdentity : Type := mkHolonIdentity {
  pbUuid : string;
  pbGivenName : string;
  pbFamilyName : string;
  pbMotto : string;
  pbComposer : string;
  pbCladeOf : pbClade;
  pbStatusOf : pbStatus;
  pbBorn : string;
  pbParents : list string;
  pbReproduction : pbReproductionMode;
  pbAliases : list string;
  pbGeneratedBy : string;
  pbLang : string;
  pbProtoStatus : pbStatus
}.

(** [pb.CreateIdentityRequest]. *)
Record CreateIdentityRequest : Type := mkCreateRequest {
  reqGivenName : string;
  reqFamilyName : string;
  reqMotto : string;
  reqComposer : string;
  reqClade : pbClade;
  reqReproduction : pbReproductionMode;
  reqLang : string;
  reqAliases : list string;
  reqOutputDir : string
}.

(** [pb.CreateIdentityResponse]. *)
Record CreateIdentityResponse : Type := mkCreateResponse {
  respIdentity : HolonIdentity;
  respFilePath : string
}.

(** The gRPC status codes the service uses, and a status error. *)
Inductive code : Type := InvalidArgument | NotFound | Internal.

Record statusError : Type := mkStatus {
  statusCode : code;
  statusMessage : string
}.

Definition cladeToString (c : pbClade) : string :=
  match c with
  | Clade_DETERMINISTIC_PURE => "deterministic/pure"
  | Clade_DETERMINISTIC_STATEFUL => "deterministic/stateful"
  | Clade_DETERMINISTIC_IO_BOUND => "deterministic/io_bound"
  | Clade_PROBABILISTIC_GENERATIVE => "probabilistic/generative"
  | Clade_PROBABILISTIC_PERCEPTUAL => "probabilistic/perceptual"
  | Clade_PROBABILISTIC_ADAPTIVE => "probabilistic/adaptive"
  | Clade_CLADE_UNSPECIFIED => "deterministic/pure"
  end.

Definition stringToClade (s : string) : pbClade :=
  if String.eqb s "deterministic/pure" then Clade_DETERMINISTIC_PURE
  else if String.eqb s "deterministic/stateful" then Clade_DETERMINISTIC_STATEFUL
  else if String.eqb s "deterministic/io_bound" then Clade_DETERMINISTIC_IO_BOUND
  else if String.eqb s "probabilistic/generative" then Clade_PROBABILISTIC_GENERATIVE
  else if String.eqb s "probabilistic/perceptual" then Clade_PROBABILISTIC_PERCEPTUAL
  else if String.eqb s "probabilistic/adaptive" then Clade_PROBABILISTIC_ADAPTIVE
  else Clade_CLADE_UNSPECIFIED.

Definition stringToStatus (s : string) : pbStatus :=
  if String.eqb s "draft" then Status_DRAFT
  else if String.eqb s "stable" then Status_STABLE
  else if String.eqb s "deprecated" then Status_DEPRECATED
  else if String.eqb s "dead" then Status_DEAD
  else Status_STATUS_UNSPECIFIED.

Definition reproductionToString (r : pbReproductionMode) : string :=
  match r with
  | ReproductionMode_MANUAL => "manual"
  | ReproductionMode_ASSISTED => "assisted"
  | ReproductionMode_AUTOMATIC => "automatic"
  | ReproductionMode_AUTOPOIETIC => "autopoietic"
  | ReproductionMode_BRED => "bred"
  | ReproductionMode_REPRODUCTION_UNSPECIFIED => "manual"
  end.

Definition stringToReproduction (s : string) : pbReproductionMode :=
  if String.eqb s "manual" then ReproductionMode_MANUAL
  else if String.eqb s "assisted" then ReproductionMode_ASSISTED
  else if String.eqb s "automatic" then ReproductionMode_AUTOMATIC
  else if String.eqb s "autopoietic" then ReproductionMode_AUTOPOIETIC
  else if String.eqb s "bred" then ReproductionMode_BRED
  else ReproductionMode_REPRODUCTION_UNSPECIFIED.

(** [toProto(id)]. *)
Definition toProto (id : Identity) : HolonIdentity :=
  mkHolonIdentity
    (UUID id) (GivenName id) (FamilyName id) (Motto id) (Composer id)
    (stringToClade (Clade id)) (stringToStatus (Status id)) (Born id)
    (Parents id) (stringToReproduction (Reproduction id)) (Aliases id)
    (GeneratedBy id) (Lang id) (stringToStatus (ProtoStatus id)).

(** [strings.TrimSuffix(s, suffix)]. *)
Definition TrimSuffix (s suffix : string) : string :=
  if HasSuffix s suffix
  then take (String.length s - String.length suffix) s
  else s.

(** [strings.ReplaceAll(s, " ", "-")]. *)
Fixpoint replaceSpaces (s : string) : string :=
  match s with
  | EmptyString => EmptyString
  | String c s' =>
      String (if Ascii.eqb c " "%char then "-"%char else c) (replaceSpaces s')
  end.

Section Server.

Variable isPrintWide : Z -> bool.

(** [strings.ToLower], which reads the Unicode case tables. *)
Variable strings_ToLower : string -> string.

Variable filepath_Join : list string -> string.

(** The record that [identity.New()] returns to this call: a fresh
    identifier, today's date and the defaults. *)
Variable identity_New : Identity.

Variable os : OsWrites.

(** The method [CreateIdentity(ctx, req)] of [Server]: the response or the status
    error, and the file-system operations performed.  [None] is the
    [nil] request. *)
Definition CreateIdentity (req : option CreateIdentityRequest)
  : (CreateIdentityResponse + statusError) * list fsOp :=
  match req with
  | None => (inr (mkStatus InvalidArgument "request is required"), [])
  | Some req =>
      if String.eqb (GoStringsUnicode.TrimSpace (reqGivenName req)) "" then
        (inr (mkStatus InvalidArgument "given_name is required"), [])
      else if String.eqb (GoStringsUnicode.TrimSpace (reqFamilyName req)) "" then
        (inr (mkStatus InvalidArgument "family_name is required"), [])
      else if String.eqb (GoStringsUnicode.TrimSpace (reqMotto req)) "" then
        (inr (mkStatus InvalidArgument "motto is required"), [])
      else if String.eqb (GoStringsUnicode.TrimSpace (reqComposer req)) "" then
        (inr (mkStatus InvalidArgument "composer is required"), [])
      else
        let id := identity_New in
        let id :=
          mkIdentity (UUID id) (reqGivenName req) (reqFamilyName req)
                     (reqMotto req) (reqComposer req)
                     (cladeToString (reqClade req)) (Status id) (Born id)
                     (Parents id)
                     (reproductionToString (reqReproduction req))
                     (Aliases id) (GeneratedBy id) (Lang id)
                     (ProtoStatus id) in
        let id :=
          if negb (String.eqb (reqLang req) "") then
            mkIdentity (UUID id) (GivenName id) (FamilyName id) (Motto id)
                       (Composer id) (Clade id) (Status id) (Born id)
                       (Parents id) (Reproduction id) (Aliases id)
                       (GeneratedBy id) (reqLang req) (ProtoStatus id)
          else id in
        let id :=
          if (0 <? List.length (reqAliases req))%nat then
            mkIdentity (UUID id) (GivenName id) (FamilyName id) (Motto id)
                       (Composer id) (Clade id) (Status id) (Born id)
                       (Parents id) (Reproduction id) (reqAliases req)
                       (GeneratedBy id) (Lang id) (ProtoStatus id)
          else id in
        let outputDir := reqOutputDir req in
        let outputDir :=
          if String.eqb outputDir "" then
            let dirName :=
              strings_ToLower
                (GivenName id ++ "-" ++ TrimSuffix (FamilyName id) "?") in
            let dirName := replaceSpaces dirName in
            filepath_Join [".holon"; dirName]
          else outputDir in
        match os_MkdirAll os outputDir with
        | Some err =>
            (inr (mkStatus Internal
                    ("cannot create directory: " ++ Error err)), [])
        | None =>
            let log := [OpMkdirAll outputDir] in
            let outputPath := filepath_Join [outputDir; "HOLON.md"] in
            match WriterIO.WriteHolonMD isPrintWide os id outputPath log with
            | (log, Some err) =>
                (inr (mkStatus Internal
                        ("write HOLON.md: " ++ Error err)), log)
            | (log, None) =>
                (inl (mkCreateResponse (toProto id) outputPath), log)
            end
        end
  end.

End Server.

End Server.


(* ================================================================== *)
(** ** The traversal, as a list *)
(* ================================================================== *)

(** What the claims call traversal order: the calls of [WalkDir] to its
    callback, listed from the tree alone. *)
Module Traversal.

Import GoStrings Filepath.

Section Events.

Variable Join : string -> string -> string.

(** The directories the callback refuses, by name. *)
Variable skip : string -> bool.

(** The calls to a callback that answers [SkipDir] on the directories of
    [skip] and never stops the walk: an entry before what lies below it,
    the entries of a directory in the order of [os.ReadDir]. *)
Fixpoint walkEvents (path name : string) (n : node)
  : list (string * walkArg) :=
  let d := mkDirEntry name n in
  match n with
  | File _ => [(path, Entry d)]
  | Dir readErr entries =>
      (path, Entry d) ::
      (if skip name then []
       else
         (match readErr with
          | Some re => [(path, EntryErr (Some d) re)]
          | None => []
          end ++
          (fix below (dirs : list (string * node)) : list (string * walkArg) :=
             match dirs with
             | [] => []
             | (name1, n1) :: dirs' =>
                 walkEvents (Join path name1) name1 n1 ++ below dirs'
             end) entries)%list)
  end.

Definition rootEvents (fs : FileSystem) (root : string)
  : list (string * walkArg) :=
  match os_Lstat fs root with
  | inr e => [(root, EntryErr None e)]
  | inl d => walkEvents root (Name d) (entryNode d)
  end.

(** The non-directories among the calls, with their paths. *)
Fixpoint fileEntries (evs : list (string * walkArg))
  : list (string * DirEntry) :=
  match evs with
  | [] => []
  | (p, Entry d) :: evs' =>
      if IsDir d then fileEntries evs' else (p, d) :: fileEntries evs'
  | (_, EntryErr _ _) :: evs' => fileEntries evs'
  end.

Definition filesUnder (fs : FileSystem) (root : string)
  : list (string * DirEntry) :=
  fileEntries (rootEvents fs root).

Context {St : Type}.

(** A callback run over a list of calls, up to the first answer
    [SkipAll]. *)
Fixpoint runEvents (fn : @WalkDirFunc St) (evs : list (string * walkArg))
         (s : St) : St * option error :=
  match evs with
  | [] => (s, None)
  | (p, a) :: evs' =>
      let '(s', e) := fn p a s in
      match e with
      | Some SkipAll => (s', Some SkipAll)
      | _ => runEvents fn evs' s'
      end
  end.

(** A callback that refuses the directories of [skip] with [SkipDir],
    answers [nil] or [SkipAll] on a non-directory and [nil] on an error. *)
Definition obeys (fn : @WalkDirFunc St) : Prop :=
  (forall p d s, IsDir d = true ->
                 snd (fn p (Entry d) s) =
                 if skip (Name d) then Some SkipDir else None) /\
  (forall p d s, IsDir d = false ->
                 snd (fn p (Entry d) s) = None \/
                 snd (fn p (Entry d) s) = Some SkipAll) /\
  (forall p d e s, snd (fn p (EntryErr d e) s) = None).

End Events.

(** [d] is the non-directory at [p] below the entry [name] at [path];
    [dirs] are the names of the directories gone through on the way, the
    first one included when it is a directory. *)
Inductive locates (Join : string -> string -> string)
  : string -> string -> node -> list string -> string -> DirEntry -> Prop :=
| locates_file path name content :
    locates Join path name (File content) [] path
            (mkDirEntry name (File content))
| locates_below path name readErr entries name1 n1 dirs p d :
    In (name1, n1) entries ->
    locates Join (Join path name1) name1 n1 dirs p d ->
    locates Join path name (Dir readErr entries) (name :: dirs) p d.

(** The rule of the bulk scan: a directory name that starts with a dot
    and is neither [.] nor [.holon]. *)
Definition hiddenDir (name : string) : bool :=
  negb (String.eqb name ".") && negb (String.eqb name ".holon") &&
  HasPrefix name ".".

(** The rule of [FindByUUID]: no directory is refused. *)
Definition noDir (name : string) : bool := false.

End Traversal.

(* ================================================================== *)
(** ** What a scan emits *)
(* ================================================================== *)

Module Trace.

Import GoStrings Filepath Traversal.

(** A call to one of the two callbacks of [ScanAllWithPaths]. *)
Inductive scanEvent : Type :=
| Found (h : LocatedIdentity)
| Progress (p : ScanProgress).

Definition recordFound : option (LocatedIdentity -> list scanEvent -> list scanEvent) :=
  Some (fun h u => (u ++ [Found h])%list).

Definition recordProgress : option (ScanProgress -> list scanEvent -> list scanEvent) :=
  Some (fun p u => (u ++ [Progress p])%list).

Fixpoint foundOf (t : list scanEvent) : list LocatedIdentity :=
  match t with
  | [] => []
  | Found h :: t' => h :: foundOf t'
  | Progress _ :: t' => foundOf t'
  end.

Fixpoint progressOf (t : list scanEvent) : list ScanProgress :=
  match t with
  | [] => []
  | Found _ :: t' => progressOf t'
  | Progress p :: t' => p :: progressOf t'
  end.

(** A callback that may be [nil], as a function. *)
Definition callback {A U : Type} (cb : option (A -> U -> U)) : A -> U -> U :=
  match cb with
  | Some f => f
  | None => fun _ u => u
  end.

(** One recorded call replayed on the callbacks [onFound], [onProgress]. *)
Definition replay {U : Type} (onFound : option (LocatedIdentity -> U -> U))
           (onProgress : option (ScanProgress -> U -> U))
           (u : U) (e : scanEvent) : U :=
  match e with
  | Found h => callback onFound h u
  | Progress p => callback onProgress p u
  end.

(** A walk callback that also logs the path of each call. *)
Definition traced {St : Type} (fn : @WalkDirFunc St)
  : @WalkDirFunc (St * list string) :=
  fun path a sl =>
    let '(s', e) := fn path a (fst sl) in
    ((s', (snd sl ++ [path])%list), e).

Section Trace.

Variable yaml_Unmarshal : string -> Identity -> Identity * option error.
Variable Join : string -> string -> string.

(** The record that a non-directory entry holds, when it is named
    HOLON.md, can be read and decodes. *)
Definition decodeHolon (d : DirEntry) : option Identity :=
  if String.eqb (Name d) "HOLON.md" then
    match os_ReadFile d with
    | Some data =>
        match Registry.ParseFrontmatter yaml_Unmarshal data with
        | (id, _, None) => Some id
        | (_, _, Some _) => None
        end
    | None => None
    end
  else None.

(** The valid records among a list of files, in order. *)
Fixpoint holonsIn (files : list (string * DirEntry)) : list LocatedIdentity :=
  match files with
  | [] => []
  | (p, d) :: files' =>
      match decodeHolon d with
      | Some id => mkLocated id p :: holonsIn files'
      | None => holonsIn files'
      end
  end.

(** The files a bulk scan of [root] examines, and the records in them. *)
Definition visibleFiles (fs : FileSystem) (root : string) :=
  filesUnder Join hiddenDir fs root.

(** The files [FindByUUID] examines. *)
Definition allFiles (fs : FileSystem) (root : string) :=
  filesUnder Join noDir fs root.

(** The calls that a scan with reporting interval [progressEvery] makes
    to its two callbacks. *)
Definition scanTrace (fs : FileSystem) (root : string) (progressEvery : Z)
  : list scanEvent :=
  fst (Registry.ScanAllWithPaths yaml_Unmarshal Join
         recordFound recordProgress fs root progressEvery []).

(** Whether the scan reports progress right after it has counted its
    [i]-th file: the condition of [reportProgress(false)]. *)
Definition reportDue (progressEvery i : Z) : bool :=
  ((0 <? progressEvery) && (0 <? i) && (Z.rem i progressEvery =? 0))%Z.

(** The calls a scan makes to its callbacks while it examines [files],
    after it has counted [i] files and found [k] records. *)
Fixpoint fileTrace (progressEvery i k : Z) (files : list (string * DirEntry))
  : list scanEvent :=
  match files with
  | [] => []
  | (p, d) :: files' =>
      ((if reportDue progressEvery (i + 1)
        then [Progress (mkProgress (i + 1) k)] else []) ++
       match decodeHolon d with
       | Some id =>
           Found (mkLocated id p) :: fileTrace progressEvery (i + 1) (k + 1) files'
       | None => fileTrace progressEvery (i + 1) k files'
       end)%list
  end.

(** The interval that the scan works with: a negative one counts as 0. *)
Definition clamp (progressEvery : Z) : Z :=
  if (progressEvery <? 0)%Z then 0%Z else progressEvery.

(** The calls of a whole scan: those made file by file, then the final
    report. *)
Definition wholeTrace (fs : FileSystem) (root : string) (progressEvery : Z)
  : list scanEvent :=
  (fileTrace (clamp progressEvery) 0 0 (visibleFiles fs root) ++
   [Progress (mkProgress
                (Z.of_nat (List.length (visibleFiles fs root)))
                (Z.of_nat (List.length (holonsIn (visibleFiles fs root)))))])%list.

(** [i] is a positive multiple of the interval [progressEvery]. *)
Definition positiveMultiple (progressEvery i : Z) : bool :=
  ((0 <? progressEvery) && (0 <? i) && (i mod progressEvery =? 0))%Z.

(** One snapshot is at most another, in both counts. *)
Definition snapshotLe (a b : ScanProgress) : Prop :=
  (ScannedFiles a <= ScannedFiles b)%Z /\ (HolonsFound a <= HolonsFound b)%Z.

(** The test of [FindByUUID] on a decoded record. *)
Definition matchesUUID (target : string) (h : LocatedIdentity) : bool :=
  String.eqb (UUID (Identity_ h)) target ||
  HasPrefix (UUID (Identity_ h)) target.

(** The paths on which [FindByUUID]'s walk calls its callback. *)
Definition findCalls (fs : FileSystem) (root target : string) : list string :=
  snd (fst (WalkDir Join (traced (Registry.findVisit yaml_Unmarshal target))
                    fs root (""%string, []))).

End Trace.

End Trace.


(* ================================================================== *)
(** ** The tree of the package's tests *)
(* ================================================================== *)

(** The directory that [setupTestDir] of the registry tests builds, with
    [README.md] of [TestFindAllIgnoresNonHolonFiles] added: two records
    in plain directories and one under [.secret]. *)
Module Fixtures.

Import GoStrings.

(** [filepath.Join] on a clean path and a base name. *)
Definition joinSlash (path name : string) : string := path ++ "/" ++ name.

Definition holonText (uuid given : string) : string :=
  "---" ++ NL ++
  "uuid: " ++ Strconv.DQ ++ uuid ++ Strconv.DQ ++ NL ++
  "given_name: " ++ Strconv.DQ ++ given ++ Strconv.DQ ++ NL ++
  "family_name: " ++ Strconv.DQ ++ "Test" ++ Strconv.DQ ++ NL ++
  "status: draft" ++ NL ++
  "---" ++ NL.

Definition testTree : node :=
  Dir None
      [(".secret",
        Dir None [("HOLON.md", File (Some (holonText "hidden-uuid" "Hidden")))]);
       ("holon-a",
        Dir None [("HOLON.md", File (Some (holonText "aaaa-1111" "Alpha")));
                  ("README.md", File (Some "# readme"))]);
       ("holon-b",
        Dir None [("HOLON.md", File (Some (holonText "bbbb-2222" "Beta")))])].

Definition testRoot : string := "/tmp/root".

(** A file system that holds [testTree] at [testRoot] and nothing else. *)
Definition testFS : FileSystem :=
  fun root =>
    if String.eqb root testRoot then inl (mkDirEntry "root" testTree)
    else inr (errorString
                ("lstat " ++ root ++ ": no such file or directory")).

Definition missingRoot : string := "/nonexistent/path/that/does/not/exist".

End Fixtures.


(* ================================================================== *)
(** ** The vocabulary of the listing claim *)
(* ================================================================== *)

Module Aggregate.

(** The de-duplication key of a record: its identifier, or the path of
    its file when the identifier is empty. *)
Definition dedupKey (h : LocatedIdentity) : string :=
  if String.eqb (UUID (Identity_ h)) "" then Path h else UUID (Identity_ h).

Definition seenKey (seen : list string) (k : string) : bool :=
  existsb (String.eqb k) seen.

(** The records of [hs] whose key is neither in [seen] nor carried by an
    earlier record of [hs]: the first occurrence of each new key. *)
Fixpoint keepFirst (seen : list string) (hs : list LocatedIdentity)
  : list LocatedIdentity :=
  match hs with
  | [] => []
  | h :: hs' =>
      if seenKey seen (dedupKey h) then keepFirst seen hs'
      else h :: keepFirst (dedupKey h :: seen) hs'
  end.

(** The keys seen once [hs] has been gone through. *)
Fixpoint seenAfter (seen : list string) (hs : list LocatedIdentity)
  : list string :=
  match hs with
  | [] => seen
  | h :: hs' =>
      if seenKey seen (dedupKey h) then seenAfter seen hs'
      else seenAfter (dedupKey h :: seen) hs'
  end.

(** The rows that [RunList] printed: record, origin label and path. *)
Fixpoint printedRows (o : list Cli.output)
  : list (Identity * string * string) :=
  match o with
  | [] => []
  | Cli.PrintEntry id _ origin path :: o' => (id, origin, path) :: printedRows o'
  | _ :: o' => printedRows o'
  end.

(** The row printed for a record found under a scanned root, with the
    requested [root] and an origin label. *)
Definition row (filepath_Clean filepath_Dir : string -> string)
           (filepath_Rel : string -> string -> string + error)
           (root origin : string) (h : LocatedIdentity)
  : Identity * string * string :=
  (Identity_ h, origin,
   Cli.relHolonDir filepath_Clean filepath_Dir filepath_Rel root (Path h)).

End Aggregate.


(* ================================================================== *)
(** ** The vocabulary of the create claim *)
(* ================================================================== *)

Module Create.

(** A string that is empty or holds white space only: every rune of it
    satisfies [unicode.IsSpace]. *)
Definition blank (s : string) : bool :=
  forallb (fun rb : Z * string => Utf8.IsSpace (fst rb)) (Utf8.runes s).

(** One of the four required fields of a request is blank. *)
Definition anyBlank (req : Server.CreateIdentityRequest) : bool :=
  blank (Server.reqGivenName req) || blank (Server.reqFamilyName req) ||
  blank (Server.reqMotto req) || blank (Server.reqComposer req).

(** The status code of an answer, when it is an error. *)
Definition codeOf {A : Type} (r : A + Server.statusError)
  : option Server.code :=
  match r with
  | inl _ => None
  | inr e => Some (Server.statusCode e)
  end.

(** The request of [TestCreateIdentityReadOnlyDir], and an operating
    system on which no directory can be created. *)
Definition readOnlyRequest : Server.CreateIdentityRequest :=
  Server.mkCreateRequest "FailDir" "Test" "Should fail." "Test"
                         Server.Clade_CLADE_UNSPECIFIED
                         Server.ReproductionMode_REPRODUCTION_UNSPECIFIED
                         "" [] "/readonly/impossible/nested".

Definition readOnlyOS : OsWrites :=
  mkOsWrites (fun dir => Some (errorString
                                 ("mkdir " ++ dir ++ ": permission denied")))
             (fun _ => None) (fun _ => None).

(** An operating system on which every call succeeds. *)
Definition writableOS : OsWrites :=
  mkOsWrites (fun _ => None) (fun _ => None) (fun _ => None).

(** A record as [identity.New()] returns it, with the defaults that
    identity_test.go checks. *)
Definition newIdentity : Identity :=
  mkIdentity "b00932e5-49d4-4724-ab4b-e2fc9e22e108" "" "" "" "" ""
             "draft" "2026-02-12" [] "" [] "sophia-who" "" "draft".

End Create.


(* ================================================================== *)
(** ** The vocabulary of the codec claims *)
(* ================================================================== *)

Module Codec.

Import GoStrings.

(** The closing delimiter that [ParseFrontmatter] looks for: a line feed
    and three dashes. *)
Definition closing : string := NL ++ "---".

(** The content after the opening three bytes and the line feed that may
    follow them: where [ParseFrontmatter] looks for the closing
    delimiter. *)
Definition afterOpening (data : string) : string :=
  let rest := drop 3 data in
  match rest with
  | String c rest' => if Ascii.eqb c LF then rest' else rest
  | EmptyString => rest
  end.

(** [sep] occurs in [s]. *)
Definition occursIn (sep s : string) : Prop :=
  exists pre post, s = pre ++ sep ++ post.

(** Every byte of [s] satisfies [f]. *)
Fixpoint allBytes (f : ascii -> bool) (s : string) : bool :=
  match s with
  | EmptyString => true
  | String c s' => f c && allBytes f s'
  end.

(** [s] is valid UTF-8: what [utf8.ValidString] decides. *)
Definition validUTF8 (s : string) : bool :=
  forallb Utf8.wellDecoded (Utf8.runes s).

(** [s] is empty or a plain word: letters, digits, [_] and [-], not
    starting with [-], and none of the null literals of YAML. *)
Definition plainWord (s : string) : bool :=
  match s with
  | EmptyString => true
  | String c _ =>
      allBytes Yaml.isWordChar s && negb (Utf8.byte c =? 45)%Z &&
      negb (String.eqb s "null") && negb (String.eqb s "Null") &&
      negb (String.eqb s "NULL")
  end.

(** The records of the amended round trip: [status] and [proto_status],
    which the template writes unquoted, are plain words, and the quoted
    fields are valid UTF-8. *)
Definition plainRecord (id : Identity) : bool :=
  validUTF8 (UUID id) && validUTF8 (GivenName id) &&
  validUTF8 (FamilyName id) && validUTF8 (Motto id) &&
  validUTF8 (Composer id) && validUTF8 (Clade id) &&
  plainWord (Status id) && validUTF8 (Born id) &&
  forallb validUTF8 (Parents id) && validUTF8 (Reproduction id) &&
  forallb validUTF8 (Aliases id) && validUTF8 (GeneratedBy id) &&
  validUTF8 (Lang id) && plainWord (ProtoStatus id).

(** What the amended round trip asks of the tables of [strconv]: the line
    and paragraph separators U+2028 and U+2029, which are line breaks of
    YAML, and the noncharacters U+FFFE and U+FFFF, which its reader
    refuses, are not printable. *)
Definition tableOK (isPrintWide : Z -> bool) : bool :=
  negb (isPrintWide 8232%Z) && negb (isPrintWide 8233%Z) &&
  negb (isPrintWide 65534%Z) && negb (isPrintWide 65535%Z).

(** A table for the examples: Latin Extended-A and -B, U+0100..U+024F. *)
Definition latinExtended (r : Z) : bool := Utf8.inRange 256 591 r.

(** Two records that differ in [born] only, with a status that holds a
    line feed followed by three dashes. *)
Definition cutRecord (born : string) : Identity :=
  mkIdentity "b00932e5-49d4-4724-ab4b-e2fc9e22e108" "Sophia" "Who?"
             "Know thyself." "B. ALTER" "deterministic/pure"
             ("draft" ++ GoStrings.NL ++ "---") born [] "manual"
             ["who"; "sophia"] "manual" "go" "draft".

(** The record of the repository's own HOLON.md, and the same record with
    the status [null]. *)
Definition sophia (status : string) : Identity :=
  mkIdentity "b00932e5-49d4-4724-ab4b-e2fc9e22e108" "Sophia" "Who?"
             "Know thyself." "B. ALTER" "deterministic/pure"
             status "2026-02-12" [] "manual"
             ["who"; "sophia"] "manual" "go" "draft".

(** The same record with a motto that holds runes above ASCII: U+00EE
    and U+0153, which Go writes as they are (the second is printable by
    the table of the examples), U+00A0, which Go escapes with [\u], and
    U+1F600, which the table of the examples does not list and Go escapes
    with [\U]. *)
Definition accented : Identity :=
  mkIdentity "b00932e5-49d4-4724-ab4b-e2fc9e22e108" "Sophia" "Who?"
             ("Conna" ++ Utf8.encode 238 ++ "s-toi" ++ Utf8.encode 160 ++
              Utf8.encode 339 ++ Utf8.encode 128512)
             "B. ALTER" "deterministic/pure"
             "draft" "2026-02-12" [] "manual"
             ["who"; "sophia"] "manual" "go" "draft".

(** The lines of the frontmatter that the template writes. *)
Definition frontmatterLines (isPrintWide : Z -> bool) (id : Identity)
  : list string :=
  let quote := Writer.quote isPrintWide in
  let joinQuoted := Writer.joinQuoted isPrintWide in
  ["# Holon Identity v1";
   "uuid: " ++ quote (UUID id);
   "given_name: " ++ quote (GivenName id);
   "family_name: " ++ quote (FamilyName id);
   "motto: " ++ quote (Motto id);
   "composer: " ++ quote (Composer id);
   "clade: " ++ quote (Clade id);
   "status: " ++ Status id;
   "born: " ++ quote (Born id);
   "";
   "# Lineage";
   "parents: [" ++ joinQuoted (Parents id) ++ "]";
   "reproduction: " ++ quote (Reproduction id);
   "";
   "# Optional";
   "aliases: [" ++ joinQuoted (Aliases id) ++ "]";
   "";
   "# Metadata";
   "generated_by: " ++ quote (GeneratedBy id);
   "lang: " ++ quote (Lang id);
   "proto_status: " ++ ProtoStatus id].

(** Printable ASCII, [0x20..0x7E]. *)
Definition printable (c : ascii) : bool := Utf8.inRange 32 126 (Utf8.byte c).

Definition notLF (c : ascii) : bool := negb (Ascii.eqb c LF).

(** A line as the template writes them: no line feed in it, no dash at
    its start. *)
Definition lineOK (l : string) : bool :=
  allBytes notLF l && negb (GoStrings.HasPrefix l "-").

(** A decoding that is no error: not the pair [(RuneError, 1)]. *)
Definition decoded (r : Z) (w : nat) : Prop :=
  ~ (r = Utf8.RuneError /\ w = 1%nat).

(** A text: valid encodings, one after the other, of runes that satisfy
    [P]. *)
Inductive text (P : Z -> bool) : string -> Prop :=
| text_nil : text P ""
| text_rune (x : string) (r : Z) (s : string) :
    x <> "" ->
    Utf8.DecodeRuneInString x = (r, String.length x) ->
    Utf8.wellDecoded (r, x) = true ->
    P r = true ->
    text P s ->
    text P (x ++ s).

Definition wellFormed : string -> Prop := text (fun _ => true).

(** The runes that may stand in a document of the subset, and those that
    may stand in one of its lines. *)
Definition blockRune (r : Z) : bool :=
  Yaml.allowedChar r && negb (Yaml.isBreak r).

Definition lineRune (r : Z) : bool := blockRune r && negb (r =? 10)%Z.

(** A line of the rendered frontmatter. *)
Definition wellLine (l : string) : Prop :=
  text lineRune l /\ GoStrings.HasPrefix l "-" = false.

(** A mapping entry on one line. *)
Definition entryLine (key text : string) : string := key ++ ": " ++ text.

(** What [joinQuoted] writes after the first item. *)
Fixpoint itemsTail (isPrintWide : Z -> bool) (ss : list string) : string :=
  match ss with
  | [] => ""
  | s :: ss' =>
      ", " ++ Strconv.Quote isPrintWide s ++ itemsTail isPrintWide ss'
  end.

End Codec.

(* ================================================================== *)
(** ** strings.ToLower, strings.Map, unicode.ToLower *)
(* ================================================================== *)

Module GoCase.

Import GoStrings Utf8.
Local Open Scope Z_scope.

Fixpoint mapBytes (f : ascii -> ascii) (s : string) : string :=
  match s with
  | EmptyString => EmptyString
  | String c s' => String (f c) (mapBytes f s')
  end.

Fixpoint anyByte (f : ascii -> bool) (s : string) : bool :=
  match s with
  | EmptyString => false
  | String c s' => f c || anyByte f s'
  end.

(** ['A' <= c && c <= 'Z']. *)
Definition isUpperByte (c : ascii) : bool := inRange 65 90 (byte c).

(** [c += 'a' - 'A'] on an upper-case byte. *)
Definition lowerByte (c : ascii) : ascii :=
  if isUpperByte c then chr (byte c + 32) else c.

Section Tables.

(** [unicode.To(unicode.LowerCase, r)], which reads the case tables, for
    the runes above ASCII. *)
Variable toLowerWide : Z -> Z.

(** [unicode.ToLower(r)]. *)
Definition unicode_ToLower (r : Z) : Z :=
  if r <=? 127 then (if inRange 65 90 r then r + 32 else r)
  else toLowerWide r.

(** The second loop of [strings.Map]: every rune is mapped and written,
    a negative result is dropped. *)
Definition writeMapped (mapping : Z -> Z) (rb : Z * string) : string :=
  let r := mapping (fst rb) in
  if 0 <=? r then (if r <? RuneSelf then str1 r else AppendRune r)
  else "".

(** The first loop of [strings.Map]: the runes that the mapping leaves
    as they are, and that are no invalid byte, are passed over; at the
    first other one the output is started with what was passed over,
    [before], and the mapped rune.  When no such rune is met the string
    is returned as it is. *)
Fixpoint mapFrom (mapping : Z -> Z) (before : string)
         (rs : list (Z * string)) (s : string) : string :=
  match rs with
  | [] => s
  | (c, bytes) :: rs' =>
      let r := mapping c in
      if (r =? c) && wellDecoded (c, bytes)
      then mapFrom mapping (before ++ bytes) rs' s
      else before ++ (if 0 <=? r then AppendRune r else "") ++
           String.concat "" (map (writeMapped mapping) rs')
  end.

(** [strings.Map(mapping, s)]. *)
Definition Map (mapping : Z -> Z) (s : string) : string :=
  mapFrom mapping "" (runes s) s.

(** [strings.ToLower(s)]: byte by byte on an ASCII string, rune by rune
    with [unicode.ToLower] otherwise. *)
Definition ToLower (s : string) : string :=
  let isASCII := negb (anyByte (fun c => RuneSelf <=? byte c) s) in
  let hasUpper := anyByte isUpperByte s in
  if isASCII then
    if negb hasUpper then s else mapBytes lowerByte s
  else Map unicode_ToLower s.

End Tables.

End GoCase.

(* ================================================================== *)
(** ** internal/server/server.go: ShowIdentity, ListIdentities *)
(* ================================================================== *)

Module Rpc.

Import GoStrings Server.

(** [pb.ShowIdentityRequest], [pb.ShowIdentityResponse]. *)
Record ShowIdentityRequest : Type := mkShowRequest {
  reqUuid : string
}.

Record ShowIdentityResponse : Type := mkShowResponse {
  showIdentity : HolonIdentity;
  showFilePath : string;
  showRawContent : string
}.

(** [pb.ListIdentitiesRequest], [pb.HolonEntry],
    [pb.ListIdentitiesResponse]. *)
Record ListIdentitiesRequest : Type := mkListRequest {
  reqRootDir : string
}.

Record HolonEntry : Type := mkHolonEntry {
  entryIdentity : HolonIdentity;
  entryOrigin : string;
  entryRelativePath : string
}.

Record ListIdentitiesResponse : Type := mkListResponse {
  respEntries : list HolonEntry
}.

Section Rpc.

Variable yaml_Unmarshal : string -> Identity -> Identity * option error.
Variable toLowerWide : Z -> Z.

(** [filepath.Join(elem...)], [filepath.Clean], [filepath.Dir],
    [filepath.Rel]. *)
Variable filepath_Join : list string -> string.
Variable filepath_Clean : string -> string.
Variable filepath_Dir : string -> string.
Variable filepath_Rel : string -> string -> string + error.

Variable fs : FileSystem.

(** [os.ReadFile(path)] for a path that the service got from a walk. *)
Variable os_ReadFileAt : string -> string + error.

(** The file system does not change between the walk of [FindByUUID]
    and the read that follows it: a file that the walk could read is read
    again, with the same content. *)
Definition stable : Prop :=
  forall p d data,
    In (p, d) (Trace.allFiles (fun p n => filepath_Join [p; n]) fs ".") ->
    os_ReadFile d = Some data -> os_ReadFileAt p = inl data.

(** [relativeHolonDir(rootDir, holonFilePath)]. *)
Definition relativeHolonDir (rootDir holonFilePath : string) : string :=
  let dir := filepath_Dir holonFilePath in
  match filepath_Rel rootDir dir with
  | inr _ => filepath_Clean dir
  | inl rel => filepath_Clean rel
  end.

(** [isIdentityNotFound(err)]. *)
Definition isIdentityNotFound (err : option error) : bool :=
  match err with
  | None => false
  | Some e =>
      HasPrefix (GoCase.ToLower toLowerWide
                   (GoStringsUnicode.TrimSpace (Error e)))
                "holon not found:"
  end.

(** The method [ShowIdentity(ctx, req)] of [Server]; [None] is the [nil]
    request. *)
Definition ShowIdentity (req : option ShowIdentityRequest)
  : ShowIdentityResponse + statusError :=
  match req with
  | None => inr (mkStatus InvalidArgument "uuid is required")
  | Some req =>
      if String.eqb (GoStringsUnicode.TrimSpace (reqUuid req)) "" then
        inr (mkStatus InvalidArgument "uuid is required")
      else
        match Registry.FindByUUID yaml_Unmarshal
                (fun p n => filepath_Join [p; n]) fs "." (reqUuid req) with
        | (_, Some err) =>
            if isIdentityNotFound (Some err)
            then inr (mkStatus NotFound (Error err))
            else inr (mkStatus Internal
                        ("resolve holon by uuid: " ++ Error err))
        | (path, None) =>
            match os_ReadFileAt path with
            | inr err =>
                inr (mkStatus Internal
                       ("cannot read " ++ path ++ ": " ++ Error err))
            | inl data =>
                match Registry.ParseFrontmatter yaml_Unmarshal data with
                | (_, _, Some err) =>
                    inr (mkStatus Internal
                           ("parse HOLON.md: " ++ Error err))
                | (id, _, None) => inl (mkShowResponse (toProto id) path data)
                end
            end
        end
  end.

(** The method [ListIdentities(ctx, req)] of [Server]; [None] is the
    [nil] request. *)
Definition ListIdentities (req : option ListIdentitiesRequest)
  : ListIdentitiesResponse + statusError :=
  let rootDir := "." in
  let rootDir :=
    match req with
    | Some req =>
        if negb (String.eqb (GoStringsUnicode.TrimSpace (reqRootDir req)) "")
        then reqRootDir req else rootDir
    | None => rootDir
    end in
  match Registry.FindAllWithPaths yaml_Unmarshal
          (fun p n => filepath_Join [p; n]) fs rootDir with
  | (_, Some err) =>
      inr (mkStatus Internal ("scan identities: " ++ Error err))
  | (holons, None) =>
      inl (mkListResponse
             (map (fun h => mkHolonEntry (toProto (Identity_ h)) "local"
                                         (relativeHolonDir rootDir (Path h)))
                  holons))
  end.

End Rpc.

End Rpc.

(* ================================================================== *)
(** ** The working directory of the service's tests *)
(* ================================================================== *)

Module Workdir.

Import GoStrings.

(** [filepath.Join] on a clean path and a base name: the current
    directory gives way to what follows it. *)
Definition joinClean (elems : list string) : string :=
  match elems with
  | [p; n] =>
      if String.eqb p "." then (if String.eqb n "" then "." else n)
      else p ++ "/" ++ n
  | _ => Join elems "/"
  end.

(** A file system whose current directory holds the tree of the tests. *)
Definition dotFS : FileSystem :=
  fun root =>
    if String.eqb root "." then inl (mkDirEntry "." Fixtures.testTree)
    else inr (errorString
                ("lstat " ++ root ++ ": no such file or directory")).

(** [os.ReadFile] on that file system: the file that a walk from the
    current directory meets under the path. *)
Definition readAt (path : string) : string + error :=
  match List.find (fun pd : string * DirEntry => String.eqb (fst pd) path)
                  (Trace.allFiles (fun p n => joinClean [p; n]) dotFS ".") with
  | Some (_, d) =>
      match os_ReadFile d with
      | Some data => inl data
      | None => inr (errorString ("read " ++ path ++ ": permission denied"))
      end
  | None =>
      inr (errorString ("open " ++ path ++ ": no such file or directory"))
  end.

End Workdir.

(* ================================================================== *)
(** ** The two streams of RunList *)
(* ================================================================== *)

Module Streams.

(** What [RunList] writes to standard output: the header, the rule, the
    rows and the notice; the rest goes to standard error. *)
Definition toStdout (o : Cli.output) : bool :=
  match o with
  | Cli.PrintHeader | Cli.PrintRule | Cli.PrintEntry _ _ _ _
  | Cli.PrintNoHolons => true
  | _ => false
  end.

Definition stdoutOf (o : list Cli.output) : list Cli.output :=
  List.filter toStdout o.

Definition isRow (o : Cli.output) : bool :=
  match o with
  | Cli.PrintEntry _ _ _ _ => true
  | _ => false
  end.

(** The rows among what was written. *)
Definition rowsOf (o : list Cli.output) : list Cli.output :=
  List.filter isRow o.

(** The escape sequences of the inline progress display. *)
Definition isEscape (o : Cli.output) : bool :=
  match o with
  | Cli.ErrClearLine | Cli.ErrProgressInline _ _ => true
  | _ => false
  end.

(** The state of a listing is well formed: standard output holds the
    header and the rule exactly when a row was printed, before the rows,
    and the counter counts the rows. *)
Definition shaped (st : Cli.listState) : Prop :=
  stdoutOf (Cli.out st) =
    ((if Cli.printedHeader st then [Cli.PrintHeader; Cli.PrintRule] else []) ++
     rowsOf (Cli.out st))%list /\
  Cli.printedEntries st = Z.of_nat (List.length (rowsOf (Cli.out st))) /\
  (Cli.printedHeader st = false <-> rowsOf (Cli.out st) = []).

(** Two states of a listing that differ in what went to standard error
    only. *)
Definition sameStdout (a b : Cli.listState) : Prop :=
  Cli.localSeen a = Cli.localSeen b /\
  Cli.printedHeader a = Cli.printedHeader b /\
  Cli.printedEntries a = Cli.printedEntries b /\
  Cli.lastReported a = Cli.lastReported b /\
  stdoutOf (Cli.out a) = stdoutOf (Cli.out b).

(** Nothing written so far is an escape sequence. *)
Definition plain (st : Cli.listState) : Prop :=
  forallb (fun o => negb (isEscape o)) (Cli.out st) = true.

End Streams.

(* ================================================================== *)
(** ** internal/cli/commands.go: RunShow and the prompts *)
(* ================================================================== *)

Module Commands.

Import GoStrings.

(** [fmt.Sprintf("%d", n)]: the decimal digits of [n], with a minus sign
    before them when [n] is negative. *)
Definition formatInt (n : Z) : string :=
  DecimalString.NilZero.string_of_int (Z.to_int n).

(** Standard input as the scanner of [RunNew] yields it, line by line and
    without the line ends, and what was printed so far.  The input is read
    without error and no line exceeds the scanner's buffer; after the last
    line [Scan] fails and [Text] is the empty string. *)
Record console : Type := mkConsole {
  pending : list string;
  printed : list string
}.

Definition print (s : string) (c : console) : console :=
  mkConsole (pending c) (printed c ++ [s])%list.

(** [scanner.Scan()] followed by [scanner.Text()]. *)
Definition scanText (c : console) : string * console :=
  match pending c with
  | [] => ("", c)
  | line :: rest => (line, mkConsole rest (printed c))
  end.

(** [ask(scanner, prompt)]; [fuel] bounds the turns of its loop, and
    [None] says that the loop is still running when they are used up. *)
Fixpoint ask (fuel : nat) (prompt : string) (c : console)
  : option (string * console) :=
  match fuel with
  | O => None
  | S fuel =>
      let c := print (prompt ++ ": ") c in
      let (text, c) := scanText c in
      let answer := GoStringsUnicode.TrimSpace text in
      if negb (String.eqb answer "") then Some (answer, c)
      else ask fuel prompt (print ("  (required)" ++ NL) c)
  end.

(** [askDefault(scanner, prompt, defaultVal)]. *)
Definition askDefault (prompt defaultVal : string) (c : console)
  : string * console :=
  let c :=
    if negb (String.eqb defaultVal "")
    then print (prompt ++ " [" ++ defaultVal ++ "]: ") c
    else print (prompt ++ ": ") c in
  let (text, c) := scanText c in
  let answer := GoStringsUnicode.TrimSpace text in
  if String.eqb answer "" then (defaultVal, c) else (answer, c).

(** The inner loop of [askChoice], from the index [i] on. *)
Fixpoint pick (answer : string) (i : Z) (choices : list string)
  : option string :=
  match choices with
  | [] => None
  | c :: rest =>
      if String.eqb answer (formatInt (i + 1)) || String.eqb answer c
      then Some c
      else pick answer (i + 1) rest
  end.

(** [askChoice(scanner, prompt, choices)], with fuel as for [ask]. *)
Fixpoint askChoice (fuel : nat) (prompt : string) (choices : list string)
         (c : console) : option (string * console) :=
  match fuel with
  | O => None
  | S fuel =>
      let c :=
        print (prompt ++ " (1-" ++
               formatInt (Z.of_nat (List.length choices)) ++ "): ") c in
      let (text, c) := scanText c in
      let answer := GoStringsUnicode.TrimSpace text in
      match pick answer 0 choices with
      | Some r => Some (r, c)
      | None =>
          askChoice fuel prompt choices (print ("  (invalid choice)" ++ NL) c)
      end
  end.

(** The prompts that [ask] prints while it reads the lines [skipped]
    and refuses them. *)
Definition refusals (prompt note : string) (skipped : list string)
  : list string :=
  List.concat (map (fun _ : string => [prompt; note]) skipped).

Section RunShow.

Variable yaml_Unmarshal : string -> Identity -> Identity * option error.
Variable filepath_Join : list string -> string.
Variable fs : FileSystem.

(** [os.ReadFile(path)] for a path that the command got from a walk. *)
Variable os_ReadFileAt : string -> string + error.

(** [RunShow(target)]: what it prints to standard output, and its
    error. *)
Definition RunShow (target : string) : list string * option error :=
  match Registry.FindByUUID yaml_Unmarshal
          (fun p n => filepath_Join [p; n]) fs "." target with
  | (_, Some err) => ([], Some err)
  | (path, None) =>
      match os_ReadFileAt path with
      | inr err =>
          ([], Some (errorString
                       ("cannot read " ++ path ++ ": " ++ Error err)))
      | inl data => ([data ++ NL], None)
      end
  end.

End RunShow.

End Commands.

(* ================================================================== *)
(** ** What CreateIdentity renders and where *)
(* ================================================================== *)

Module Created.

Import GoStrings Server.

Section Created.

Variable strings_ToLower : string -> string.
Variable filepath_Join : list string -> string.
Variable identity_New : Identity.

(** The record that [CreateIdentity] renders for a request. *)
Definition created (req : CreateIdentityRequest) : Identity :=
  mkIdentity (UUID identity_New) (reqGivenName req) (reqFamilyName req)
             (reqMotto req) (reqComposer req)
             (cladeToString (reqClade req)) (Status identity_New)
             (Born identity_New) (Parents identity_New)
             (reproductionToString (reqReproduction req))
             (match reqAliases req with
              | [] => Aliases identity_New
              | _ => reqAliases req
              end)
             (GeneratedBy identity_New)
             (if String.eqb (reqLang req) "" then Lang identity_New
              else reqLang req)
             (ProtoStatus identity_New).

(** The directory that [CreateIdentity] writes in. *)
Definition directory (req : CreateIdentityRequest) : string :=
  if String.eqb (reqOutputDir req) "" then
    filepath_Join
      [".holon";
       replaceSpaces
         (strings_ToLower
            (reqGivenName req ++ "-" ++ TrimSuffix (reqFamilyName req) "?"))]
  else reqOutputDir req.

End Created.

End Created.


(* ================================================================== *)
(** * Proofs *)
(* ================================================================== *)

(** ** Facts about Go strings *)

Module GoStringsFacts.

Import GoStrings.

Lemma append_assoc (a b c : string) : (a ++ b) ++ c = a ++ b ++ c.
Proof. induction a as [|x a IH]; simpl; [reflexivity | now f_equal]. Qed.

Lemma append_nil_r (a : string) : a ++ "" = a.
Proof. induction a as [|x a IH]; simpl; [reflexivity | now f_equal]. Qed.

Lemma length_append (a b : string) :
  String.length (a ++ b) = (String.length a + String.length b)%nat.
Proof. induction a as [|x a IH]; simpl; [reflexivity | now f_equal]. Qed.

Lemma append_inv_head (a b c : string) : a ++ b = a ++ c -> b = c.
Proof.
  induction a as [|x a IH]; simpl; intros H; [exact H|].
  injection H as H. now apply IH.
Qed.

Lemma HasPrefix_app (p t : string) : HasPrefix (p ++ t) p = true.
Proof.
  induction p as [|x p IH]; simpl; [reflexivity|].
  now rewrite Ascii.eqb_refl, IH.
Qed.

Lemma HasPrefix_inv (s p : string) :
  HasPrefix s p = true -> exists t, s = p ++ t.
Proof.
  revert s. induction p as [|x p IH]; intros s H; simpl in *.
  - now exists s.
  - destruct s as [|c s]; [discriminate|].
    apply andb_true_iff in H as [Hc Hp].
    apply Ascii.eqb_eq in Hc. subst c.
    destruct (IH _ Hp) as [t ->]. now exists t.
Qed.

Lemma HasPrefix_spec (s p : string) :
  HasPrefix s p = true <-> exists t, s = p ++ t.
Proof.
  split; [apply HasPrefix_inv | intros [t ->]; apply HasPrefix_app].
Qed.

Lemma take_app (a b : string) : take (String.length a) (a ++ b) = a.
Proof. induction a as [|x a IH]; simpl; [now destruct b | now rewrite IH]. Qed.

Lemma drop_app (a b : string) : drop (String.length a) (a ++ b) = b.
Proof. induction a as [|x a IH]; simpl; [reflexivity | exact IH]. Qed.

Lemma take_drop (n : nat) (s : string) : take n s ++ drop n s = s.
Proof.
  revert s. induction n as [|n IH]; intros [|c s]; simpl; try reflexivity.
  now rewrite IH.
Qed.

Lemma drop_drop (n m : nat) (s : string) : drop n (drop m s) = drop (m + n) s.
Proof.
  revert s. induction m as [|m IH]; intros s; simpl; [reflexivity|].
  destruct s as [|c s]; [now destruct n | apply IH].
Qed.

(** [strings.Index] finds an occurrence. *)
Lemma indexFrom_Some (s sep : string) (i : nat) :
  indexFrom s sep = Some i ->
  s = take i s ++ sep ++ drop (i + String.length sep) s.
Proof.
  revert i. induction s as [|c s IH]; intros i H; simpl in H.
  - destruct (HasPrefix "" sep) eqn:Hp; [|discriminate].
    injection H as <-. destruct sep; [reflexivity | discriminate].
  - destruct (HasPrefix (String c s) sep) eqn:Hp.
    + injection H as <-. destruct (HasPrefix_inv _ _ Hp) as [t Ht].
      rewrite Ht at 1. cbn [take Nat.add]. rewrite Ht, drop_app. reflexivity.
    + destruct (indexFrom s sep) as [j|] eqn:Hj; [|discriminate].
      injection H as <-. simpl. f_equal. now apply IH.
Qed.

(** ... and reports none only when there is none. *)
Lemma indexFrom_None (s sep : string) :
  indexFrom s sep = None -> forall pre post, s <> pre ++ sep ++ post.
Proof.
  induction s as [|c s IH]; intros H pre post E; simpl in H.
  - destruct (HasPrefix "" sep) eqn:Hp; [discriminate|].
    destruct pre; [|discriminate]. simpl in E.
    rewrite E, HasPrefix_app in Hp. discriminate.
  - destruct (HasPrefix (String c s) sep) eqn:Hp; [discriminate|].
    destruct (indexFrom s sep) eqn:Hj; [discriminate|].
    destruct pre as [|x pre]; simpl in E.
    + rewrite E, HasPrefix_app in Hp. discriminate.
    + injection E as _ E. exact (IH eq_refl _ _ E).
Qed.

Lemma indexFrom_here (s sep : string) :
  HasPrefix s sep = true -> indexFrom s sep = Some 0%nat.
Proof. destruct s; simpl; intros ->; reflexivity. Qed.

Lemma indexFrom_next (c : ascii) (s sep : string) :
  HasPrefix (String c s) sep = false ->
  indexFrom (String c s) sep = option_map S (indexFrom s sep).
Proof. cbn [indexFrom]. intros ->. reflexivity. Qed.

(** The first occurrence: [sep] starts nowhere inside [b]. *)
Lemma indexFrom_first (b sep post : string) :
  (forall b1 x b2, b = b1 ++ String x b2 ->
                   HasPrefix (String x b2 ++ sep ++ post) sep = false) ->
  indexFrom (b ++ sep ++ post) sep = Some (String.length b).
Proof.
  induction b as [|c b IH]; intros H.
  - simpl. apply indexFrom_here, HasPrefix_app.
  - change (String c b ++ sep ++ post) with (String c (b ++ sep ++ post)).
    rewrite indexFrom_next by apply (H "" c b eq_refl).
    rewrite IH; [reflexivity|].
    intros b1 x b2 E. apply (H (String c b1) x b2). simpl. now rewrite E.
Qed.

Lemma Index_Some (s sep : string) (i : nat) :
  indexFrom s sep = Some i -> Index s sep = Z.of_nat i.
Proof. unfold Index. now intros ->. Qed.

Lemma Index_None (s sep : string) :
  indexFrom s sep = None -> Index s sep = (-1)%Z.
Proof. unfold Index. now intros ->. Qed.

End GoStringsFacts.

(** ** The decode contract of [ParseFrontmatter] *)

Module CodecFacts.

Import GoStrings GoStringsFacts Codec.

Lemma HasPrefix_app_l (a b p : string) :
  HasPrefix (a ++ b) p = true ->
  (String.length p <= String.length a)%nat ->
  HasPrefix a p = true.
Proof.
  revert a. induction p as [|x p IH]; intros a H L; [reflexivity|].
  destruct a as [|c a]; simpl in L; [lia|].
  simpl in H |- *. apply andb_true_iff in H as [-> H]. simpl.
  apply IH; [exact H | lia].
Qed.

(** In [block ++ closing ++ post] the delimiter is found right after
    [block] when it does not start inside [block]. *)
Lemma indexFrom_closing (block post : string) :
  ~ occursIn closing (block ++ NL ++ "--") ->
  indexFrom (block ++ closing ++ post) closing = Some (String.length block).
Proof.
  intros Hno. apply indexFrom_first. intros b1 x b2 E.
  destruct (HasPrefix (String x b2 ++ closing ++ post) closing) eqn:Hp;
    [|reflexivity].
  exfalso. apply Hno.
  assert (Hp' : HasPrefix (String x b2 ++ NL ++ "--") closing = true).
  { apply HasPrefix_app_l with (b := "-" ++ post).
    - rewrite !append_assoc. exact Hp.
    - rewrite length_append. simpl. lia. }
  apply HasPrefix_inv in Hp' as [t Ht].
  exists b1, t. rewrite E, append_assoc. now f_equal.
Qed.

Lemma ParseFrontmatter_unfold
      (yaml_Unmarshal : string -> Identity -> Identity * option error)
      (data : string) :
  Registry.ParseFrontmatter yaml_Unmarshal data =
  if negb (HasPrefix data "---") then
    (zeroIdentity, "", Some (errorString "no YAML frontmatter found"))
  else
    match indexFrom (afterOpening data) closing with
    | None => (zeroIdentity, "", Some (errorString "unclosed YAML frontmatter"))
    | Some i =>
        match yaml_Unmarshal (take i (afterOpening data)) zeroIdentity with
        | (_, Some err) =>
            (zeroIdentity, "",
             Some (errorString ("YAML parse error: " ++ Error err)))
        | (id, None) => (id, drop (i + 4) (afterOpening data), None)
        end
    end.
Proof.
  unfold Registry.ParseFrontmatter.
  destruct (negb (HasPrefix data "---")); [reflexivity|].
  change (sliceFrom data 3) with (drop 3 data).
  assert (Hrest :
    match drop 3 data with
    | String c _ => if Ascii.eqb c LF then sliceFrom (drop 3 data) 1 else drop 3 data
    | EmptyString => drop 3 data
    end = afterOpening data).
  { unfold afterOpening. destruct (drop 3 data) as [|c r]; [reflexivity|].
    destruct (Ascii.eqb c LF); reflexivity. }
  rewrite Hrest. fold closing. unfold Index.
  destruct (indexFrom (afterOpening data) closing) as [i|] eqn:Hi.
  - rewrite (proj2 (Z.ltb_ge (Z.of_nat i) 0)) by lia.
    unfold sliceTo, sliceFrom.
    rewrite Nat2Z.id.
    replace (Z.to_nat (Z.of_nat i + 4)) with (i + 4)%nat by lia.
    reflexivity.
  - reflexivity.
Qed.

End CodecFacts.


(** ** [WalkDir] calls its callback on the traversal list *)

Module WalkFacts.

Import GoStrings Filepath Traversal.

(** Induction on a tree: a directory has the property when everything in
    it has. *)
Lemma node_ind (P : node -> Prop) :
  (forall content, P (File content)) ->
  (forall readErr entries,
      Forall (fun e => P (snd e)) entries -> P (Dir readErr entries)) ->
  forall n, P n.
Proof.
  intros P_file P_dir.
  exact (fix node_ind (n : node) : P n :=
           match n with
           | File content => P_file content
           | Dir readErr entries =>
               P_dir readErr entries
                     ((fix all (l : list (string * node))
                         : Forall (fun e => P (snd e)) l :=
                         match l with
                         | [] => @Forall_nil _ _
                         | e :: l' =>
                             @Forall_cons _ _ e l' (node_ind (snd e)) (all l')
                         end) entries)
           end).
Qed.

Section Walk.

Context {St : Type}.
Variable Join : string -> string -> string.
Variable skip : string -> bool.
Variable fn : @WalkDirFunc St.

Lemma runEvents_err (evs : list (string * walkArg)) (s : St) :
  snd (runEvents fn evs s) = None \/ snd (runEvents fn evs s) = Some SkipAll.
Proof.
  revert s. induction evs as [|[p a] evs IH]; intros s; simpl; [now left|].
  destruct (fn p a s) as [s' [[| |msg]|]]; simpl; auto.
Qed.

Lemma runEvents_app (evs1 evs2 : list (string * walkArg)) (s : St) :
  runEvents fn (evs1 ++ evs2) s =
  match runEvents fn evs1 s with
  | (s', Some e) => (s', Some e)
  | (s', None) => runEvents fn evs2 s'
  end.
Proof.
  revert s. induction evs1 as [|[p a] evs1 IH]; intros s; simpl; [reflexivity|].
  destruct (fn p a s) as [s' [[| |msg]|]]; simpl; auto.
Qed.

Hypothesis fn_obeys : obeys skip fn.

Lemma walkDir_events (n : node) :
  forall path name s,
    walkDir Join fn path name n s =
    runEvents fn (walkEvents Join skip path name n) s.
Proof.
  destruct fn_obeys as (Hdir & Hfile & Herr).
  induction n as [content | readErr entries IH] using node_ind;
    intros path name s.
  - simpl.
    pose proof (Hfile path (mkDirEntry name (File content)) s eq_refl) as H.
    destruct (fn path (Entry (mkDirEntry name (File content))) s)
      as [s' e]; simpl in H.
    destruct H as [-> | ->]; reflexivity.
  - cbn [walkDir walkEvents runEvents].
    pose proof (Hdir path (mkDirEntry name (Dir readErr entries)) s eq_refl)
      as H.
    destruct (fn path (Entry (mkDirEntry name (Dir readErr entries))) s)
      as [s1 e]; simpl in H. subst e.
    destruct (skip name); [reflexivity|].
    rewrite runEvents_app.
    assert (Hre :
      match readErr with
      | Some re =>
          fn path (EntryErr (Some (mkDirEntry name (Dir readErr entries))) re) s1
      | None => (s1, None)
      end =
      runEvents fn
        match readErr with
        | Some re =>
            [(path, EntryErr (Some (mkDirEntry name (Dir readErr entries))) re)]
        | None => []
        end s1).
    { destruct readErr as [re|]; [|reflexivity]. simpl.
      pose proof (Herr path (Some (mkDirEntry name (Dir (Some re) entries)))
                       re s1) as H.
      destruct (fn path _ s1) as [s2 e]; simpl in H. now subst e. }
    rewrite Hre. clear Hre.
    destruct (runEvents fn
                match readErr with
                | Some re => [(path, EntryErr _ re)]
                | None => []
                end s1) as [s2 e2] eqn:H2.
    assert (He2 : e2 = None).
    { destruct readErr as [re|]; simpl in H2.
      - pose proof (Herr path (Some (mkDirEntry name (Dir (Some re) entries)))
                         re s1) as H.
        destruct (fn path _ s1) as [s2' e]; simpl in H. subst e.
        now injection H2 as _ <-.
      - now injection H2 as _ <-. }
    subst e2. clear H2. revert s2.
    induction IH as [|[name1 n1] dirs Hn1 _ IHdirs]; intros s2;
      [reflexivity|].
    simpl in Hn1. rewrite Hn1, runEvents_app.
    pose proof (runEvents_err (walkEvents Join skip (Join path name1) name1 n1)
                              s2) as Herr1.
    destruct (runEvents fn (walkEvents Join skip (Join path name1) name1 n1) s2)
      as [s' e1]; simpl in Herr1.
    destruct Herr1 as [-> | ->]; [apply IHdirs | reflexivity].
Qed.

(** [WalkDir] never returns an error to such a callback's caller, and
    leaves the state that the calls of the traversal list produce. *)
Lemma WalkDir_events (fs : FileSystem) (root : string) (s : St) :
  WalkDir Join fn fs root s =
  (fst (runEvents fn (rootEvents Join skip fs root) s), None).
Proof.
  unfold WalkDir, rootEvents.
  destruct (os_Lstat fs root) as [d|e].
  - rewrite walkDir_events.
    pose proof (runEvents_err (walkEvents Join skip root (Name d) (entryNode d))
                              s) as H.
    destruct (runEvents fn _ s) as [s' e]; simpl in *.
    destruct H as [-> | ->]; reflexivity.
  - destruct fn_obeys as (_ & _ & Herr). simpl.
    pose proof (Herr root None e s) as H.
    destruct (fn root (EntryErr None e) s) as [s' e']; simpl in H.
    now subst e'.
Qed.

End Walk.

End WalkFacts.

(** ** The bulk scan, file by file *)

Module ScanFacts.

Import GoStrings Filepath Traversal Trace WalkFacts.

Section Scan.

Variable yaml_Unmarshal : string -> Identity -> Identity * option error.
Variable Join : string -> string -> string.

Context {U : Type}.
Variable onFound : option (LocatedIdentity -> U -> U).
Variable onProgress : option (ScanProgress -> U -> U).

Local Abbreviation scanVisit :=
  (Registry.scanVisit yaml_Unmarshal onFound onProgress).
Local Abbreviation decodeHolon := (decodeHolon yaml_Unmarshal).

Lemma scanVisit_obeys (progressEvery : Z) :
  obeys hiddenDir (scanVisit progressEvery).
Proof.
  split; [|split].
  - intros p d s Hd. unfold Registry.scanVisit, hiddenDir. rewrite Hd.
    destruct (negb (Name d =? ".") && negb (Name d =? ".holon") &&
              HasPrefix (Name d) "."); reflexivity.
  - intros p d s Hd. left. unfold Registry.scanVisit. rewrite Hd.
    destruct (negb (Name d =? "HOLON.md")); [reflexivity|].
    destruct (os_ReadFile d); [|reflexivity].
    destruct (Registry.ParseFrontmatter yaml_Unmarshal s0) as [[id body] [e|]];
      reflexivity.
  - reflexivity.
Qed.

(** A directory or an error leaves the state of the scan as it is. *)
Lemma scanVisit_dir (progressEvery : Z) (p : string) (d : DirEntry)
      (s : Registry.scanState) :
  IsDir d = true -> fst (scanVisit progressEvery p (Entry d) s) = s.
Proof.
  intros Hd. unfold Registry.scanVisit. rewrite Hd.
  destruct (negb (Name d =? ".") && negb (Name d =? ".holon") &&
            HasPrefix (Name d) "."); reflexivity.
Qed.

(** One file: count it, report when due, decode it, emit the record. *)
Lemma scanVisit_file (progressEvery : Z) (p : string) (d : DirEntry)
      (i k : Z) (u : U) :
  IsDir d = false ->
  fst (scanVisit progressEvery p (Entry d) (Registry.mkScan i k u)) =
  let u1 := if reportDue progressEvery (i + 1)
            then callback onProgress (mkProgress (i + 1) k) u else u in
  match decodeHolon d with
  | Some id =>
      Registry.mkScan (i + 1) (k + 1) (callback onFound (mkLocated id p) u1)
  | None => Registry.mkScan (i + 1) k u1
  end.
Proof.
  intros Hd. unfold Registry.scanVisit, Trace.decodeHolon, reportDue.
  rewrite Hd. unfold Registry.reportProgress. cbn [Registry.scanned
    Registry.found Registry.user orb].
  set (due := ((0 <? progressEvery)%Z && (0 <? i + 1)%Z &&
               (Z.rem (i + 1) progressEvery =? 0)%Z)).
  destruct onProgress as [g|], due; cbn [callback Registry.scanned
    Registry.found Registry.user];
    (destruct (Name d =? "HOLON.md"); cbn [negb]; [|reflexivity];
     destruct (os_ReadFile d) as [data|]; [|reflexivity];
     destruct (Registry.ParseFrontmatter yaml_Unmarshal data)
       as [[id body] [e|]]; [reflexivity|];
     destruct onFound as [f|]; reflexivity).
Qed.

(** The state of the scan after the calls [evs] is the state after the
    files among them. *)
Lemma runEvents_scan (progressEvery : Z) (evs : list (string * walkArg)) :
  forall i k u,
    fst (runEvents (scanVisit progressEvery) evs (Registry.mkScan i k u)) =
    Registry.mkScan
      (i + Z.of_nat (List.length (fileEntries evs)))
      (k + Z.of_nat (List.length (holonsIn yaml_Unmarshal (fileEntries evs))))
      (fold_left (replay onFound onProgress)
                 (fileTrace yaml_Unmarshal progressEvery i k (fileEntries evs))
                 u).
Proof.
  induction evs as [|[p a] evs IH]; intros i k u.
  - simpl. now rewrite !Z.add_0_r.
  - cbn [runEvents fileEntries].
    destruct a as [d|d e].
    + destruct (IsDir d) eqn:Hd.
      * pose proof (scanVisit_dir progressEvery p d (Registry.mkScan i k u) Hd)
          as Hs.
        destruct (scanVisit_obeys progressEvery) as (Hdir & _ & _).
        pose proof (Hdir p d (Registry.mkScan i k u) Hd) as He.
        destruct (scanVisit progressEvery p (Entry d) (Registry.mkScan i k u))
          as [s' e]. simpl in Hs, He. subst s' e.
        destruct (hiddenDir (Name d)); apply IH.
      * pose proof (scanVisit_file progressEvery p d i k u Hd) as Hs.
        destruct (scanVisit_obeys progressEvery) as (_ & Hfile & _).
        assert (He : snd (scanVisit progressEvery p (Entry d)
                                    (Registry.mkScan i k u)) = None).
        { unfold Registry.scanVisit. rewrite Hd.
          destruct (negb (Name d =? "HOLON.md")); [reflexivity|].
          destruct (os_ReadFile d); [|reflexivity].
          destruct (Registry.ParseFrontmatter yaml_Unmarshal s)
            as [[id body] [e|]]; reflexivity. }
        destruct (scanVisit progressEvery p (Entry d) (Registry.mkScan i k u))
          as [s' e]. simpl in Hs, He. subst s' e.
        cbn [holonsIn fileTrace List.length].
        destruct (decodeHolon d) as [id|]; cbn zeta; rewrite IH;
          cbn [List.length]; rewrite fold_left_app;
          destruct (reportDue progressEvery (i + 1)); cbn [fold_left replay];
          f_equal; lia.
    + simpl. apply IH.
Qed.

End Scan.

End ScanFacts.

(** ** The bulk scan as a whole *)

Module ScanTheory.

Import GoStrings Filepath Traversal Trace WalkFacts ScanFacts.

Lemma foundOf_app (a b : list scanEvent) :
  foundOf (a ++ b) = (foundOf a ++ foundOf b)%list.
Proof.
  induction a as [|[h|p] a IH]; simpl; [reflexivity| |exact IH].
  now rewrite IH.
Qed.

Lemma progressOf_app (a b : list scanEvent) :
  progressOf (a ++ b) = (progressOf a ++ progressOf b)%list.
Proof.
  induction a as [|[h|p] a IH]; simpl; [reflexivity|exact IH|].
  now rewrite IH.
Qed.

Lemma replay_record (t u : list scanEvent) :
  fold_left (replay recordFound recordProgress) t u = (u ++ t)%list.
Proof.
  revert u. induction t as [|e t IH]; intros u; simpl.
  - now rewrite app_nil_r.
  - rewrite IH. destruct e; simpl; now rewrite <- app_assoc.
Qed.

Lemma replay_collect (t : list scanEvent) (u : list LocatedIdentity) :
  fold_left (replay (Some (fun h holons => (holons ++ [h])%list)) None) t u
  = (u ++ foundOf t)%list.
Proof.
  revert u. induction t as [|e t IH]; intros u; simpl.
  - now rewrite app_nil_r.
  - rewrite IH. destruct e; simpl; [now rewrite <- app_assoc | reflexivity].
Qed.

Section Scan.

Variable yaml_Unmarshal : string -> Identity -> Identity * option error.
Variable Join : string -> string -> string.

Local Abbreviation visibleFiles := (visibleFiles Join).
Local Abbreviation holonsIn := (holonsIn yaml_Unmarshal).
Local Abbreviation fileTrace := (fileTrace yaml_Unmarshal).
Local Abbreviation wholeTrace := (wholeTrace yaml_Unmarshal Join).

(** Whatever the callbacks are, a scan returns no error and leaves the
    state that replaying [wholeTrace] on them produces. *)
Lemma ScanAllWithPaths_replay {U : Type}
      (onFound : option (LocatedIdentity -> U -> U))
      (onProgress : option (ScanProgress -> U -> U))
      (fs : FileSystem) (root : string) (progressEvery : Z) (u : U) :
  Registry.ScanAllWithPaths yaml_Unmarshal Join onFound onProgress
                            fs root progressEvery u =
  (fold_left (replay onFound onProgress) (wholeTrace fs root progressEvery) u,
   None).
Proof.
  unfold Registry.ScanAllWithPaths, Trace.wholeTrace.
  fold (clamp progressEvery).
  rewrite (WalkDir_events Join hiddenDir _ (scanVisit_obeys _ _ _ _)).
  pose proof (runEvents_scan yaml_Unmarshal onFound onProgress
                             (clamp progressEvery)
                             (rootEvents Join hiddenDir fs root) 0 0 u) as H.
  cbn [fst] in *. rewrite H. clear H.
  rewrite fold_left_app. cbn [fold_left replay].
  unfold Trace.visibleFiles, filesUnder, Registry.reportProgress.
  cbn [Registry.scanned Registry.found Registry.user orb].
  rewrite !Z.add_0_l.
  destruct onProgress as [g|]; reflexivity.
Qed.

Lemma scanTrace_whole (fs : FileSystem) (root : string) (progressEvery : Z) :
  scanTrace yaml_Unmarshal Join fs root progressEvery =
  wholeTrace fs root progressEvery.
Proof.
  unfold scanTrace. rewrite ScanAllWithPaths_replay. cbn [fst].
  apply replay_record.
Qed.

Lemma foundOf_fileTrace (progressEvery : Z) (files : list (string * DirEntry)) :
  forall i k, foundOf (fileTrace progressEvery i k files) = holonsIn files.
Proof.
  induction files as [|[p d] files IH]; intros i k; [reflexivity|].
  cbn [Trace.fileTrace Trace.holonsIn]. rewrite foundOf_app.
  replace (foundOf (if reportDue progressEvery (i + 1)
                    then [Progress (mkProgress (i + 1) k)] else []))
    with (@nil LocatedIdentity) by (destruct (reportDue _ _); reflexivity).
  destruct (decodeHolon yaml_Unmarshal d); simpl; now rewrite IH.
Qed.

Lemma foundOf_wholeTrace (fs : FileSystem) (root : string) (progressEvery : Z) :
  foundOf (wholeTrace fs root progressEvery) = holonsIn (visibleFiles fs root).
Proof.
  unfold Trace.wholeTrace. rewrite foundOf_app, foundOf_fileTrace. simpl.
  apply app_nil_r.
Qed.

(** [FindAllWithPaths] returns the valid records among the visible files,
    in traversal order, and no error. *)
Lemma FindAllWithPaths_holons (fs : FileSystem) (root : string) :
  Registry.FindAllWithPaths yaml_Unmarshal Join fs root =
  (holonsIn (visibleFiles fs root), None).
Proof.
  unfold Registry.FindAllWithPaths. rewrite ScanAllWithPaths_replay.
  now rewrite replay_collect, foundOf_wholeTrace.
Qed.

End Scan.

End ScanTheory.

(** ** Progress reports *)

Module ProgressFacts.

Import GoStrings Filepath Traversal Trace ScanTheory.

Lemma reportDue_clamp (progressEvery i : Z) :
  reportDue (clamp progressEvery) i = positiveMultiple progressEvery i.
Proof.
  unfold reportDue, positiveMultiple, clamp.
  destruct (Z.ltb_spec progressEvery 0) as [Hneg|Hpos].
  - rewrite (proj2 (Z.ltb_ge 0 progressEvery)) by lia. reflexivity.
  - destruct (Z.ltb_spec 0 progressEvery) as [HN|HN]; [|reflexivity].
    destruct (Z.ltb_spec 0 i) as [Hi|Hi]; [|reflexivity].
    cbn [andb]. now rewrite Z.rem_mod_nonneg by lia.
Qed.

Lemma StronglySorted_snoc {A : Type} (R : A -> A -> Prop) (l : list A) (x : A) :
  StronglySorted R l -> Forall (fun y => R y x) l ->
  StronglySorted R (l ++ [x]).
Proof.
  induction 1 as [|a l Hl IH Ha]; intros Hx; simpl.
  - constructor; constructor.
  - inversion Hx as [|? ? Hax Hlx]; subst.
    constructor; [now apply IH|].
    apply Forall_app. split; [exact Ha | now constructor].
Qed.

Section Progress.

Variable yaml_Unmarshal : string -> Identity -> Identity * option error.

Local Abbreviation holonsIn := (holonsIn yaml_Unmarshal).
Local Abbreviation fileTrace := (fileTrace yaml_Unmarshal).

Lemma progressOf_fileTrace_cons (N i k : Z) (p : string) (d : DirEntry)
      (files : list (string * DirEntry)) :
  progressOf (fileTrace N i k ((p, d) :: files)) =
  ((if reportDue N (i + 1) then [mkProgress (i + 1) k] else []) ++
   progressOf (fileTrace N (i + 1)
                         (match decodeHolon yaml_Unmarshal d with
                          | Some _ => k + 1
                          | None => k
                          end) files))%list.
Proof.
  cbn [Trace.fileTrace]. rewrite progressOf_app. f_equal.
  - destruct (reportDue N (i + 1)); reflexivity.
  - destruct (decodeHolon yaml_Unmarshal d); reflexivity.
Qed.

(** The scanned counts of the reports made file by file. *)
Lemma scanned_fileTrace (N : Z) (files : list (string * DirEntry)) :
  forall (j : nat) (k : Z),
    map ScannedFiles (progressOf (fileTrace N (Z.of_nat j) k files)) =
    List.filter (reportDue N)
                (map Z.of_nat (seq (S j) (List.length files))).
Proof.
  induction files as [|[p d] files IH]; intros j k; [reflexivity|].
  rewrite progressOf_fileTrace_cons, map_app.
  replace (Z.of_nat j + 1)%Z with (Z.of_nat (S j)) by lia.
  rewrite IH. cbn [List.length seq map List.filter].
  destruct (reportDue N (Z.of_nat (S j))); reflexivity.
Qed.

(** The reports made file by file never decrease, and stay within the
    counts of the files and records at hand. *)
Lemma sorted_fileTrace (N : Z) (files : list (string * DirEntry)) :
  forall i k,
    StronglySorted snapshotLe (progressOf (fileTrace N i k files)) /\
    Forall (fun q =>
              (i < ScannedFiles q <= i + Z.of_nat (List.length files))%Z /\
              (k <= HolonsFound q <=
               k + Z.of_nat (List.length (holonsIn files)))%Z)
           (progressOf (fileTrace N i k files)).
Proof.
  induction files as [|[p d] files IH]; intros i k.
  - split; constructor.
  - rewrite progressOf_fileTrace_cons.
    set (k' := match decodeHolon yaml_Unmarshal d with
               | Some _ => (k + 1)%Z
               | None => k
               end).
    destruct (IH (i + 1)%Z k') as [Hs Hb].
    assert (Hk : (k <= k')%Z /\
                 (k' + Z.of_nat (List.length (holonsIn files)) =
                  k + Z.of_nat (List.length (holonsIn ((p, d) :: files))))%Z).
    { subst k'. cbn [Trace.holonsIn].
      destruct (decodeHolon yaml_Unmarshal d); cbn [List.length]; lia. }
    destruct Hk as [Hk1 Hk2].
    assert (Hb' :
      Forall (fun q =>
                (i < ScannedFiles q <=
                 i + Z.of_nat (List.length ((p, d) :: files)))%Z /\
                (k <= HolonsFound q <=
                 k + Z.of_nat (List.length (holonsIn ((p, d) :: files))))%Z)
             (progressOf (fileTrace N (i + 1) k' files))).
    { eapply Forall_impl; [|exact Hb]. cbn [List.length]. intros q. cbv beta.
      lia. }
    destruct (reportDue N (i + 1)); cbn [app]; [|now split].
    split.
    + constructor; [exact Hs|].
      eapply Forall_impl; [|exact Hb]. intros q. unfold snapshotLe. simpl. lia.
    + constructor; [|exact Hb']. cbn [ScannedFiles HolonsFound List.length].
      lia.
Qed.

(** With the interval 0 no report is made file by file. *)
Lemma fileTrace_zero (files : list (string * DirEntry)) :
  forall i k, fileTrace 0 i k files = map Found (holonsIn files).
Proof.
  induction files as [|[p d] files IH]; intros i k; [reflexivity|].
  cbn [Trace.fileTrace Trace.holonsIn].
  replace (reportDue 0 (i + 1)) with false by reflexivity.
  cbn [app]. destruct (decodeHolon yaml_Unmarshal d); cbn [map];
    now rewrite IH.
Qed.

End Progress.

End ProgressFacts.

(** C6.  Progress reporting of [ScanAllWithPaths] with interval [N], read
    off the calls the scan makes to recording callbacks.  The scanned
    counts of the reported snapshots are exactly the positive multiples of
    [N] among [1 .. n], in order, followed by [n], the number of files
    examined: one report whenever the counter is a positive multiple of
    [N], and one more after the traversal whatever [N] is.  Every
    snapshot is at most every later one in both counts.  The last snapshot
    counts as found the number of records emitted, which are the valid
    records of the examined files. *)
Theorem scan_progress_reporting :
  forall (yaml_Unmarshal : string -> Identity -> Identity * option error)
         (Join : string -> string -> string)
         (fs : FileSystem) (root : string) (N : Z),
    let t := Trace.scanTrace yaml_Unmarshal Join fs root N in
    let files := Trace.visibleFiles Join fs root in
    let n := List.length files in
    map ScannedFiles (Trace.progressOf t) =
      (List.filter (Trace.positiveMultiple N) (map Z.of_nat (seq 1 n)) ++
       [Z.of_nat n])%list
    /\ StronglySorted Trace.snapshotLe (Trace.progressOf t)
    /\ (exists earlier,
           Trace.progressOf t =
           (earlier ++
            [mkProgress (Z.of_nat n)
                        (Z.of_nat (List.length (Trace.foundOf t)))])%list)
    /\ Trace.foundOf t = Trace.holonsIn yaml_Unmarshal files.
Proof.
  intros yaml_Unmarshal Join fs root N t files n. subst t.
  rewrite ScanTheory.scanTrace_whole.
  rewrite ScanTheory.foundOf_wholeTrace.
  unfold Trace.wholeTrace. fold files. fold n.
  rewrite ScanTheory.progressOf_app. cbn [Trace.progressOf].
  destruct (ProgressFacts.sorted_fileTrace yaml_Unmarshal (Trace.clamp N)
              files 0 0) as [Hs Hb].
  repeat split.
  - rewrite map_app. cbn [map ScannedFiles]. f_equal.
    pose proof (ProgressFacts.scanned_fileTrace yaml_Unmarshal (Trace.clamp N)
                  files 0 0) as Hsc.
    change (Z.of_nat 0) with 0%Z in Hsc. rewrite Hsc.
    apply List.filter_ext. intros i. apply ProgressFacts.reportDue_clamp.
  - apply ProgressFacts.StronglySorted_snoc; [exact Hs|].
    eapply Forall_impl; [|exact Hb]. intros q. unfold Trace.snapshotLe.
    cbn [ScannedFiles HolonsFound]. fold n. lia.
  - eexists. reflexivity.
Qed.

(** C10.  A negative reporting interval behaves as the interval 0: for
    every callbacks and every state they work on, the scan with [N < 0]
    leaves the state and the error of the scan with 0; and the calls it
    makes are the records found, in traversal order, followed by one
    progress report, made after the traversal, with the final counts. *)
Theorem negative_interval_is_zero :
  forall (yaml_Unmarshal : string -> Identity -> Identity * option error)
         (Join : string -> string -> string)
         (fs : FileSystem) (root : string) (N : Z),
    (N < 0)%Z ->
    (forall (U : Type) (onFound : option (LocatedIdentity -> U -> U))
            (onProgress : option (ScanProgress -> U -> U)) (u : U),
        Registry.ScanAllWithPaths yaml_Unmarshal Join onFound onProgress
                                  fs root N u =
        Registry.ScanAllWithPaths yaml_Unmarshal Join onFound onProgress
                                  fs root 0 u)
    /\ Trace.scanTrace yaml_Unmarshal Join fs root N =
       (map Trace.Found
            (Trace.holonsIn yaml_Unmarshal (Trace.visibleFiles Join fs root)) ++
        [Trace.Progress
           (mkProgress
              (Z.of_nat (List.length (Trace.visibleFiles Join fs root)))
              (Z.of_nat (List.length
                           (Trace.holonsIn yaml_Unmarshal
                              (Trace.visibleFiles Join fs root)))))])%list.
Proof.
  intros yaml_Unmarshal Join fs root N HN. split.
  - intros U onFound onProgress u. unfold Registry.ScanAllWithPaths.
    rewrite (proj2 (Z.ltb_lt N 0) HN). reflexivity.
  - rewrite ScanTheory.scanTrace_whole. unfold Trace.wholeTrace. f_equal.
    unfold Trace.clamp. rewrite (proj2 (Z.ltb_lt N 0) HN).
    apply ProgressFacts.fileTrace_zero.
Qed.

Lemma negative_interval_is_zero_witness :
  (-1 < 0)%Z /\
  Trace.scanTrace Yaml.Unmarshal Fixtures.joinSlash Fixtures.testFS
                  Fixtures.testRoot (-1) =
  (map Trace.Found
       (Trace.holonsIn Yaml.Unmarshal
          (Trace.visibleFiles Fixtures.joinSlash Fixtures.testFS
                              Fixtures.testRoot)) ++
   [Trace.Progress
      (mkProgress
         (Z.of_nat (List.length
                      (Trace.visibleFiles Fixtures.joinSlash Fixtures.testFS
                                          Fixtures.testRoot)))
         (Z.of_nat (List.length
                      (Trace.holonsIn Yaml.Unmarshal
                         (Trace.visibleFiles Fixtures.joinSlash
                                             Fixtures.testFS
                                             Fixtures.testRoot)))))])%list.
Proof.
  split; [lia|].
  apply (negative_interval_is_zero Yaml.Unmarshal Fixtures.joinSlash
           Fixtures.testFS Fixtures.testRoot (-1)).
  lia.
Defined.

(** C2, evaluated.  On a root that does not exist a scan returns no
    error: [FindAll] returns the empty list with a [nil] error, and
    [ScanAllWithPaths] calls the progress callback once, with both counts
    0, and returns [nil]. *)
Theorem scan_of_missing_root_returns_no_error :
  Fixtures.testFS Fixtures.missingRoot =
    inr (errorString
           "lstat /nonexistent/path/that/does/not/exist: no such file or directory")
  /\ Registry.FindAll Yaml.Unmarshal Fixtures.joinSlash Fixtures.testFS
                      Fixtures.missingRoot = ([], None)
  /\ Registry.ScanAllWithPaths Yaml.Unmarshal Fixtures.joinSlash
       Trace.recordFound Trace.recordProgress
       Fixtures.testFS Fixtures.missingRoot 1 [] =
     ([Trace.Progress (mkProgress 0 0)], None).
Proof. repeat split; vm_compute; reflexivity. Qed.

(** No root and no tree make [ScanAllWithPaths] return an error: the
    callback answers [nil] to every error that [WalkDir] hands it, the
    error of [os.Lstat] on the root included. *)
Lemma ScanAllWithPaths_never_fails
      (yaml_Unmarshal : string -> Identity -> Identity * option error)
      (Join : string -> string -> string) {U : Type}
      (onFound : option (LocatedIdentity -> U -> U))
      (onProgress : option (ScanProgress -> U -> U))
      (fs : FileSystem) (root : string) (N : Z) (u : U) :
  snd (Registry.ScanAllWithPaths yaml_Unmarshal Join onFound onProgress
                                 fs root N u) = None.
Proof. now rewrite ScanTheory.ScanAllWithPaths_replay. Qed.

(** ** The resolver *)

Module FindFacts.

Import GoStrings Filepath Traversal Trace WalkFacts.

Lemma traced_obeys {St : Type} (skip : string -> bool) (fn : @WalkDirFunc St) :
  obeys skip fn -> obeys skip (traced fn).
Proof.
  intros (Hdir & Hfile & Herr). split; [|split].
  - intros p d [s l] Hd. specialize (Hdir p d s Hd). unfold traced. simpl.
    destruct (fn p (Entry d) s). exact Hdir.
  - intros p d [s l] Hd. specialize (Hfile p d s Hd). unfold traced. simpl.
    destruct (fn p (Entry d) s). exact Hfile.
  - intros p d e [s l]. specialize (Herr p d e s). unfold traced. simpl.
    destruct (fn p (EntryErr d e) s). exact Herr.
Qed.

Lemma find_first {A : Type} (f : A -> bool) (before : list A) (x : A)
      (after : list A) :
  Forall (fun y => f y = false) before -> f x = true ->
  List.find f (before ++ x :: after) = Some x.
Proof.
  induction 1 as [|y before Hy _ IH]; intros Hx; simpl.
  - now rewrite Hx.
  - rewrite Hy. now apply IH.
Qed.

Lemma find_none {A : Type} (f : A -> bool) (l : list A) :
  Forall (fun y => f y = false) l -> List.find f l = None.
Proof.
  induction 1 as [|y l Hy _ IH]; simpl; [reflexivity|]. now rewrite Hy.
Qed.

Lemma fileEntries_app (a b : list (string * walkArg)) :
  fileEntries (a ++ b) = (fileEntries a ++ fileEntries b)%list.
Proof.
  induction a as [|[p [d|d e]] a IH]; simpl; [reflexivity| |exact IH].
  destruct (IsDir d); simpl; now rewrite IH.
Qed.

Section Find.

Variable yaml_Unmarshal : string -> Identity -> Identity * option error.
Variable Join : string -> string -> string.

Local Abbreviation findVisit := (Registry.findVisit yaml_Unmarshal).
Local Abbreviation decodeHolon := (decodeHolon yaml_Unmarshal).
Local Abbreviation holonsIn := (holonsIn yaml_Unmarshal).

Lemma findVisit_dir (target p : string) (d : DirEntry) (found : string) :
  IsDir d = true -> findVisit target p (Entry d) found = (found, None).
Proof. intros Hd. unfold Registry.findVisit. now rewrite Hd. Qed.

(** One file: decode it and test its identifier. *)
Lemma findVisit_file (target p : string) (d : DirEntry) (found : string) :
  IsDir d = false ->
  findVisit target p (Entry d) found =
  match decodeHolon d with
  | Some id =>
      if matchesUUID target (mkLocated id p) then (p, Some SkipAll)
      else (found, None)
  | None => (found, None)
  end.
Proof.
  intros Hd. unfold Registry.findVisit, Trace.decodeHolon, matchesUUID.
  rewrite Hd. cbn [orb Identity_].
  destruct (Name d =? "HOLON.md"); cbn [negb]; [|reflexivity].
  destruct (os_ReadFile d) as [data|]; [|reflexivity].
  destruct (Registry.ParseFrontmatter yaml_Unmarshal data)
    as [[id body] [e|]]; reflexivity.
Qed.

Lemma findVisit_obeys (target : string) : obeys noDir (findVisit target).
Proof.
  split; [|split].
  - intros p d s Hd. now rewrite findVisit_dir.
  - intros p d s Hd. rewrite findVisit_file by exact Hd.
    destruct (decodeHolon d) as [id|]; [|now left].
    destruct (matchesUUID target (mkLocated id p)); [now right | now left].
  - reflexivity.
Qed.

(** The walk of [FindByUUID] ends on the first record that passes the
    test, with its path. *)
Lemma runEvents_find (target : string) (evs : list (string * walkArg)) :
  forall found,
    runEvents (findVisit target) evs found =
    match List.find (matchesUUID target) (holonsIn (fileEntries evs)) with
    | Some h => (Path h, Some SkipAll)
    | None => (found, None)
    end.
Proof.
  induction evs as [|[p [d|d e]] evs IH]; intros found; [reflexivity| |].
  - cbn [runEvents fileEntries]. destruct (IsDir d) eqn:Hd.
    + rewrite findVisit_dir by exact Hd. apply IH.
    + rewrite findVisit_file by exact Hd. cbn [Trace.holonsIn].
      destruct (decodeHolon d) as [id|]; [|apply IH].
      cbn [List.find].
      destruct (matchesUUID target (mkLocated id p)); [reflexivity | apply IH].
  - cbn [runEvents fileEntries]. apply IH.
Qed.

(** The calls of that walk: every call up to the one on the first record
    that passes the test, and none after it. *)
Lemma runEvents_traced_find (target : string)
      (evs : list (string * walkArg)) :
  forall found log,
    match List.find (matchesUUID target) (holonsIn (fileEntries evs)) with
    | Some h =>
        exists evs1 a evs2,
          evs = (evs1 ++ (Path h, a) :: evs2)%list /\
          runEvents (traced (findVisit target)) evs (found, log) =
          ((Path h, (log ++ map fst evs1 ++ [Path h])%list), Some SkipAll)
    | None =>
        runEvents (traced (findVisit target)) evs (found, log) =
        ((found, (log ++ map fst evs)%list), None)
    end.
Proof.
  induction evs as [|[p a] evs IH]; intros found log.
  - simpl. now rewrite app_nil_r.
  - assert (Hskip :
      findVisit target p a found = (found, None) ->
      match List.find (matchesUUID target) (holonsIn (fileEntries evs)) with
      | Some h =>
          exists evs1 a' evs2,
            (p, a) :: evs = (evs1 ++ (Path h, a') :: evs2)%list /\
            runEvents (traced (findVisit target)) ((p, a) :: evs) (found, log) =
            ((Path h, (log ++ map fst evs1 ++ [Path h])%list), Some SkipAll)
      | None =>
          runEvents (traced (findVisit target)) ((p, a) :: evs) (found, log) =
          ((found, (log ++ map fst ((p, a) :: evs))%list), None)
      end).
    { intros Hv. specialize (IH found (log ++ [p])%list).
      destruct (List.find (matchesUUID target) (holonsIn (fileEntries evs)))
        as [h|].
      - destruct IH as (evs1 & a' & evs2 & -> & Hrun).
        exists ((p, a) :: evs1), a', evs2. split; [reflexivity|].
        cbn [runEvents]. unfold traced at 1. cbn [fst snd]. rewrite Hv, Hrun.
        cbn [map fst]. now rewrite <- !app_assoc.
      - cbn [runEvents]. unfold traced at 1. cbn [fst snd]. rewrite Hv, IH.
        cbn [map fst]. now rewrite <- !app_assoc. }
    destruct a as [d|d e]; [|apply Hskip; reflexivity].
    cbn [fileEntries]. destruct (IsDir d) eqn:Hd;
      [apply Hskip; now apply findVisit_dir|].
    cbn [Trace.holonsIn]. pose proof (findVisit_file target p d found Hd) as Hv.
    destruct (decodeHolon d) as [id|]; [|apply Hskip; exact Hv].
    cbn [List.find].
    destruct (matchesUUID target (mkLocated id p)); [|apply Hskip; exact Hv].
    exists [], (Entry d), evs. split; [reflexivity|].
    cbn [runEvents]. unfold traced at 1. cbn [fst snd Path]. rewrite Hv.
    reflexivity.
Qed.

(** Every path that a walk from a non-empty root hands to the callback is
    non-empty, when [filepath.Join] never returns the empty path. *)
Lemma walkEvents_paths (skip : string -> bool) (n : node) :
  (forall p name, Join p name <> "") ->
  forall path name,
    path <> "" ->
    Forall (fun ev => fst ev <> "") (walkEvents Join skip path name n).
Proof.
  intros HJ.
  induction n as [content | readErr entries IH] using node_ind;
    intros path name Hp.
  - constructor; [exact Hp | constructor].
  - cbn [walkEvents]. constructor; [exact Hp|].
    destruct (skip name); [constructor|].
    apply Forall_app. split.
    + destruct readErr; constructor; [exact Hp | constructor].
    + induction IH as [|[name1 n1] dirs Hn1 _ IHdirs]; [constructor|].
      apply Forall_app. split; [|exact IHdirs].
      apply Hn1, HJ.
Qed.

Lemma holonsIn_paths (evs : list (string * walkArg)) :
  Forall (fun ev => fst ev <> "") evs ->
  Forall (fun h => Path h <> "") (holonsIn (fileEntries evs)).
Proof.
  induction 1 as [|[p [d|d e]] evs Hp _ IH]; simpl; [constructor| |exact IH].
  destruct (IsDir d); [exact IH|]. cbn [Trace.holonsIn].
  destruct (decodeHolon d); [|exact IH]. constructor; [exact Hp | exact IH].
Qed.

(** [FindByUUID] returns the path of the first record in traversal order
    that passes the test, and the not-found error when there is none. *)
Lemma FindByUUID_find (fs : FileSystem) (root target : string) :
  root <> "" -> (forall p name, Join p name <> "") ->
  Registry.FindByUUID yaml_Unmarshal Join fs root target =
  match List.find (matchesUUID target) (holonsIn (allFiles Join fs root)) with
  | Some h => (Path h, None)
  | None => ("", Some (errorString ("holon not found: " ++ target)))
  end.
Proof.
  intros Hroot HJ. unfold Registry.FindByUUID.
  rewrite (WalkDir_events Join noDir _ (findVisit_obeys target)).
  rewrite runEvents_find. unfold allFiles, filesUnder.
  assert (Hpaths : Forall (fun h => Path h <> "")
                          (holonsIn (fileEntries (rootEvents Join noDir fs root)))).
  { apply holonsIn_paths. unfold rootEvents.
    destruct (os_Lstat fs root) as [d|e].
    - now apply walkEvents_paths.
    - constructor; [exact Hroot | constructor]. }
  destruct (List.find (matchesUUID target)
              (holonsIn (fileEntries (rootEvents Join noDir fs root))))
    as [h|] eqn:Hf; cbn [fst]; [|reflexivity].
  apply List.find_some in Hf as [Hin _].
  rewrite Forall_forall in Hpaths. specialize (Hpaths h Hin).
  destruct (String.eqb_spec (Path h) ""); [contradiction | reflexivity].
Qed.

(** The files of a traversal are the non-directories located below the
    root through directories that the rule does not refuse. *)
Lemma fileEntries_locates (skip : string -> bool) (n : node) :
  forall path name p d,
    In (p, d) (fileEntries (walkEvents Join skip path name n)) <->
    exists dirs, locates Join path name n dirs p d /\
                 Forall (fun nm => skip nm = false) dirs.
Proof.
  induction n as [content | readErr entries IH] using node_ind;
    intros path name p d.
  - simpl. split.
    + intros [E|[]]. injection E as <- <-. exists []. split; constructor.
    + intros (dirs & Hl & _). inversion Hl; subst. now left.
  - cbn [walkEvents fileEntries IsDir entryNode].
    destruct (skip name) eqn:Hs.
    + simpl. split; [intros []|].
      intros (dirs & Hl & Hf). inversion Hl; subst.
      inversion Hf; subst. congruence.
    + rewrite fileEntries_app.
      replace (fileEntries
                 match readErr with
                 | Some re =>
                     [(path, EntryErr (Some (mkDirEntry name (Dir readErr entries))) re)]
                 | None => []
                 end) with (@nil (string * DirEntry))
        by (destruct readErr; reflexivity).
      cbn [app].
      assert (Hbelow :
        In (p, d)
           (fileEntries
              ((fix below (dirs : list (string * node)) :=
                  match dirs with
                  | [] => []
                  | (name1, n1) :: dirs' =>
                      (walkEvents Join skip (Join path name1) name1 n1 ++
                       below dirs')%list
                  end) entries)) <->
        exists name1 n1 dirs,
          In (name1, n1) entries /\
          locates Join (Join path name1) name1 n1 dirs p d /\
          Forall (fun nm => skip nm = false) dirs).
      { clear Hs. induction IH as [|[name1 n1] rest Hn1 _ IHrest].
        - simpl. split; [intros [] | intros (? & ? & ? & [] & _)].
        - rewrite fileEntries_app, in_app_iff, IHrest. simpl in Hn1.
          rewrite Hn1. split.
          + intros [(dirs & Hl & Hf) | (nm & m & dirs & Hin & Hl & Hf)].
            * exists name1, n1, dirs. repeat split; [now left | exact Hl | exact Hf].
            * exists nm, m, dirs. repeat split; [now right | exact Hl | exact Hf].
          + intros (nm & m & dirs & [E | Hin] & Hl & Hf).
            * injection E as <- <-. left. now exists dirs.
            * right. now exists nm, m, dirs. }
      rewrite Hbelow. split.
      * intros (name1 & n1 & dirs & Hin & Hl & Hf).
        exists (name :: dirs). split; [econstructor; eassumption|].
        constructor; assumption.
      * intros (dirs & Hl & Hf). inversion Hl; subst.
        inversion Hf; subst. eauto 8.
Qed.

Lemma filesUnder_locates (skip : string -> bool) (fs : FileSystem)
      (root p : string) (d : DirEntry) :
  In (p, d) (filesUnder Join skip fs root) <->
  exists d0 dirs,
    fs root = inl d0 /\
    locates Join root (Name d0) (entryNode d0) dirs p d /\
    Forall (fun nm => skip nm = false) dirs.
Proof.
  unfold filesUnder, rootEvents, os_Lstat.
  destruct (fs root) as [d0|e].
  - rewrite fileEntries_locates. split.
    + intros (dirs & Hl & Hf). now exists d0, dirs.
    + intros (d0' & dirs & E & Hl & Hf). injection E as <-. now exists dirs.
  - simpl. split; [intros [] | intros (? & ? & ? & _); discriminate].
Qed.

Lemma holonsIn_In (files : list (string * DirEntry)) (h : LocatedIdentity) :
  In h (holonsIn files) <->
  exists d, In (Path h, d) files /\ decodeHolon d = Some (Identity_ h).
Proof.
  induction files as [|[p d] files IH]; simpl.
  - split; [intros [] | intros (? & [] & _)].
  - destruct (decodeHolon d) as [id|] eqn:Hd.
    + simpl. rewrite IH. split.
      * intros [<- | (d' & Hin & Hd')]; [exists d; split; [now left | exact Hd]|].
        exists d'. split; [now right | exact Hd'].
      * intros (d' & [E | Hin] & Hd').
        -- injection E as -> ->. left. destruct h as [id' p']. simpl in *.
           congruence.
        -- right. now exists d'.
    + rewrite IH. split.
      * intros (d' & Hin & Hd'). exists d'. split; [now right | exact Hd'].
      * intros (d' & [E | Hin] & Hd'); [|now exists d'].
        injection E as -> ->. congruence.
Qed.

End Find.

End FindFacts.






(** The tree of the tests: the record under [.secret] is not listed, and
    is resolved. *)
Example hidden_record_of_the_tests :
  map (fun h => UUID (Identity_ h))
      (fst (Registry.FindAllWithPaths Yaml.Unmarshal Fixtures.joinSlash
                                      Fixtures.testFS Fixtures.testRoot))
  = ["aaaa-1111"; "bbbb-2222"]
  /\ Registry.FindByUUID Yaml.Unmarshal Fixtures.joinSlash Fixtures.testFS
                         Fixtures.testRoot "hidden-uuid"
     = ("/tmp/root/.secret/HOLON.md", None).
Proof. split; vm_compute; reflexivity. Qed.

(** ** The aggregated listing *)

Module ListFacts.

Import GoStrings Trace Aggregate Cli.

Lemma printedRows_app (a b : list output) :
  printedRows (a ++ b) = (printedRows a ++ printedRows b)%list.
Proof.
  induction a as [|o a IH]; simpl; [reflexivity|].
  destruct o; simpl; now rewrite IH.
Qed.

Lemma seenKey_In (seen : list string) (k : string) :
  seenKey seen k = true <-> In k seen.
Proof.
  unfold seenKey. rewrite existsb_exists. split.
  - intros (x & Hin & E). apply String.eqb_eq in E. now subst.
  - intros Hin. exists k. split; [exact Hin | apply String.eqb_refl].
Qed.

Lemma keepFirst_app (seen : list string) (a b : list LocatedIdentity) :
  keepFirst seen (a ++ b) =
  (keepFirst seen a ++ keepFirst (seenAfter seen a) b)%list.
Proof.
  revert seen. induction a as [|h a IH]; intros seen; simpl; [reflexivity|].
  destruct (seenKey seen (dedupKey h)); simpl; now rewrite IH.
Qed.

(** The keys seen afterwards are the old ones and those of the records. *)
Lemma seenAfter_In (hs : list LocatedIdentity) :
  forall seen k,
    In k (seenAfter seen hs) <-> In k seen \/ In k (map dedupKey hs).
Proof.
  induction hs as [|h hs IH]; intros seen k; simpl; [tauto|].
  destruct (seenKey seen (dedupKey h)) eqn:Hs; rewrite IH.
  - apply seenKey_In in Hs. split; [tauto|].
    intros [H | [<- | H]]; tauto.
  - simpl. tauto.
Qed.

(** No key is kept twice, and none that was seen before. *)
Lemma keepFirst_NoDup (hs : list LocatedIdentity) :
  forall seen,
    NoDup (map dedupKey (keepFirst seen hs)) /\
    (forall k, In k (map dedupKey (keepFirst seen hs)) -> ~ In k seen).
Proof.
  induction hs as [|h hs IH]; intros seen; simpl.
  - split; [constructor | intros k []].
  - destruct (seenKey seen (dedupKey h)) eqn:Hs; [apply IH|].
    destruct (IH (dedupKey h :: seen)) as [Hnd Hnot]. simpl. split.
    + constructor; [|exact Hnd]. intros Hin. apply (Hnot _ Hin). now left.
    + intros k [<- | Hin].
      * intros Hin. apply seenKey_In in Hin. congruence.
      * intros Hk. apply (Hnot _ Hin). now right.
Qed.

(** Every new key is kept. *)
Lemma keepFirst_complete (hs : list LocatedIdentity) :
  forall seen h,
    In h hs -> ~ In (dedupKey h) seen ->
    In (dedupKey h) (map dedupKey (keepFirst seen hs)).
Proof.
  induction hs as [|x hs IH]; intros seen h Hin Hnot; [destruct Hin|].
  simpl. destruct (seenKey seen (dedupKey x)) eqn:Hs.
  - destruct Hin as [-> | Hin]; [|now apply IH].
    apply seenKey_In in Hs. contradiction.
  - simpl. destruct (String.eqb_spec (dedupKey x) (dedupKey h)) as [E|NE];
      [now left|].
    right. destruct Hin as [-> | Hin]; [contradiction|].
    apply IH; [exact Hin|]. intros [E|H]; contradiction.
Qed.

Section RunList.

Variable yaml_Unmarshal : string -> Identity -> Identity * option error.
Variable filepath_Join : list string -> string.
Variable filepath_Clean : string -> string.
Variable filepath_Dir : string -> string.
Variable filepath_Rel : string -> string -> string + error.
Variable os_UserHomeDir : option string.
Variable stderrIsTerminal : bool.
Variable fs : FileSystem.

Local Abbreviation relHolonDir :=
  (relHolonDir filepath_Clean filepath_Dir filepath_Rel).
Local Abbreviation clearProgressLine := (clearProgressLine stderrIsTerminal).
Local Abbreviation printProgress := (printProgress stderrIsTerminal).
Local Abbreviation printEntry := (printEntry stderrIsTerminal).
Local Abbreviation scanOnFound :=
  (scanOnFound filepath_Clean filepath_Dir filepath_Rel stderrIsTerminal).
Local Abbreviation scanOnProgress := (scanOnProgress stderrIsTerminal).

Local Abbreviation row :=
  (Aggregate.row filepath_Clean filepath_Dir filepath_Rel).

Lemma clearProgressLine_view (st : listState) :
  localSeen (clearProgressLine st) = localSeen st /\
  printedRows (out (clearProgressLine st)) = printedRows (out st).
Proof.
  unfold Cli.clearProgressLine.
  destruct (negb stderrIsTerminal || negb (progressVisible st));
    [split; reflexivity|].
  simpl. rewrite printedRows_app. simpl. now rewrite app_nil_r.
Qed.

Lemma printEntry_view (id : Identity) (origin path : string) (st : listState) :
  localSeen (printEntry id origin path st) = localSeen st /\
  printedRows (out (printEntry id origin path st)) =
  (printedRows (out st) ++ [(id, origin, path)])%list.
Proof.
  unfold Cli.printEntry.
  destruct (clearProgressLine_view st) as [Hs Ho].
  destruct (negb (printedHeader (clearProgressLine st))); simpl;
    rewrite ?printedRows_app; simpl; rewrite ?app_nil_r, Hs, Ho;
    split; reflexivity.
Qed.

Lemma scanOnProgress_view (scanLabel : string) (p : ScanProgress)
      (st : listState) :
  localSeen (scanOnProgress scanLabel p st) = localSeen st /\
  printedRows (out (scanOnProgress scanLabel p st)) = printedRows (out st).
Proof.
  unfold Cli.scanOnProgress, Cli.printProgress.
  destruct ((ScannedFiles p =? 0)%Z || (ScannedFiles p =? lastReported st)%Z);
    [split; reflexivity|].
  destruct (negb stderrIsTerminal); simpl; rewrite printedRows_app; simpl;
    rewrite app_nil_r; split; reflexivity.
Qed.

(** One scan of [scanAndPrint], replayed on the calls of the scan: the
    rows appended are those of the records found, without the keys seen
    before when the map [localSeen] is passed. *)
Lemma replay_view (root origin scanLabel : string) (dedupe : bool)
      (t : list scanEvent) :
  forall (st : listState) (seen : list string),
    (forall k, k ∈ localSeen st <-> In k seen) ->
    let st' := fold_left (replay (Some (scanOnFound root origin dedupe))
                                 (Some (scanOnProgress scanLabel))) t st in
    let kept := if dedupe then keepFirst seen (foundOf t) else foundOf t in
    let seen' := if dedupe then seenAfter seen (foundOf t) else seen in
    printedRows (out st') =
      (printedRows (out st) ++ map (row root origin) kept)%list /\
    (forall k, k ∈ localSeen st' <-> In k seen').
Proof.
  induction t as [|e t IH]; intros st seen Hseen.
  - simpl. destruct dedupe; simpl; rewrite app_nil_r; now split.
  - cbn [fold_left]. destruct e as [h|p].
    + cbn [replay callback foundOf].
      unfold Cli.scanOnFound at 2 4.
      fold (dedupKey h).
      destruct dedupe.
      * cbn [andb keepFirst seenAfter].
        destruct (bool_decide_reflect (dedupKey h ∈ localSeen st)) as [Hin|Hnin].
        -- assert (Hs : seenKey seen (dedupKey h) = true)
             by (apply seenKey_In, Hseen, Hin).
           rewrite Hs. now apply IH.
        -- assert (Hs : seenKey seen (dedupKey h) = false).
           { destruct (seenKey seen (dedupKey h)) eqn:E; [|reflexivity].
             apply seenKey_In, Hseen in E. contradiction. }
           rewrite Hs.
           match goal with
           | |- context [fold_left _ t ?s] => set (st1 := s)
           end.
           destruct (printEntry_view (Identity_ h) origin
                       (relHolonDir root (Path h))
                       (mkList ({[dedupKey h]} ∪ localSeen st)
                               (printedHeader st) (printedEntries st)
                               (progressVisible st) (lastReported st)
                               (out st))) as [Hs1 Ho1].
           fold st1 in Hs1, Ho1. cbn [localSeen out] in Hs1, Ho1.
           specialize (IH st1 (dedupKey h :: seen)).
           cbn zeta in IH. destruct IH as [IHo IHs].
           { intros k. rewrite Hs1. rewrite elem_of_union, elem_of_singleton.
             simpl. rewrite Hseen. split; intros [H|H]; auto. }
           split; [|exact IHs].
           rewrite IHo, Ho1. cbn [map]. now rewrite <- app_assoc.
      * cbn [andb].
        match goal with
        | |- context [fold_left _ t ?s] => set (st1 := s)
        end.
        destruct (printEntry_view (Identity_ h) origin
                    (relHolonDir root (Path h)) st) as [Hs1 Ho1].
        fold st1 in Hs1, Ho1.
        specialize (IH st1 seen). cbn zeta in IH. destruct IH as [IHo IHs].
        { intros k. now rewrite Hs1. }
        split; [|exact IHs].
        rewrite IHo, Ho1. cbn [map]. now rewrite <- app_assoc.
    + cbn [replay callback foundOf].
      destruct (scanOnProgress_view scanLabel p st) as [Hs1 Ho1].
      specialize (IH (scanOnProgress scanLabel p st) seen).
      cbn zeta in IH. destruct IH as [IHo IHs].
      { intros k. now rewrite Hs1. }
      split; [|exact IHs]. now rewrite IHo, Ho1.
Qed.

Local Abbreviation found :=
  (fun scanRoot =>
     holonsIn yaml_Unmarshal
              (visibleFiles (fun p n => filepath_Join [p; n]) fs scanRoot)).

(** One call of [scanAndPrint]. *)
Lemma scanAndPrint_view (root scanRoot scanLabel origin : string)
      (dedupe : bool) (st : listState) (seen : list string) :
  (forall k, k ∈ localSeen st <-> In k seen) ->
  let st' := scanAndPrint yaml_Unmarshal filepath_Join filepath_Clean
                          filepath_Dir filepath_Rel stderrIsTerminal fs
                          root scanRoot scanLabel origin dedupe st in
  printedRows (out st') =
    (printedRows (out st) ++
     map (row root origin)
         (if dedupe then keepFirst seen (found scanRoot)
          else found scanRoot))%list /\
  (forall k, k ∈ localSeen st' <->
             In k (if dedupe then seenAfter seen (found scanRoot) else seen)).
Proof.
  intros Hseen. unfold Cli.scanAndPrint.
  rewrite ScanTheory.ScanAllWithPaths_replay. cbn [fst].
  pose proof (replay_view root origin scanLabel dedupe
                (wholeTrace yaml_Unmarshal (fun p n => filepath_Join [p; n])
                            fs scanRoot 500)
                (mkList (localSeen st) (printedHeader st) (printedEntries st)
                        (progressVisible st) 0 (out st))
                seen Hseen) as H.
  cbn zeta in H. rewrite ScanTheory.foundOf_wholeTrace in H. exact H.
Qed.

End RunList.

End ListFacts.


(** ** Blank strings and [strings.TrimSpace] *)

Module BlankFacts.

Import GoStrings Utf8 GoStringsUnicode Create.

Lemma dropWhileSpace_nil (rs : list (Z * string)) :
  dropWhileSpace rs = [] <->
  forallb (fun rb : Z * string => IsSpace (fst rb)) rs = true.
Proof.
  induction rs as [|[r bs] rs IH]; simpl; [tauto|].
  destruct (IsSpace r); simpl; [exact IH|].
  split; discriminate.
Qed.

(** What [dropWhileSpace] leaves starts with a rune that is no space. *)
Lemma dropWhileSpace_head (rs : list (Z * string)) :
  match dropWhileSpace rs with
  | [] => True
  | (r, _) :: _ => IsSpace r = false
  end.
Proof.
  induction rs as [|[r bs] rs IH]; simpl; [exact I|].
  destruct (IsSpace r) eqn:E; [exact IH | exact E].
Qed.

Lemma dropWhileSpace_suffix (rs : list (Z * string)) :
  exists pre, rs = (pre ++ dropWhileSpace rs)%list.
Proof.
  induction rs as [|[r bs] rs [pre IH]]; simpl; [now exists []|].
  destruct (IsSpace r).
  - exists ((r, bs) :: pre). simpl. now f_equal.
  - now exists [].
Qed.

Lemma DecodeRuneInString_width (c : ascii) (s : string) :
  (1 <= snd (DecodeRuneInString (String c s)))%nat.
Proof.
  unfold DecodeRuneInString.
  repeat match goal with
         | |- context [if ?b then _ else _] => destruct b
         | |- context [match ?x with EmptyString => _ | String _ _ => _ end] =>
             destruct x
         end; simpl; lia.
Qed.

(** Every rune of a string is decoded from at least one byte. *)
Lemma runesFuel_nonempty (fuel : nat) :
  forall s, Forall (fun rb : Z * string => snd rb <> "") (runesFuel fuel s).
Proof.
  induction fuel as [|fuel IH]; intros s; simpl; [constructor|].
  destruct s as [|c s]; [constructor|].
  pose proof (DecodeRuneInString_width c s) as Hw.
  destruct (DecodeRuneInString (String c s)) as [r w]. simpl in Hw.
  constructor; [|apply IH].
  destruct w as [|w]; [lia|]. simpl. discriminate.
Qed.

Lemma concatBytes_nil (rs : list (Z * string)) :
  Forall (fun rb : Z * string => snd rb <> "") rs ->
  concatBytes rs = "" -> rs = [].
Proof.
  intros H. destruct H as [|[r bs] rs Hbs _]; [reflexivity|].
  simpl in *. destruct bs; [contradiction | discriminate].
Qed.

(** [strings.TrimSpace(s) == ""] says that [s] is blank. *)
Lemma TrimSpace_blank (s : string) :
  String.eqb (TrimSpace s) "" = blank s.
Proof.
  unfold TrimSpace, blank.
  destruct (forallb (fun rb : Z * string => IsSpace (fst rb)) (runes s))
    eqn:Hb.
  - apply dropWhileSpace_nil in Hb. rewrite Hb. reflexivity.
  - apply String.eqb_neq. intros E.
    set (l1 := dropWhileSpace (runes s)) in *.
    assert (Hne : Forall (fun rb : Z * string => snd rb <> "") l1).
    { destruct (dropWhileSpace_suffix (runes s)) as [pre Hpre].
      pose proof (runesFuel_nonempty (String.length s) s) as H.
      fold (runes s) in H. rewrite Hpre in H.
      now apply Forall_app in H as [_ H]. }
    assert (Hne2 : Forall (fun rb : Z * string => snd rb <> "")
                          (rev (dropWhileSpace (rev l1)))).
    { apply Forall_rev.
      destruct (dropWhileSpace_suffix (rev l1)) as [pre Hpre].
      pose proof (Forall_rev Hne) as H. rewrite Hpre in H.
      now apply Forall_app in H as [_ H]. }
    apply (concatBytes_nil _ Hne2) in E.
    apply (f_equal (@rev _)) in E. rewrite rev_involutive in E. simpl in E.
    apply dropWhileSpace_nil in E.
    assert (Hl1 : l1 = []).
    { pose proof (dropWhileSpace_head (runes s)) as Hh. fold l1 in Hh.
      destruct l1 as [|[r bs] l1']; [reflexivity|].
      rewrite forallb_forall in E.
      specialize (E (r, bs)). simpl in E.
      rewrite E in Hh; [discriminate|].
      apply in_or_app. right. now left. }
    subst l1. apply dropWhileSpace_nil in Hl1. congruence.
Qed.

End BlankFacts.

(** C8, as the code has it.  For every request, [CreateIdentity] answers
    with the code InvalidArgument exactly when the given name, the family
    name, the motto or the composer is blank, and then performs no
    file-system operation; the [nil] request is refused in the same way.
    When none of the four is blank, the outcome follows the operating
    system: if the output directory and the file can be created and
    written, the answer carries the record with the identifier that
    [identity.New] generated and the path of the written file, HOLON.md in
    the output directory; if one of these calls fails, the answer is an
    Internal error and no record is returned. *)
Theorem CreateIdentity_contract :
  forall (isPrintWide : Z -> bool) (strings_ToLower : string -> string)
         (filepath_Join : list string -> string) (identity_New : Identity)
         (os : OsWrites) (req : Server.CreateIdentityRequest),
    let create :=
      Server.CreateIdentity isPrintWide strings_ToLower filepath_Join
                            identity_New os in
    let r := create (Some req) in
    let dir :=
      if String.eqb (Server.reqOutputDir req) "" then
        filepath_Join
          [".holon";
           Server.replaceSpaces
             (strings_ToLower
                (Server.reqGivenName req ++ "-" ++
                 Server.TrimSuffix (Server.reqFamilyName req) "?"))]
      else Server.reqOutputDir req in
    let path := filepath_Join [dir; "HOLON.md"] in
    (Create.codeOf (fst r) = Some Server.InvalidArgument <->
     Create.anyBlank req = true)
    /\ (Create.anyBlank req = true -> snd r = [])
    /\ (Create.codeOf (fst (create None)) = Some Server.InvalidArgument /\
        snd (create None) = [])
    /\ (Create.anyBlank req = false ->
        match os_MkdirAll os dir, os_Create os path, file_Write os path with
        | None, None, None =>
            exists id,
              r = (inl (Server.mkCreateResponse (Server.toProto id) path),
                   [OpMkdirAll dir; OpCreate path;
                    OpWrite path (Writer.holonTemplate isPrintWide id)]) /\
              UUID id = UUID identity_New /\
              GivenName id = Server.reqGivenName req /\
              FamilyName id = Server.reqFamilyName req /\
              Motto id = Server.reqMotto req /\
              Composer id = Server.reqComposer req
        | _, _, _ => Create.codeOf (fst r) = Some Server.Internal
        end).
Proof.
  intros isPrintWide strings_ToLower filepath_Join identity_New os req
         create r dir path.
  subst r create. unfold Server.CreateIdentity, Create.anyBlank.
  rewrite !BlankFacts.TrimSpace_blank.
  destruct (Create.blank (Server.reqGivenName req));
    [cbn; repeat split; intros; try reflexivity; discriminate|].
  destruct (Create.blank (Server.reqFamilyName req));
    [cbn; repeat split; intros; try reflexivity; discriminate|].
  destruct (Create.blank (Server.reqMotto req));
    [cbn; repeat split; intros; try reflexivity; discriminate|].
  destruct (Create.blank (Server.reqComposer req));
    [cbn; repeat split; intros; try reflexivity; discriminate|].
  cbn [orb].
  match goal with
  | |- context [fst ?b] => set (body := b)
  end.
  assert (Hmain :
    match os_MkdirAll os dir, os_Create os path, file_Write os path with
    | None, None, None =>
        exists id,
          body = (inl (Server.mkCreateResponse (Server.toProto id) path),
                  [OpMkdirAll dir; OpCreate path;
                   OpWrite path (Writer.holonTemplate isPrintWide id)]) /\
          UUID id = UUID identity_New /\
          GivenName id = Server.reqGivenName req /\
          FamilyName id = Server.reqFamilyName req /\
          Motto id = Server.reqMotto req /\
          Composer id = Server.reqComposer req
    | _, _, _ => Create.codeOf (fst body) = Some Server.Internal
    end).
  { subst body dir path. unfold WriterIO.WriteHolonMD.
    destruct (String.eqb (Server.reqLang req) "");
      destruct (0 <? List.length (Server.reqAliases req))%nat;
      cbn [negb GivenName FamilyName UUID Motto Composer];
      (destruct (os_MkdirAll os _); [reflexivity|];
       destruct (os_Create os _); [reflexivity|];
       destruct (file_Write os _); [reflexivity|];
       eexists; repeat split). }
  assert (Hcode : Create.codeOf (fst body) <> Some Server.InvalidArgument).
  { destruct (os_MkdirAll os dir); [congruence|].
    destruct (os_Create os path); [congruence|].
    destruct (file_Write os path); [congruence|].
    destruct Hmain as (id & -> & _). discriminate. }
  split; [split; [intros H; contradiction | discriminate]|].
  split; [discriminate|].
  split; [split; reflexivity|].
  intros _. exact Hmain.
Qed.

(** C8, the claim as stated fails: the request of
    [TestCreateIdentityReadOnlyDir] has its four required fields
    non-blank, and on a system where the directory cannot be created the
    answer is an Internal error, not a record. *)
Lemma CreateIdentity_nonblank_can_fail :
  Create.anyBlank Create.readOnlyRequest = false /\
  Server.CreateIdentity (fun _ => false) (fun s => s)
                        (fun elems => GoStrings.Join elems "/")
                        Create.newIdentity Create.readOnlyOS
                        (Some Create.readOnlyRequest)
  = (inr (Server.mkStatus
            Server.Internal
            "cannot create directory: mkdir /readonly/impossible/nested: permission denied"),
     []).
Proof. split; vm_compute; reflexivity. Qed.

(** The request of [TestContractCreateIdentityNominal] on a system where
    every call succeeds: the generated identifier and the path come
    back, and the file is written. *)
Example CreateIdentity_nominal :
  let r :=
    Server.CreateIdentity (fun _ => false) (fun s => s)
      (fun elems => GoStrings.Join elems "/")
      Create.newIdentity Create.writableOS
      (Some (Server.mkCreateRequest
               "sophia" "Contract" "Contract-driven testing." "test-suite"
               Server.Clade_DETERMINISTIC_PURE Server.ReproductionMode_MANUAL
               "go" [] "holons/sophia-contract")) in
  match r with
  | (inl resp, [OpMkdirAll dir; OpCreate path; OpWrite path' _]) =>
      Server.pbUuid (Server.respIdentity resp) =
        "b00932e5-49d4-4724-ab4b-e2fc9e22e108" /\
      Server.respFilePath resp = "holons/sophia-contract/HOLON.md" /\
      dir = "holons/sophia-contract" /\ path = Server.respFilePath resp /\
      path' = path
  | _ => False
  end.
Proof. vm_compute. repeat split. Qed.

(** ** The round trip through the template and the decoder *)

Module BytesFacts.

Import Codec.

Lemma allBytes_app (f : ascii -> bool) (a b : string) :
  allBytes f (a ++ b) = allBytes f a && allBytes f b.
Proof.
  induction a as [|c a IH]; simpl; [reflexivity|].
  now rewrite IH, andb_assoc.
Qed.

Lemma allBytes_impl (f g : ascii -> bool) (s : string) :
  (forall c, f c = true -> g c = true) ->
  allBytes f s = true -> allBytes g s = true.
Proof.
  intros Hfg. induction s as [|c s IH]; simpl; [reflexivity|].
  intros H. apply andb_true_iff in H as [Hc Hs].
  now rewrite (Hfg _ Hc), IH.
Qed.

End BytesFacts.

(** *** Bit operations as arithmetic *)

Module BitFacts.

Local Open Scope Z_scope.

(** Two numbers with no bit in common: their bitwise or is their sum. *)
Lemma lor_add (k a lo : Z) :
  0 <= k -> a mod 2 ^ k = 0 -> 0 <= lo < 2 ^ k -> Z.lor a lo = a + lo.
Proof.
  intros Hk Ha Hlo.
  assert (Hd : Z.land a lo = 0).
  { apply Z.bits_inj'. intros n Hn.
    rewrite Z.land_spec, Z.bits_0.
    destruct (Z.ltb_spec n k) as [Hlt|Hge].
    - rewrite <- (Z.mod_pow2_bits_low a k n Hlt), Ha, Z.bits_0. reflexivity.
    - rewrite <- (Z.mod_small lo (2 ^ k)) by exact Hlo.
      rewrite Z.mod_pow2_bits_high by lia. apply andb_false_r. }
  rewrite <- Z.lxor_lor by exact Hd.
  symmetry. now apply Z.add_nocarry_lxor.
Qed.

Lemma land_mask (k a : Z) : 0 <= k -> Z.land a (2 ^ k - 1) = a mod 2 ^ k.
Proof.
  intros Hk. rewrite <- Z.land_ones by exact Hk.
  now rewrite Z.ones_equiv, Z.sub_1_r.
Qed.

Lemma land_7 (a : Z) : Z.land a 7 = a mod 8.
Proof. exact (land_mask 3 a ltac:(lia)). Qed.

Lemma land_15 (a : Z) : Z.land a 15 = a mod 16.
Proof. exact (land_mask 4 a ltac:(lia)). Qed.

Lemma land_31 (a : Z) : Z.land a 31 = a mod 32.
Proof. exact (land_mask 5 a ltac:(lia)). Qed.

Lemma land_63 (a : Z) : Z.land a 63 = a mod 64.
Proof. exact (land_mask 6 a ltac:(lia)). Qed.

Lemma shiftl_6 (a : Z) : Z.shiftl a 6 = a * 64.
Proof. exact (Z.shiftl_mul_pow2 a 6 ltac:(lia)). Qed.

Lemma shiftl_12 (a : Z) : Z.shiftl a 12 = a * 4096.
Proof. exact (Z.shiftl_mul_pow2 a 12 ltac:(lia)). Qed.

Lemma shiftl_18 (a : Z) : Z.shiftl a 18 = a * 262144.
Proof. exact (Z.shiftl_mul_pow2 a 18 ltac:(lia)). Qed.

Lemma shiftr_4 (a : Z) : Z.shiftr a 4 = a / 16.
Proof. exact (Z.shiftr_div_pow2 a 4 ltac:(lia)). Qed.

Lemma shiftr_6 (a : Z) : Z.shiftr a 6 = a / 64.
Proof. exact (Z.shiftr_div_pow2 a 6 ltac:(lia)). Qed.

Lemma shiftr_8 (a : Z) : Z.shiftr a 8 = a / 256.
Proof. exact (Z.shiftr_div_pow2 a 8 ltac:(lia)). Qed.

Lemma shiftr_12 (a : Z) : Z.shiftr a 12 = a / 4096.
Proof. exact (Z.shiftr_div_pow2 a 12 ltac:(lia)). Qed.

Lemma shiftr_16 (a : Z) : Z.shiftr a 16 = a / 65536.
Proof. exact (Z.shiftr_div_pow2 a 16 ltac:(lia)). Qed.

Lemma shiftr_18 (a : Z) : Z.shiftr a 18 = a / 262144.
Proof. exact (Z.shiftr_div_pow2 a 18 ltac:(lia)). Qed.

Lemma shiftr_20 (a : Z) : Z.shiftr a 20 = a / 1048576.
Proof. exact (Z.shiftr_div_pow2 a 20 ltac:(lia)). Qed.

Lemma shiftr_24 (a : Z) : Z.shiftr a 24 = a / 16777216.
Proof. exact (Z.shiftr_div_pow2 a 24 ltac:(lia)). Qed.

Lemma shiftr_28 (a : Z) : Z.shiftr a 28 = a / 268435456.
Proof. exact (Z.shiftr_div_pow2 a 28 ltac:(lia)). Qed.

Ltac bits_to_arith :=
  rewrite ?land_7, ?land_15, ?land_31, ?land_63,
          ?shiftl_6, ?shiftl_12, ?shiftl_18,
          ?shiftr_4, ?shiftr_6, ?shiftr_8, ?shiftr_12, ?shiftr_16,
          ?shiftr_18, ?shiftr_20, ?shiftr_24, ?shiftr_28.

Ltac divmod := Z.div_mod_to_equations; lia.

(** The two, three and four bytes of an encoding, taken apart by
    [DecodeRuneInString] and put together again by [encode]. *)
Lemma canon2 (b0 b1 : Z) :
  194 <= b0 <= 223 -> 128 <= b1 <= 191 ->
  let r := Z.lor (Z.shiftl (Z.land b0 31) 6) (Z.land b1 63) in
  128 <= r <= 2047 /\
  Z.lor 192 (Z.shiftr r 6) = b0 /\ Z.lor 128 (Z.land r 63) = b1.
Proof.
  intros H0 H1 r.
  assert (Hr : r = (b0 - 192) * 64 + (b1 - 128)).
  { subst r. bits_to_arith.
    rewrite (lor_add 6) by (cbn; divmod). divmod. }
  rewrite Hr. bits_to_arith.
  rewrite !(lor_add 6) by (cbn; divmod).
  repeat split; divmod.
Qed.

Lemma canon3 (b0 b1 b2 : Z) :
  224 <= b0 <= 239 ->
  (if b0 =? 224 then 160 else 128) <= b1 <=
  (if b0 =? 237 then 159 else 191) ->
  128 <= b2 <= 191 ->
  let r := Z.lor (Z.lor (Z.shiftl (Z.land b0 15) 12)
                        (Z.shiftl (Z.land b1 63) 6))
                 (Z.land b2 63) in
  2048 <= r <= 65535 /\ ~ (55296 <= r <= 57343) /\
  Z.lor 224 (Z.shiftr r 12) = b0 /\
  Z.lor 128 (Z.land (Z.shiftr r 6) 63) = b1 /\
  Z.lor 128 (Z.land r 63) = b2.
Proof.
  intros H0 H1 H2 r.
  assert (Hb1 : 128 <= b1 <= 191)
    by (revert H1; destruct (b0 =? 224), (b0 =? 237); lia).
  assert (Hr : r = (b0 - 224) * 4096 + (b1 - 128) * 64 + (b2 - 128)).
  { subst r. bits_to_arith.
    rewrite (lor_add 12 (_ * 4096) (_ * 64)) by (cbn; divmod).
    rewrite (lor_add 6) by (cbn; divmod). divmod. }
  rewrite Hr. bits_to_arith.
  rewrite (lor_add 4) by (cbn; divmod).
  rewrite !(lor_add 6) by (cbn; divmod).
  revert H1. destruct (Z.eqb_spec b0 224), (Z.eqb_spec b0 237); intros H1;
    repeat split; divmod.
Qed.

Lemma canon4 (b0 b1 b2 b3 : Z) :
  240 <= b0 <= 244 ->
  (if b0 =? 240 then 144 else 128) <= b1 <=
  (if b0 =? 244 then 143 else 191) ->
  128 <= b2 <= 191 -> 128 <= b3 <= 191 ->
  let r := Z.lor (Z.lor (Z.lor (Z.shiftl (Z.land b0 7) 18)
                               (Z.shiftl (Z.land b1 63) 12))
                        (Z.shiftl (Z.land b2 63) 6))
                 (Z.land b3 63) in
  65536 <= r <= 1114111 /\
  Z.lor 240 (Z.shiftr r 18) = b0 /\
  Z.lor 128 (Z.land (Z.shiftr r 12) 63) = b1 /\
  Z.lor 128 (Z.land (Z.shiftr r 6) 63) = b2 /\
  Z.lor 128 (Z.land r 63) = b3.
Proof.
  intros H0 H1 H2 H3 r.
  assert (Hb1 : 128 <= b1 <= 191)
    by (revert H1; destruct (b0 =? 240), (b0 =? 244); lia).
  assert (Hr : r = (b0 - 240) * 262144 + (b1 - 128) * 4096 +
                   (b2 - 128) * 64 + (b3 - 128)).
  { subst r. bits_to_arith.
    rewrite (lor_add 18 (_ * 262144) (_ * 4096)) by (cbn; divmod).
    rewrite (lor_add 12 _ (_ * 64)) by (cbn; divmod).
    rewrite (lor_add 6) by (cbn; divmod). divmod. }
  rewrite Hr. bits_to_arith.
  rewrite (lor_add 3) by (cbn; divmod).
  rewrite !(lor_add 6) by (cbn; divmod).
  revert H1. destruct (Z.eqb_spec b0 240), (Z.eqb_spec b0 244); intros H1;
    repeat split; divmod.
Qed.

End BitFacts.

(** *** UTF-8 *)

Module Utf8Facts.

Import GoStrings GoStringsFacts Utf8 Codec BitFacts.
Local Open Scope Z_scope.

Lemma byte_range (c : ascii) : 0 <= byte c < 256.
Proof.
  unfold byte. pose proof (N_ascii_bounded c). lia.
Qed.

Lemma chr_byte (c : ascii) : chr (byte c) = c.
Proof. unfold chr, byte. now rewrite N2Z.id, ascii_N_embedding. Qed.

Lemma str1_byte (c : ascii) (b : Z) : b = byte c -> str1 b = String c "".
Proof. intros ->. unfold str1. now rewrite chr_byte. Qed.

Ltac split_if_in H :=
  repeat match type of H with
         | context [if ?b then _ else _] => destruct b eqn:?
         end.

Ltac decode_cases H :=
  unfold DecodeRuneInString, RuneSelf, inRange, isCont in H;
  cbv zeta in H; split_if_in H.

Ltac to_arith :=
  repeat match goal with
         | H : andb _ _ = true |- _ => apply andb_true_iff in H as [? ?]
         | H : (_ <=? _) = true |- _ => apply Z.leb_le in H
         | H : (_ <=? _) = false |- _ => apply Z.leb_gt in H
         | H : (_ <? _) = true |- _ => apply Z.ltb_lt in H
         | H : (_ <? _) = false |- _ => apply Z.ltb_ge in H
         | H : (_ =? _) = true |- _ => apply Z.eqb_eq in H
         | H : (_ =? _) = false |- _ => apply Z.eqb_neq in H
         end.

(** The width of a decoding: between one and four bytes, all of them in
    the string. *)
Lemma decode_width (s : string) (r : Z) (w : nat) :
  s <> "" -> DecodeRuneInString s = (r, w) ->
  (1 <= w <= 4)%nat /\ (w <= String.length s)%nat.
Proof.
  intros Hs H. destruct s as [|c0 s]; [contradiction|].
  destruct s as [|c1 [|c2 [|c3 s]]]; decode_cases H;
    injection H as <- <-; simpl; lia.
Qed.

Ltac pair_eq H r :=
  let Hr := fresh "Hr" in
  let Hw := fresh "Hw" in
  pose proof (f_equal fst H) as Hr; pose proof (f_equal snd H) as Hw;
  cbn [fst snd String.length] in Hr, Hw; try lia; subst r.

(** A decoding reads the bytes of its width only. *)
Lemma decode_prefix (x t : string) (r : Z) :
  x <> "" -> DecodeRuneInString x = (r, String.length x) ->
  decoded r (String.length x) ->
  DecodeRuneInString (x ++ t) = (r, String.length x).
Proof.
  intros Hx H Hd. destruct x as [|c0 x]; [contradiction|].
  destruct x as [|c1 [|c2 [|c3 [|c4 x]]]];
    cbn [append]; decode_cases H; pair_eq H r;
    try (exfalso; apply Hd; split; reflexivity);
    unfold DecodeRuneInString, RuneSelf, inRange, isCont; cbv zeta;
    repeat match goal with
           | E : ?b = _ |- context [?b] => rewrite E
           end; reflexivity.
Qed.

(** The bytes of a decoding, alone, decode the same. *)
Lemma decode_take (s : string) (r : Z) (w : nat) :
  s <> "" -> DecodeRuneInString s = (r, w) -> decoded r w ->
  DecodeRuneInString (take w s) = (r, w) /\ String.length (take w s) = w.
Proof.
  intros Hs H Hd. destruct s as [|c0 s]; [contradiction|].
  destruct s as [|c1 [|c2 [|c3 s]]];
    decode_cases H; pair_eq H r; subst w;
    try (exfalso; apply Hd; split; reflexivity);
    cbn [take String.length];
    (split; [|reflexivity]);
    unfold DecodeRuneInString, RuneSelf, inRange, isCont; cbv zeta;
    repeat match goal with
           | E : ?b = _ |- context [?b] => rewrite E
           end; reflexivity.
Qed.

(** One byte decodes to itself, below [RuneSelf]; a longer encoding has
    bytes from [0x80] on only. *)
Lemma decode_bytes (x : string) (r : Z) :
  x <> "" -> DecodeRuneInString x = (r, String.length x) ->
  decoded r (String.length x) ->
  match x with
  | String c "" => r = byte c /\ byte c < 128
  | _ => allBytes (fun c => 128 <=? byte c) x = true
  end.
Proof.
  intros Hx H Hd. destruct x as [|c0 x]; [contradiction|].
  destruct x as [|c1 [|c2 [|c3 [|c4 x]]]];
    decode_cases H; pair_eq H r;
    try (exfalso; apply Hd; split; reflexivity);
    to_arith; cbn [allBytes];
    repeat match goal with
           | H : context [if ?b then _ else _] |- _ => destruct b
           end;
    first [ split; lia
          | repeat (apply andb_true_iff; split); try reflexivity;
            apply Z.leb_le; lia ].
Qed.

Lemma ValidRune_intro (r : Z) :
  0 <= r <= 1114111 -> ~ (55296 <= r <= 57343) -> ValidRune r = true.
Proof.
  intros H Hs. unfold ValidRune, inRange, MaxRune.
  destruct (Z.leb_spec 0 r), (Z.leb_spec r 55295), (Z.leb_spec 57344 r),
    (Z.leb_spec r 1114111); try reflexivity; lia.
Qed.

Lemma ValidRune_range (r : Z) :
  ValidRune r = true -> 0 <= r <= 1114111 /\ ~ (55296 <= r <= 57343).
Proof.
  unfold ValidRune, inRange, MaxRune. intros H.
  apply orb_true_iff in H as [H|H]; apply andb_true_iff in H as [H1 H2];
    apply Z.leb_le in H1, H2; lia.
Qed.

(** What [DecodeRuneInString] accepts is the encoding of the rune it
    returns. *)
Lemma decode_canon (x : string) (r : Z) :
  x <> "" -> DecodeRuneInString x = (r, String.length x) ->
  decoded r (String.length x) ->
  ValidRune r = true /\ encode r = x /\
  ((2 <= String.length x)%nat -> 128 <= r).
Proof.
  intros Hx H Hd. destruct x as [|c0 x]; [contradiction|].
  pose proof (byte_range c0) as R0.
  destruct x as [|c1 [|c2 [|c3 [|c4 x]]]];
    decode_cases H; pair_eq H r;
    try (exfalso; apply Hd; split; reflexivity);
    to_arith.
  - (* one byte *)
    split; [apply ValidRune_intro; lia|]. split; [|simpl; lia].
    unfold encode. rewrite (proj2 (Z.leb_le _ _)) by lia.
    now apply str1_byte.
  - (* two bytes *)
    destruct (canon2 (byte c0) (byte c1)) as (Hr & E0 & E1); [lia..|].
    split; [apply ValidRune_intro; lia|]. split; [|lia].
    unfold encode.
    rewrite (proj2 (Z.leb_gt _ _)), (proj2 (Z.leb_le _ 2047)) by lia.
    rewrite E0, E1. unfold str1. now rewrite !chr_byte.
  - (* three bytes *)
    destruct (canon3 (byte c0) (byte c1) (byte c2))
      as (Hr & Hs & E0 & E1 & E2); [lia..|].
    split; [apply ValidRune_intro; lia|]. split; [|lia].
    unfold encode.
    rewrite (proj2 (Z.leb_gt _ 127)), (proj2 (Z.leb_gt _ 2047)),
      (proj2 (Z.leb_le _ 65535)) by lia.
    rewrite E0, E1, E2. unfold str1. now rewrite !chr_byte.
  - (* four bytes *)
    destruct (canon4 (byte c0) (byte c1) (byte c2) (byte c3))
      as (Hr & E0 & E1 & E2 & E3); [lia..|].
    split; [apply ValidRune_intro; lia|]. split; [|lia].
    unfold encode.
    rewrite (proj2 (Z.leb_gt _ 127)), (proj2 (Z.leb_gt _ 2047)),
      (proj2 (Z.leb_gt _ 65535)) by lia.
    rewrite E0, E1, E2, E3. unfold str1. now rewrite !chr_byte.
Qed.

End Utf8Facts.

Module TextFacts.

Import GoStrings GoStringsFacts Utf8 Utf8Facts Codec BytesFacts.
Local Open Scope Z_scope.

Lemma wellDecoded_decoded (r : Z) (x : string) :
  wellDecoded (r, x) = true <-> decoded r (String.length x).
Proof.
  unfold wellDecoded, decoded. cbn [fst snd]. split.
  - intros H [-> E]. rewrite E in H. discriminate H.
  - intros H. apply negb_true_iff, andb_false_iff.
    destruct (Z.eqb_spec r RuneError) as [->|]; [right | now left].
    destruct (Nat.eqb_spec (String.length x) 1) as [E|]; [|reflexivity].
    exfalso. apply H. now split.
Qed.

Lemma length_take (n : nat) (s : string) :
  (n <= String.length s)%nat -> String.length (take n s) = n.
Proof.
  revert s. induction n as [|n IH]; intros [|c s] H; simpl in *;
    try reflexivity; try lia.
  now rewrite IH by lia.
Qed.

Lemma length_drop (n : nat) (s : string) :
  String.length (drop n s) = (String.length s - n)%nat.
Proof.
  revert s. induction n as [|n IH]; intros [|c s]; simpl; try reflexivity.
  apply IH.
Qed.

(** More fuel than bytes changes nothing. *)
Lemma runesFuel_enough (fuel : nat) :
  forall (s : string) (fuel' : nat),
    (String.length s <= fuel)%nat -> (String.length s <= fuel')%nat ->
    runesFuel fuel s = runesFuel fuel' s.
Proof.
  induction fuel as [|fuel IH]; intros s fuel' H H'.
  - destruct s; [now destruct fuel' | simpl in H; lia].
  - destruct s as [|c s]; [now destruct fuel'|].
    destruct fuel' as [|fuel']; [simpl in H'; lia|].
    cbn [runesFuel].
    destruct (DecodeRuneInString (String c s)) as [r w] eqn:E.
    destruct (decode_width (String c s) r w ltac:(discriminate) E) as [Hw _].
    f_equal. apply IH; rewrite length_drop; simpl in *; lia.
Qed.

Lemma runes_cons (x s : string) (r : Z) :
  x <> "" -> DecodeRuneInString x = (r, String.length x) ->
  wellDecoded (r, x) = true ->
  runes (x ++ s) = (r, x) :: runes s.
Proof.
  intros Hx H Hd. apply wellDecoded_decoded in Hd.
  pose proof (decode_prefix x s r Hx H Hd) as E.
  unfold runes. destruct x as [|c x]; [contradiction|].
  cbn [append String.length runesFuel].
  change (String c (x ++ s)) with (String c x ++ s). rewrite E.
  rewrite take_app, drop_app. f_equal.
  apply runesFuel_enough; rewrite ?length_append; lia.
Qed.

(** The runes of a text are valid and satisfy [P]. *)
Lemma text_runes (P : Z -> bool) (s : string) :
  text P s ->
  forallb (fun rb => wellDecoded rb && P (fst rb)) (runes s) = true.
Proof.
  induction 1 as [|x r s Hx H Hd HP _ IH]; [reflexivity|].
  rewrite (runes_cons x s r Hx H Hd). cbn [forallb fst].
  now rewrite Hd, HP, IH.
Qed.

Lemma text_app (P : Z -> bool) (a b : string) :
  text P a -> text P b -> text P (a ++ b).
Proof.
  induction 1 as [|x r s Hx H Hd HP _ IH]; intros Hb; [exact Hb|].
  rewrite append_assoc. apply (text_rune P x r); auto.
Qed.

Lemma text_impl (P Q : Z -> bool) (s : string) :
  (forall r, P r = true -> Q r = true) -> text P s -> text Q s.
Proof.
  intros HPQ. induction 1 as [|x r s Hx H Hd HP _ IH]; [constructor|].
  apply (text_rune Q x r); auto.
Qed.

(** ASCII bytes are a text. *)
Lemma text_ascii (P : Z -> bool) (s : string) :
  allBytes (fun c => (byte c <? 128) && P (byte c)) s = true -> text P s.
Proof.
  induction s as [|c s IH]; intros H; [constructor|].
  simpl in H. apply andb_true_iff in H as [Hc Hs].
  apply andb_true_iff in Hc as [Hlt HP].
  change (String c s) with (String c "" ++ s).
  apply (text_rune P (String c "") (byte c));
    [discriminate | | | exact HP | exact (IH Hs)].
  - unfold DecodeRuneInString, RuneSelf. now rewrite Hlt.
  - unfold wellDecoded, RuneError. cbn [fst snd].
    apply Z.ltb_lt in Hlt.
    now rewrite (proj2 (Z.eqb_neq _ _)) by lia.
Qed.

(** A byte of a text is an ASCII rune of the text or lies above them. *)
Lemma text_bytes (P : Z -> bool) (s : string) :
  text P s -> allBytes (fun c => (128 <=? byte c) || P (byte c)) s = true.
Proof.
  induction 1 as [|x r s Hx H Hd HP _ IH]; [reflexivity|].
  rewrite allBytes_app, IH, andb_true_r.
  apply wellDecoded_decoded in Hd.
  pose proof (decode_bytes x r Hx H Hd) as Hb.
  destruct x as [|c [|c' x]]; [contradiction| |].
  - destruct Hb as [-> _]. cbn [allBytes]. now rewrite HP, orb_true_r.
  - eapply allBytes_impl; [|exact Hb].
    intros a ->. reflexivity.
Qed.

(** A valid string is a text. *)
Lemma validUTF8_text (s : string) :
  validUTF8 s = true -> wellFormed s.
Proof.
  unfold wellFormed.
  remember (String.length s) as n eqn:Hn. revert s Hn.
  induction n as [n IH] using lt_wf_ind. intros s Hn Hv.
  destruct s as [|c s]; [constructor|].
  unfold validUTF8, runes in Hv. cbn [String.length runesFuel] in Hv.
  destruct (DecodeRuneInString (String c s)) as [r w] eqn:E.
  destruct (decode_width (String c s) r w ltac:(discriminate) E) as [Hw Hl].
  cbn [forallb] in Hv. apply andb_true_iff in Hv as [Hd Hv].
  rewrite <- (take_drop w (String c s)).
  pose proof (length_take w (String c s) Hl) as Hlen.
  assert (Hdec : decoded r w).
  { apply wellDecoded_decoded in Hd. now rewrite Hlen in Hd. }
  destruct (decode_take (String c s) r w ltac:(discriminate) E Hdec)
    as [Et _].
  apply (text_rune _ (take w (String c s)) r).
  - intros E0. rewrite E0 in Hlen. simpl in Hlen. lia.
  - now rewrite Hlen.
  - exact Hd.
  - reflexivity.
  - apply (IH (String.length (drop w (String c s)))).
    + subst n. rewrite length_drop. simpl in *. lia.
    + reflexivity.
    + unfold validUTF8, runes.
      rewrite (runesFuel_enough _ _ (String.length s)); [exact Hv|lia|].
      rewrite length_drop. simpl in *. lia.
Qed.

End TextFacts.

(** *** Hexadecimal escapes *)

Module HexFacts.

Import GoStrings GoStringsFacts Utf8 Utf8Facts Strconv Yaml Codec BitFacts.
Local Open Scope Z_scope.

Lemma lowerhex_digit (n : Z) :
  0 <= n < 16 ->
  exists c, lowerhex n = String c "" /\ hexVal c = Some n /\
            printable c = true.
Proof.
  intros H. rewrite <- (Z2Nat.id n) by lia.
  assert (Hk : (Z.to_nat n < 16)%nat) by lia.
  revert Hk. generalize (Z.to_nat n) as k. intros k Hk.
  do 16 (destruct k as [|k]; [eexists; repeat split; reflexivity|]).
  lia.
Qed.

Lemma hex4_digits (r : Z) :
  0 <= r < 65536 ->
  exists h1 h2 h3 h4,
    hex4 r = String h1 (String h2 (String h3 (String h4 ""))) /\
    hexNum 0 [h1; h2; h3; h4] = Some r /\
    allBytes printable (hex4 r) = true.
Proof.
  intros H. unfold hex4. bits_to_arith.
  destruct (lowerhex_digit ((r / 4096) mod 16)) as (h1 & -> & E1 & P1);
    [divmod|].
  destruct (lowerhex_digit ((r / 256) mod 16)) as (h2 & -> & E2 & P2);
    [divmod|].
  destruct (lowerhex_digit ((r / 16) mod 16)) as (h3 & -> & E3 & P3);
    [divmod|].
  destruct (lowerhex_digit (r mod 16)) as (h4 & -> & E4 & P4); [divmod|].
  exists h1, h2, h3, h4. split; [reflexivity|]. split.
  - cbn [hexNum]. rewrite E1, E2, E3, E4. f_equal. divmod.
  - cbn [append allBytes]. now rewrite P1, P2, P3, P4.
Qed.

Lemma hex8_digits (r : Z) :
  0 <= r < 4294967296 ->
  exists h1 h2 h3 h4 h5 h6 h7 h8,
    hex8 r = String h1 (String h2 (String h3 (String h4
               (String h5 (String h6 (String h7 (String h8 "")))))))
    /\ hexNum 0 [h1; h2; h3; h4; h5; h6; h7; h8] = Some r /\
    allBytes printable (hex8 r) = true.
Proof.
  intros H. unfold hex8, hex4. bits_to_arith.
  destruct (lowerhex_digit ((r / 268435456) mod 16)) as (h1 & -> & E1 & P1);
    [divmod|].
  destruct (lowerhex_digit ((r / 16777216) mod 16)) as (h2 & -> & E2 & P2);
    [divmod|].
  destruct (lowerhex_digit ((r / 1048576) mod 16)) as (h3 & -> & E3 & P3);
    [divmod|].
  destruct (lowerhex_digit ((r / 65536) mod 16)) as (h4 & -> & E4 & P4);
    [divmod|].
  destruct (lowerhex_digit ((r / 4096) mod 16)) as (h5 & -> & E5 & P5);
    [divmod|].
  destruct (lowerhex_digit ((r / 256) mod 16)) as (h6 & -> & E6 & P6);
    [divmod|].
  destruct (lowerhex_digit ((r / 16) mod 16)) as (h7 & -> & E7 & P7);
    [divmod|].
  destruct (lowerhex_digit (r mod 16)) as (h8 & -> & E8 & P8); [divmod|].
  exists h1, h2, h3, h4, h5, h6, h7, h8. split; [reflexivity|]. split.
  - cbn [hexNum]. rewrite E1, E2, E3, E4, E5, E6, E7, E8. f_equal. divmod.
  - cbn [append allBytes]. now rewrite P1, P2, P3, P4, P5, P6, P7, P8.
Qed.

End HexFacts.

(** *** Quoting and reading back *)

Module QuoteFacts.

Import GoStrings GoStringsFacts Utf8 Utf8Facts Strconv Yaml Codec BitFacts
       BytesFacts TextFacts HexFacts.
Local Open Scope Z_scope.

Ltac bool_cases :=
  repeat match goal with
         | |- context [?a <=? ?b] => destruct (Z.leb_spec a b)
         | |- context [?a <? ?b] => destruct (Z.ltb_spec a b)
         | |- context [?a =? ?b] => destruct (Z.eqb_spec a b)
         end.

Lemma prepend_prepend (a b : string) (o : option (string * string)) :
  prepend a (prepend b o) = prepend (a ++ b) o.
Proof.
  destruct o as [[s rest]|]; simpl; [|reflexivity].
  now rewrite append_assoc.
Qed.

(** Bytes from [0x80] on are read as they are. *)
Lemma scanDQ_literal (x tail : string) :
  allBytes (fun c => 128 <=? byte c) x = true ->
  scanDQ (x ++ tail) = prepend x (scanDQ tail).
Proof.
  induction x as [|c x IH]; intros H.
  - simpl. now destruct (scanDQ tail) as [[? ?]|].
  - simpl in H. apply andb_true_iff in H as [Hc Hx]. apply Z.leb_le in Hc.
    cbn [append scanDQ].
    rewrite (proj2 (Z.eqb_neq (byte c) 34)), (proj2 (Z.eqb_neq (byte c) 92))
      by lia.
    rewrite (IH Hx), prepend_prepend. reflexivity.
Qed.

Lemma escapeCode_valid (digits : list ascii) (r : Z) :
  hexNum 0 digits = Some r -> ValidRune r = true ->
  escapeCode digits = Some (encode r).
Proof.
  intros H Hv. apply ValidRune_range in Hv as [Hr Hs].
  unfold escapeCode, inRange. rewrite H.
  destruct (Z.leb_spec 55296 r), (Z.leb_spec r 57343),
    (Z.ltb_spec 1114111 r); try reflexivity; lia.
Qed.

Lemma printable_lineRune (c : ascii) :
  printable c = true -> (byte c <? 128) && lineRune (byte c) = true.
Proof.
  destruct c as [b0 b1 b2 b3 b4 b5 b6 b7].
  destruct b0, b1, b2, b3, b4, b5, b6, b7; intros H;
    solve [discriminate H | reflexivity].
Qed.

(** Printable ASCII may stand in a line of the subset. *)
Lemma text_printable (s : string) :
  allBytes printable s = true -> text lineRune s.
Proof.
  intros H. apply text_ascii. eapply allBytes_impl; [|exact H].
  apply printable_lineRune.
Qed.

Section Tables.

Variable isPrintWide : Z -> bool.

Local Abbreviation appendEscapedRune := (appendEscapedRune isPrintWide).
Local Abbreviation quoteBody := (quoteBody isPrintWide).
Local Abbreviation IsPrint := (IsPrint isPrintWide).
Local Abbreviation Quote := (Quote isPrintWide).
Local Abbreviation itemsTail := (itemsTail isPrintWide).

(** One ASCII byte, quoted by Go and read back by the YAML scanner. *)
Lemma scanDQ_escaped (c : ascii) (tail : string) :
  (byte c <? 128)%Z = true ->
  scanDQ (appendEscapedRune (byte c) ++ tail) =
  prepend (String c "") (scanDQ tail).
Proof.
  destruct c as [b0 b1 b2 b3 b4 b5 b6 b7].
  destruct b7; [destruct b0, b1, b2, b3, b4, b5, b6; discriminate|].
  intros _. destruct b0, b1, b2, b3, b4, b5, b6; reflexivity.
Qed.

(** What Go writes for an ASCII byte is printable ASCII. *)
Lemma printable_escaped (c : ascii) :
  (byte c <? 128)%Z = true ->
  allBytes printable (appendEscapedRune (byte c)) = true.
Proof.
  destruct c as [b0 b1 b2 b3 b4 b5 b6 b7].
  destruct b7; [destruct b0, b1, b2, b3, b4, b5, b6; discriminate|].
  intros _. destruct b0, b1, b2, b3, b4, b5, b6; reflexivity.
Qed.

(** The loop of [appendQuotedWith] at a valid encoding. *)
Lemma quoteBody_rune (x s : string) (r : Z) :
  x <> "" -> DecodeRuneInString x = (r, String.length x) ->
  wellDecoded (r, x) = true ->
  quoteBody (x ++ s) = appendEscapedRune r ++ quoteBody s.
Proof.
  intros Hx H Hd.
  pose proof (proj1 (wellDecoded_decoded r x) Hd) as Hdec.
  pose proof (decode_prefix x s r Hx H Hdec) as E.
  pose proof (decode_bytes x r Hx H Hdec) as Hb.
  destruct (decode_width x r _ Hx H) as [Hw _].
  destruct x as [|c0 x]; [contradiction|].
  assert (Hone : (RuneSelf <=? byte c0) = false -> x = "" ).
  { intros Hlt. destruct x as [|c1 x]; [reflexivity|].
    unfold DecodeRuneInString in H. unfold RuneSelf in *.
    replace (byte c0 <? 128) with true in H by lia.
    pose proof (f_equal snd H) as Hs. simpl in Hs. lia. }
  unfold wellDecoded in Hd. cbn [fst snd] in Hd.
  apply negb_true_iff in Hd.
  destruct x as [|c1 [|c2 [|c3 [|c4 x]]]]; [| | | |simpl in Hw; lia];
    cbn [append String.length] in E;
    cbn [append Strconv.quoteBody];
    (destruct (RuneSelf <=? byte c0) eqn:Hself;
     [rewrite E | try discriminate (Hone eq_refl)]).
  all: cbn [String.length Nat.eqb andb] in *.
  all: try rewrite Hd.
  all: try reflexivity.
  - destruct Hb as [_ Hb]. unfold RuneSelf in Hself. lia.
  - destruct Hb as [-> Hb].
    rewrite (proj2 (Z.eqb_neq _ _)) by (unfold RuneError; lia).
    reflexivity.
Qed.

(** What [appendEscapedRune] writes for a rune above ASCII: its encoding
    when it is printable, a [\u] or [\U] escape otherwise. *)
Lemma appendEscapedRune_wide (r : Z) :
  128 <= r -> ValidRune r = true ->
  appendEscapedRune r =
  if IsPrint r then encode r
  else if r <? 65536 then BS ++ "u" ++ hex4 r
       else BS ++ "U" ++ hex8 r.
Proof.
  intros H Hv. unfold Strconv.appendEscapedRune, AppendRune. rewrite Hv.
  repeat match goal with
         | |- context [r =? ?k] =>
             rewrite (proj2 (Z.eqb_neq r k)) by lia
         end.
  rewrite (proj2 (Z.ltb_ge r 32)) by lia.
  reflexivity.
Qed.

(** One rune, quoted by Go and read back by the YAML scanner. *)
Lemma scanDQ_chunk (x tail : string) (r : Z) :
  x <> "" -> DecodeRuneInString x = (r, String.length x) ->
  wellDecoded (r, x) = true ->
  scanDQ (appendEscapedRune r ++ tail) = prepend x (scanDQ tail).
Proof.
  intros Hx H Hd. apply wellDecoded_decoded in Hd.
  pose proof (decode_bytes x r Hx H Hd) as Hb.
  destruct (decode_canon x r Hx H Hd) as (Hv & He & Hwide).
  destruct x as [|c0 [|c1 x]]; [contradiction| |].
  - destruct Hb as [-> Hlt]. apply scanDQ_escaped. now apply Z.ltb_lt.
  - specialize (Hwide ltac:(simpl; lia)).
    rewrite appendEscapedRune_wide by assumption.
    destruct (IsPrint r).
    + rewrite He. now apply scanDQ_literal.
    + pose proof (ValidRune_range r Hv) as [Hr _].
      destruct (Z.ltb_spec r 65536) as [Hlt|Hge].
      * destruct (hex4_digits r ltac:(lia)) as (h1 & h2 & h3 & h4 & E & Hn & _).
        rewrite E. cbn [append BS scanDQ].
        change (byte (ascii_of_nat 92) =? 34) with false.
        change (byte (ascii_of_nat 92) =? 92) with true.
        change (simpleEscape "u") with (@None string).
        change (byte "u" =? 120) with false.
        change (byte "u" =? 117) with true.
        cbv iota.
        rewrite (escapeCode_valid _ r Hn Hv), He. reflexivity.
      * destruct (hex8_digits r ltac:(lia))
          as (h1 & h2 & h3 & h4 & h5 & h6 & h7 & h8 & E & Hn & _).
        rewrite E. cbn [append BS scanDQ].
        change (byte (ascii_of_nat 92) =? 34) with false.
        change (byte (ascii_of_nat 92) =? 92) with true.
        change (simpleEscape "U") with (@None string).
        change (byte "U" =? 120) with false.
        change (byte "U" =? 117) with false.
        change (byte "U" =? 85) with true.
        cbv iota.
        rewrite (escapeCode_valid _ r Hn Hv), He. reflexivity.
Qed.

(** A quoted valid string, read back: the scanner returns the string and
    stops after the closing quote. *)
Lemma scanDQ_quoteBody (s rest : string) :
  wellFormed s ->
  scanDQ (quoteBody s ++ DQ ++ rest) = Some (s, rest).
Proof.
  unfold wellFormed.
  induction 1 as [|x r s Hx H Hd _ _ IH]; [reflexivity|].
  rewrite (quoteBody_rune x s r Hx H Hd), append_assoc.
  rewrite (scanDQ_chunk x _ r Hx H Hd), IH. reflexivity.
Qed.

Lemma joinQuoted_cons (s : string) (ss : list string) :
  Writer.joinQuoted isPrintWide (s :: ss) = Quote s ++ itemsTail ss.
Proof.
  unfold Writer.joinQuoted. revert s.
  induction ss as [|s' ss IH]; intros s.
  - simpl. now rewrite append_nil_r.
  - change (map (Writer.quote isPrintWide) (s :: s' :: ss))
      with (Writer.quote isPrintWide s ::
            map (Writer.quote isPrintWide) (s' :: ss)).
    cbn [Join Codec.itemsTail]. rewrite <- IH. reflexivity.
Qed.

Hypothesis table : tableOK isPrintWide = true.

(** A printable rune above ASCII may stand in a line of the subset. *)
Lemma IsPrint_lineRune (r : Z) :
  128 <= r -> ValidRune r = true -> IsPrint r = true -> lineRune r = true.
Proof.
  intros H Hv Hp. apply ValidRune_range in Hv as [Hr Hs].
  pose proof table as Ht. unfold tableOK in Ht.
  repeat (apply andb_true_iff in Ht as [Ht ?]).
  unfold Strconv.IsPrint, inRange in Hp.
  assert (Hno : r <= 255 \/
                (r <> 8232 /\ r <> 8233 /\ r <> 65534 /\ r <> 65535)).
  { destruct (Z.leb_spec r 255); [now left | right].
    repeat split; intros ->;
      match goal with
      | Hn : negb (isPrintWide ?k) = true |- _ =>
          rewrite Hp in Hn; discriminate Hn
      end. }
  assert (Hlo : r <= 255 -> 161 <= r).
  { intros Hle. rewrite (proj2 (Z.leb_le r 255) Hle) in Hp.
    revert Hp. bool_cases; cbn; intros Hp; try discriminate Hp; lia. }
  assert (Ha : allowedChar r = true).
  { unfold allowedChar.
    destruct (Z.leb_spec r 55295) as [Ha1|Ha1].
    - replace (inRange 160 55295 r) with true
        by (unfold inRange; bool_cases; (reflexivity || lia)).
      now rewrite !orb_true_r.
    - destruct (Z.leb_spec r 65533) as [Ha2|Ha2].
      + replace (inRange 57344 65533 r) with true
          by (unfold inRange; bool_cases; (reflexivity || lia)).
        now rewrite !orb_true_r.
      + replace (inRange 65536 1114111 r) with true
          by (unfold inRange; bool_cases; (reflexivity || lia)).
        now rewrite !orb_true_r. }
  unfold lineRune, blockRune, isBreak. rewrite Ha.
  repeat match goal with
         | |- context [r =? ?k] =>
             rewrite (proj2 (Z.eqb_neq r k)) by lia
         end.
  reflexivity.
Qed.

(** What Go writes for a rune may stand in a line of the subset. *)
Lemma text_chunk (x : string) (r : Z) :
  x <> "" -> DecodeRuneInString x = (r, String.length x) ->
  wellDecoded (r, x) = true ->
  text lineRune (appendEscapedRune r).
Proof.
  intros Hx H Hd.
  pose proof (proj1 (wellDecoded_decoded r x) Hd) as Hdec.
  pose proof (decode_bytes x r Hx H Hdec) as Hb.
  destruct (decode_canon x r Hx H Hdec) as (Hv & He & Hwide).
  destruct x as [|c0 [|c1 x]]; [contradiction| |].
  - destruct Hb as [-> Hlt]. apply text_printable, printable_escaped.
    now apply Z.ltb_lt.
  - specialize (Hwide ltac:(simpl; lia)).
    rewrite appendEscapedRune_wide by assumption.
    destruct (IsPrint r) eqn:Hp.
    + rewrite He, <- (append_nil_r (String c0 (String c1 x))).
      apply (text_rune lineRune _ r); [discriminate | exact H | exact Hd | |
                                         constructor].
      now apply IsPrint_lineRune.
    + pose proof (ValidRune_range r Hv) as [Hr _].
      apply text_printable.
      destruct (Z.ltb_spec r 65536) as [Hlt|Hge].
      * destruct (hex4_digits r ltac:(lia)) as (_ & _ & _ & _ & _ & _ & Hh).
        cbn [append BS allBytes]. now rewrite Hh.
      * destruct (hex8_digits r ltac:(lia))
          as (_ & _ & _ & _ & _ & _ & _ & _ & _ & _ & Hh).
        cbn [append BS allBytes]. now rewrite Hh.
Qed.

Lemma text_quoteBody (s : string) :
  wellFormed s -> text lineRune (quoteBody s).
Proof.
  unfold wellFormed.
  induction 1 as [|x r s Hx H Hd _ _ IH]; [constructor|].
  rewrite (quoteBody_rune x s r Hx H Hd).
  apply text_app; [now apply (text_chunk x)|exact IH].
Qed.

Lemma text_Quote (s : string) : wellFormed s -> text lineRune (Quote s).
Proof.
  intros H. unfold Strconv.Quote.
  apply text_app; [now apply text_printable|].
  apply text_app; [now apply text_quoteBody | now apply text_printable].
Qed.

Lemma text_itemsTail (ss : list string) :
  Forall wellFormed ss -> text lineRune (itemsTail ss).
Proof.
  induction 1 as [|s ss Hs _ IH]; [constructor|].
  cbn [Codec.itemsTail].
  apply text_app; [now apply text_printable|].
  apply text_app; [now apply text_Quote | exact IH].
Qed.

Lemma text_joinQuoted (ss : list string) :
  Forall wellFormed ss -> text lineRune (Writer.joinQuoted isPrintWide ss).
Proof.
  intros H. destruct H as [|s ss Hs Hss]; [constructor|].
  rewrite joinQuoted_cons.
  apply text_app; [now apply text_Quote | now apply text_itemsTail].
Qed.

End Tables.

End QuoteFacts.

Module YamlFacts.

Import GoStrings GoStringsFacts Utf8 Strconv Yaml Codec QuoteFacts.

Lemma isWordChar_facts (c : ascii) :
  isWordChar c = true ->
  Ascii.eqb c SP = false /\ (byte c =? 35)%Z = false /\
  (byte c =? 91)%Z = false /\ (byte c =? 34)%Z = false /\
  (byte c <? 128)%Z = true /\ printable c = true /\
  Ascii.eqb c LF = false.
Proof.
  destruct c as [b0 b1 b2 b3 b4 b5 b6 b7].
  destruct b0, b1, b2, b3, b4, b5, b6, b7; intros H;
    solve [discriminate H | repeat split; reflexivity].
Qed.

Lemma spanWord_all (s : string) :
  allBytes isWordChar s = true -> spanWord s = (s, "").
Proof.
  induction s as [|c s IH]; intros H; [reflexivity|].
  simpl in H. apply andb_true_iff in H as [Hc Hs].
  simpl. now rewrite Hc, (IH Hs).
Qed.

Lemma spanWord_key (key : string) (c : ascii) (rest : string) :
  allBytes isWordChar key = true -> isWordChar c = false ->
  spanWord (key ++ String c rest) = (key, String c rest).
Proof.
  induction key as [|k key IH]; intros H Hc.
  - simpl. now rewrite Hc.
  - simpl in H. apply andb_true_iff in H as [Hk Hs].
    simpl. now rewrite Hk, (IH Hs Hc).
Qed.

(** A line [key: text] is an entry with the value of [text]. *)
Lemma scanLine_entry (k : ascii) (key' text : string) :
  allBytes isWordChar (String k key') = true ->
  (byte k =? 45)%Z = false ->
  scanLine (entryLine (String k key') text) =
  match scanValue text with
  | Some v => LEntry (String k key') v
  | None => LBad
  end.
Proof.
  intros Hkey Hk. unfold entryLine, scanLine.
  assert (Hk' : isWordChar k = true).
  { simpl in Hkey. now apply andb_true_iff in Hkey as [? _]. }
  destruct (isWordChar_facts k Hk') as (Hsp & Hhash & _).
  cbn [append skipSpaces]. rewrite Hsp, Hhash.
  change (String k (key' ++ String ":" (String " " text)))
    with (String k key' ++ String ":" (String " " text)).
  rewrite spanWord_key by (exact Hkey || reflexivity).
  rewrite Hk. reflexivity.
Qed.

Section Tables.

Variable isPrintWide : Z -> bool.

Lemma scanScalar_Quote (s rest : string) :
  wellFormed s ->
  scanScalar (Quote isPrintWide s ++ rest) = Some (SStr s, rest).
Proof.
  intros H. unfold Quote. rewrite !append_assoc.
  change (DQ ++ quoteBody isPrintWide s ++ DQ ++ rest)
    with (String (ascii_of_nat 34) (quoteBody isPrintWide s ++ DQ ++ rest)).
  cbn [scanScalar].
  change (byte (ascii_of_nat 34) =? 34)%Z with true. cbv iota.
  now rewrite scanDQ_quoteBody.
Qed.

Lemma skipSpaces_Quote (s rest : string) :
  skipSpaces (Quote isPrintWide s ++ rest) = Quote isPrintWide s ++ rest.
Proof. reflexivity. Qed.

(** The value of a quoted valid string is the string. *)
Lemma scanValue_Quote (s : string) :
  wellFormed s ->
  scanValue (Quote isPrintWide s) = Some (VScalar (SStr s)).
Proof.
  intros H. unfold scanValue.
  rewrite <- (append_nil_r (Quote isPrintWide s)), skipSpaces_Quote.
  pose proof (scanScalar_Quote s "" H) as Hs.
  unfold Quote in *. rewrite !append_assoc in *.
  change (DQ ++ quoteBody isPrintWide s ++ DQ ++ "")
    with (String (ascii_of_nat 34) (quoteBody isPrintWide s ++ DQ ++ "")) in *.
  cbv iota.
  change (byte (ascii_of_nat 34) =? 35)%Z with false.
  change (byte (ascii_of_nat 34) =? 91)%Z with false.
  cbv iota. rewrite Hs. reflexivity.
Qed.

(** The value of a plain word, or of nothing, decodes to that text. *)
Lemma scanValue_plain (s : string) :
  plainWord s = true ->
  exists v, scanValue s = Some v /\ asString v = Some s.
Proof.
  destruct s as [|c s]; intros H.
  - exists (VScalar SNull). split; reflexivity.
  - unfold plainWord in H.
    do 4 (apply andb_true_iff in H as [H ?]).
    assert (Hc : isWordChar c = true).
    { simpl in H. now apply andb_true_iff in H as [? _]. }
    destruct (isWordChar_facts c Hc) as (Hsp & Hhash & Hbr & Hdq & _).
    exists (VScalar (SStr (String c s))). split; [|reflexivity].
    unfold scanValue. cbn [skipSpaces]. rewrite Hsp, Hhash, Hbr.
    unfold scanScalar. rewrite Hdq, Hc.
    match goal with
    | Hd : negb (byte c =? 45)%Z = true |- _ => rewrite Hd
    end.
    cbn [andb]. rewrite (spanWord_all _ H).
    unfold resolvePlain.
    repeat match goal with
           | Hn : negb (String.eqb _ _) = true |- _ =>
               apply negb_true_iff in Hn; rewrite Hn
           end.
    assert (Htilde : String.eqb (String c s) "~" = false).
    { apply String.eqb_neq. intros E. injection E as -> _. discriminate Hc. }
    rewrite Htilde. reflexivity.
Qed.

Lemma length_itemsTail (ss : list string) (rest : string) :
  (List.length ss < String.length (itemsTail isPrintWide ss ++ String "]" rest))%nat.
Proof.
  induction ss as [|s ss IH]; simpl; [lia|].
  rewrite !length_append in *. simpl in *. lia.
Qed.

Lemma scanItems_itemsTail (ss : list string) :
  forall fuel rest,
    Forall wellFormed ss ->
    (List.length ss < fuel)%nat ->
    scanItems fuel (itemsTail isPrintWide ss ++ String "]" rest) =
    Some (map SStr ss, rest).
Proof.
  induction ss as [|s ss IH]; intros fuel rest H Hf.
  - destruct fuel; [simpl in Hf; lia|]. reflexivity.
  - destruct fuel; [simpl in Hf; lia|].
    apply Forall_cons_iff in H as [Hs Hss].
    cbn [itemsTail scanItems]. cbn [append skipSpaces].
    change (Ascii.eqb "," SP) with false. cbv iota.
    change (byte "," =? 93)%Z with false.
    change (byte "," =? 44)%Z with true. cbv iota.
    cbn [skipSpaces]. change (Ascii.eqb " " SP) with true. cbv iota.
    rewrite append_assoc, skipSpaces_Quote, scanScalar_Quote by exact Hs.
    rewrite IH by (assumption || (simpl in Hf; lia)).
    reflexivity.
Qed.

(** The value of a rendered sequence is the sequence. *)
Lemma scanValue_joinQuoted (ss : list string) :
  Forall wellFormed ss ->
  scanValue ("[" ++ Writer.joinQuoted isPrintWide ss ++ "]") =
  Some (VSeq (map SStr ss)).
Proof.
  intros H. destruct ss as [|s ss]; [reflexivity|].
  apply Forall_cons_iff in H as [Hs Hss].
  rewrite joinQuoted_cons. unfold scanValue.
  cbn [append skipSpaces]. change (Ascii.eqb "[" SP) with false. cbv iota.
  change (byte "[" =? 35)%Z with false. change (byte "[" =? 91)%Z with true.
  cbv iota. unfold scanSeq.
  rewrite !append_assoc, skipSpaces_Quote.
  pose proof (scanScalar_Quote s (itemsTail isPrintWide ss ++ "]") Hs) as Hsc.
  unfold Quote in *. rewrite !append_assoc in *.
  change (DQ ++ quoteBody isPrintWide s ++ DQ ++ itemsTail isPrintWide ss ++ "]")
    with (String (ascii_of_nat 34)
                 (quoteBody isPrintWide s ++ DQ ++
                  itemsTail isPrintWide ss ++ "]")) in *.
  cbv iota. change (byte (ascii_of_nat 34) =? 93)%Z with false. cbv iota.
  rewrite Hsc.
  rewrite scanItems_itemsTail by (exact Hss || apply length_itemsTail).
  reflexivity.
Qed.

End Tables.

End YamlFacts.

Module LineFacts.

Import GoStrings GoStringsFacts Utf8 Yaml Codec BytesFacts TextFacts
       QuoteFacts.

Lemma notLF_spec (c : ascii) : notLF c = true -> Ascii.eqb c LF = false.
Proof. apply negb_true_iff. Qed.

Lemma splitLines_one (a : string) :
  allBytes notLF a = true -> splitLines a = [a].
Proof.
  induction a as [|c a IH]; intros H; [reflexivity|].
  simpl in H. apply andb_true_iff in H as [Hc Ha].
  simpl. now rewrite (notLF_spec _ Hc), (IH Ha).
Qed.

Lemma splitLines_line (a rest : string) :
  allBytes notLF a = true ->
  splitLines (a ++ NL ++ rest) = a :: splitLines rest.
Proof.
  induction a as [|c a IH]; intros H; [reflexivity|].
  simpl in H. apply andb_true_iff in H as [Hc Ha].
  cbn [append splitLines]. rewrite (notLF_spec _ Hc).
  change (String LF rest) with (NL ++ rest). now rewrite (IH Ha).
Qed.

Lemma Join_cons2 (l l' : string) (ls : list string) (sep : string) :
  Join (l :: l' :: ls) sep = l ++ sep ++ Join (l' :: ls) sep.
Proof. reflexivity. Qed.

(** The lines of a text joined from lines are those lines. *)
Lemma splitLines_Join (lines : list string) :
  lines <> [] ->
  forallb lineOK lines = true ->
  splitLines (Join lines NL) = lines.
Proof.
  induction lines as [|l ls IH]; intros Hne H; [contradiction|].
  simpl in H. apply andb_true_iff in H as [Hl Hls].
  apply andb_true_iff in Hl as [Hl _].
  destruct ls as [|l' ls].
  - simpl. now apply splitLines_one.
  - rewrite Join_cons2, splitLines_line by exact Hl.
    rewrite IH by (discriminate || exact Hls). reflexivity.
Qed.

(** Scanning over a stretch without line feed, the closing delimiter is
    not found. *)
Lemma indexFrom_skip (a rest : string) :
  allBytes notLF a = true ->
  indexFrom (a ++ rest) closing =
  option_map (Nat.add (String.length a)) (indexFrom rest closing).
Proof.
  induction a as [|c a IH]; intros H.
  - simpl. now destruct (indexFrom rest closing).
  - simpl in H. apply andb_true_iff in H as [Hc Ha].
    change (String c a ++ rest) with (String c (a ++ rest)).
    rewrite indexFrom_next.
    + rewrite (IH Ha). now destruct (indexFrom rest closing).
    + unfold closing, NL. cbn [append HasPrefix].
      now rewrite (notLF_spec _ Hc).
Qed.

Lemma HasPrefix_dash (l rest : string) :
  lineOK l = true ->
  HasPrefix (l ++ NL ++ rest) "---" = false.
Proof.
  intros H. apply andb_true_iff in H as [_ H]. apply negb_true_iff in H.
  destruct l as [|c l]; [reflexivity|].
  cbn [append HasPrefix] in *.
  destruct (Ascii.eqb c "-"); [discriminate H | reflexivity].
Qed.

(** In a text joined from such lines and followed by the closing
    delimiter, the delimiter is first found at the end of the lines. *)
Lemma indexFrom_lines (lines : list string) (post : string) :
  lines <> [] ->
  forallb lineOK lines = true ->
  indexFrom (Join lines NL ++ closing ++ post) closing =
  Some (String.length (Join lines NL)).
Proof.
  induction lines as [|l ls IH]; intros Hne H; [contradiction|].
  simpl in H. apply andb_true_iff in H as [Hl Hls].
  pose proof Hl as Hl0. apply andb_true_iff in Hl as [Hl _].
  destruct ls as [|l' ls].
  - cbn [Join]. rewrite indexFrom_skip by exact Hl.
    rewrite indexFrom_here by apply HasPrefix_app.
    simpl. f_equal. lia.
  - rewrite Join_cons2, !append_assoc, indexFrom_skip by exact Hl.
    assert (Hl' : lineOK l' = true).
    { simpl in Hls. now apply andb_true_iff in Hls as [? _]. }
    change (NL ++ Join (l' :: ls) NL ++ closing ++ post)
      with (String LF (Join (l' :: ls) NL ++ closing ++ post)).
    rewrite indexFrom_next.
    + rewrite IH by (discriminate || exact Hls). cbn [option_map].
      rewrite !length_append. change (String.length NL) with 1%nat.
      f_equal; lia.
    + unfold closing at 2. change (NL ++ "---") with (String LF "---").
      cbn [HasPrefix]. rewrite Ascii.eqb_refl.
      cbn [andb]. destruct ls as [|l'' ls].
      * cbn [Join]. unfold closing. rewrite !append_assoc.
        now apply HasPrefix_dash.
      * rewrite Join_cons2, !append_assoc. now apply HasPrefix_dash.
Qed.

(** A line of the rendered frontmatter holds no line feed. *)
Lemma wellLine_lineOK (l : string) : wellLine l -> lineOK l = true.
Proof.
  intros [Ht Hd]. unfold lineOK. rewrite Hd, andb_true_r.
  eapply allBytes_impl; [|exact (text_bytes _ _ Ht)].
  intros c Hc. unfold notLF.
  destruct (Ascii.eqb_spec c LF) as [->|]; [discriminate Hc | reflexivity].
Qed.

Lemma wellLines_lineOK (lines : list string) :
  Forall wellLine lines -> forallb lineOK lines = true.
Proof.
  induction 1 as [|l ls Hl _ IH]; [reflexivity|].
  simpl. now rewrite (wellLine_lineOK l Hl), IH.
Qed.

(** Lines joined with line feeds are a document of the subset. *)
Lemma text_Join (lines : list string) :
  Forall wellLine lines -> text blockRune (Join lines NL).
Proof.
  assert (Hweak : forall l, wellLine l -> text blockRune l).
  { intros l [Ht _]. eapply text_impl; [|exact Ht].
    intros r Hr. unfold lineRune in Hr.
    now apply andb_true_iff in Hr as [? _]. }
  induction 1 as [|l ls Hl Hls IH]; [constructor|].
  destruct ls as [|l' ls]; [now apply Hweak|].
  rewrite Join_cons2.
  apply text_app; [now apply Hweak|].
  apply text_app; [|exact IH].
  now apply text_ascii.
Qed.

(** The reader accepts a document of the subset, and finds no line break
    in it but the line feed. *)
Lemma readerOK_text (s : string) :
  text blockRune s -> readerOK s = true /\ lineFeedsOnly s = true.
Proof.
  intros H. pose proof (text_runes _ _ H) as Hr.
  rewrite forallb_forall in Hr.
  unfold readerOK, lineFeedsOnly. split; apply forallb_forall; intros rb Hin;
    specialize (Hr rb Hin); apply andb_true_iff in Hr as [Hd Hb];
    unfold blockRune in Hb; apply andb_true_iff in Hb as [Ha Hn].
  - now rewrite Hd, Ha.
  - exact Hn.
Qed.

End LineFacts.

Module RoundTrip.

Import GoStrings GoStringsFacts Utf8 Strconv Yaml Codec BytesFacts TextFacts
       QuoteFacts YamlFacts LineFacts.

Lemma scanLines_skip (l : string) (ls : list string) :
  scanLine l = LSkip -> scanLines (l :: ls) = scanLines ls.
Proof. intros H. cbn [scanLines]. rewrite H. now destruct (scanLines ls). Qed.

Lemma scanLines_entry (l : string) (ls : list string) (k : string) (v : value) :
  scanLine l = LEntry k v ->
  scanLines (l :: ls) = option_map (cons (k, v)) (scanLines ls).
Proof. intros H. cbn [scanLines]. rewrite H. now destruct (scanLines ls). Qed.

Lemma plainWord_printable (s : string) :
  plainWord s = true -> allBytes printable s = true.
Proof.
  destruct s as [|c s]; intros H; [reflexivity|].
  unfold plainWord in H. do 4 (apply andb_true_iff in H as [H _]).
  eapply allBytes_impl; [|exact H].
  intros x Hx. now destruct (isWordChar_facts x Hx) as (_ & _ & _ & _ & _ & ? & _).
Qed.

(** A literal of the template, alone on its line or before a value. *)
Lemma wellLine_literal (lit : string) :
  allBytes printable lit = true -> HasPrefix lit "-" = false ->
  wellLine lit.
Proof. intros Hp Hd. split; [now apply text_printable | exact Hd]. Qed.

Lemma wellLine_entry (lit : string) (c : ascii) (x : string) :
  allBytes printable (String c lit) = true -> Ascii.eqb c "-" = false ->
  text lineRune x -> wellLine (String c lit ++ x).
Proof.
  intros Hp Hd Hx. split.
  - apply text_app; [now apply text_printable | exact Hx].
  - cbn [append HasPrefix]. now rewrite Hd.
Qed.

Lemma forallb_validUTF8 (ss : list string) :
  forallb validUTF8 ss = true -> Forall wellFormed ss.
Proof.
  induction ss as [|s ss IH]; intros H; [constructor|].
  simpl in H. apply andb_true_iff in H as [Hs Hss].
  constructor; [now apply validUTF8_text | now apply IH].
Qed.

Section Tables.

Variable isPrintWide : Z -> bool.

Local Abbreviation Quote := (Strconv.Quote isPrintWide).
Local Abbreviation joinQuoted := (Writer.joinQuoted isPrintWide).

Lemma holonFrontmatter_lines (id : Identity) :
  Writer.holonFrontmatter isPrintWide id =
  Join (frontmatterLines isPrintWide id) NL.
Proof.
  unfold Writer.holonFrontmatter, frontmatterLines. cbn [Join].
  rewrite !append_assoc. reflexivity.
Qed.

Lemma scanLine_Quote (k : ascii) (key' s : string) :
  allBytes isWordChar (String k key') = true ->
  (byte k =? 45)%Z = false ->
  validUTF8 s = true ->
  scanLine (entryLine (String k key') (Quote s)) =
  LEntry (String k key') (VScalar (SStr s)).
Proof.
  intros Hk Hd Hs. rewrite scanLine_entry by assumption.
  now rewrite scanValue_Quote by now apply validUTF8_text.
Qed.

Lemma scanLine_joinQuoted (k : ascii) (key' : string) (ss : list string) :
  allBytes isWordChar (String k key') = true ->
  (byte k =? 45)%Z = false ->
  forallb validUTF8 ss = true ->
  scanLine (entryLine (String k key') ("[" ++ joinQuoted ss ++ "]")) =
  LEntry (String k key') (VSeq (map SStr ss)).
Proof.
  intros Hk Hd Hs. rewrite scanLine_entry by assumption.
  now rewrite scanValue_joinQuoted by now apply forallb_validUTF8.
Qed.

Lemma scanLine_plain (k : ascii) (key' s : string) :
  allBytes isWordChar (String k key') = true ->
  (byte k =? 45)%Z = false ->
  plainWord s = true ->
  exists v, scanLine (entryLine (String k key') s) = LEntry (String k key') v /\
            asString v = Some s.
Proof.
  intros Hk Hd Hs. rewrite scanLine_entry by assumption.
  destruct (scanValue_plain s Hs) as (v & -> & Hv). now exists v.
Qed.

(** The entries that the decoder reads in the rendered frontmatter. *)
Lemma scanLines_frontmatter (id : Identity) :
  plainRecord id = true ->
  exists vs vp,
    asString vs = Some (Status id) /\
    asString vp = Some (ProtoStatus id) /\
    scanLines (frontmatterLines isPrintWide id) =
    Some [("uuid", VScalar (SStr (UUID id)));
          ("given_name", VScalar (SStr (GivenName id)));
          ("family_name", VScalar (SStr (FamilyName id)));
          ("motto", VScalar (SStr (Motto id)));
          ("composer", VScalar (SStr (Composer id)));
          ("clade", VScalar (SStr (Clade id)));
          ("status", vs);
          ("born", VScalar (SStr (Born id)));
          ("parents", VSeq (map SStr (Parents id)));
          ("reproduction", VScalar (SStr (Reproduction id)));
          ("aliases", VSeq (map SStr (Aliases id)));
          ("generated_by", VScalar (SStr (GeneratedBy id)));
          ("lang", VScalar (SStr (Lang id)));
          ("proto_status", vp)].
Proof.
  intros H. unfold plainRecord in H.
  repeat (apply andb_true_iff in H as [H ?]).
  destruct (scanLine_plain "s" "tatus" (Status id) eq_refl eq_refl)
    as (vs & Hvs & Hs); [assumption|].
  destruct (scanLine_plain "p" "roto_status" (ProtoStatus id) eq_refl eq_refl)
    as (vp & Hvp & Hp); [assumption|].
  exists vs, vp. split; [exact Hs|]. split; [exact Hp|].
  unfold frontmatterLines.
  rewrite (scanLines_skip "# Holon Identity v1") by reflexivity.
  rewrite (scanLines_entry _ _ _ _
             (scanLine_Quote "u" "uid" (UUID id) eq_refl eq_refl H)).
  rewrite (scanLines_entry _ _ _ _
             (scanLine_Quote "g" "iven_name" (GivenName id) eq_refl eq_refl
                             ltac:(assumption))).
  rewrite (scanLines_entry _ _ _ _
             (scanLine_Quote "f" "amily_name" (FamilyName id) eq_refl eq_refl
                             ltac:(assumption))).
  rewrite (scanLines_entry _ _ _ _
             (scanLine_Quote "m" "otto" (Motto id) eq_refl eq_refl
                             ltac:(assumption))).
  rewrite (scanLines_entry _ _ _ _
             (scanLine_Quote "c" "omposer" (Composer id) eq_refl eq_refl
                             ltac:(assumption))).
  rewrite (scanLines_entry _ _ _ _
             (scanLine_Quote "c" "lade" (Clade id) eq_refl eq_refl
                             ltac:(assumption))).
  rewrite (scanLines_entry _ _ _ _ Hvs).
  rewrite (scanLines_entry _ _ _ _
             (scanLine_Quote "b" "orn" (Born id) eq_refl eq_refl
                             ltac:(assumption))).
  rewrite (scanLines_skip "") by reflexivity.
  rewrite (scanLines_skip "# Lineage") by reflexivity.
  rewrite (scanLines_entry _ _ _ _
             (scanLine_joinQuoted "p" "arents" (Parents id) eq_refl eq_refl
                                  ltac:(assumption))).
  rewrite (scanLines_entry _ _ _ _
             (scanLine_Quote "r" "eproduction" (Reproduction id) eq_refl
                             eq_refl ltac:(assumption))).
  rewrite (scanLines_skip "") by reflexivity.
  rewrite (scanLines_skip "# Optional") by reflexivity.
  rewrite (scanLines_entry _ _ _ _
             (scanLine_joinQuoted "a" "liases" (Aliases id) eq_refl eq_refl
                                  ltac:(assumption))).
  rewrite (scanLines_skip "") by reflexivity.
  rewrite (scanLines_skip "# Metadata") by reflexivity.
  rewrite (scanLines_entry _ _ _ _
             (scanLine_Quote "g" "enerated_by" (GeneratedBy id) eq_refl
                             eq_refl ltac:(assumption))).
  rewrite (scanLines_entry _ _ _ _
             (scanLine_Quote "l" "ang" (Lang id) eq_refl eq_refl
                             ltac:(assumption))).
  rewrite (scanLines_entry _ _ _ _ Hvp).
  reflexivity.
Qed.

Lemma map_scalarString (ss : list string) : map scalarString (map SStr ss) = ss.
Proof. induction ss as [|s ss IH]; simpl; [reflexivity | now rewrite IH]. Qed.

Lemma afterOpening_template (id : Identity) :
  afterOpening (Writer.holonTemplate isPrintWide id) =
  Writer.holonFrontmatter isPrintWide id ++ closing ++
  Writer.holonBody id.
Proof.
  unfold Writer.holonTemplate, afterOpening, closing.
  now rewrite !append_assoc.
Qed.

Hypothesis table : tableOK isPrintWide = true.

(** Every line of the rendered frontmatter is a line of the subset. *)
Lemma frontmatterLines_ok (id : Identity) :
  plainRecord id = true ->
  Forall wellLine (frontmatterLines isPrintWide id).
Proof.
  intros H. unfold plainRecord in H.
  repeat (apply andb_true_iff in H as [H ?]).
  unfold frontmatterLines.
  repeat (apply Forall_cons;
          [ first [ apply wellLine_literal; reflexivity
                  | apply wellLine_entry; [reflexivity | reflexivity |];
                    first [ apply (text_Quote isPrintWide table);
                            now apply validUTF8_text
                          | apply text_printable; now apply plainWord_printable
                          | apply text_app;
                            [ apply (text_joinQuoted isPrintWide table);
                              now apply forallb_validUTF8
                            | now apply text_printable ] ] ] |]).
  apply Forall_nil.
Qed.

(** The decoder reads the rendered frontmatter back into the record. *)
Lemma Unmarshal_frontmatter (id : Identity) :
  plainRecord id = true ->
  Yaml.Unmarshal (Writer.holonFrontmatter isPrintWide id) zeroIdentity
  = (id, None).
Proof.
  intros H. unfold Yaml.Unmarshal.
  pose proof (frontmatterLines_ok id H) as Hok.
  rewrite holonFrontmatter_lines.
  destruct (readerOK_text _ (text_Join _ Hok)) as [-> ->].
  rewrite splitLines_Join by (discriminate || now apply wellLines_lineOK).
  destruct (scanLines_frontmatter id H) as (vs & vp & Hs & Hp & ->).
  match goal with
  | |- context [uniqueKeys ?es] => change (uniqueKeys es) with true
  end.
  cbn [negb]. unfold zeroIdentity.
  cbn [setFields setField String.eqb Ascii.eqb Bool.eqb option_map asString
       asStrings scalarString andb].
  rewrite Hs.
  cbn [setFields setField String.eqb Ascii.eqb Bool.eqb option_map asString
       asStrings scalarString andb].
  rewrite Hp. cbn [option_map]. rewrite !map_scalarString.
  destruct id; reflexivity.
Qed.

End Tables.

End RoundTrip.

(** C1, as the code has it.  Let the tables of [strconv] list neither
    U+2028 nor U+2029 nor U+FFFE nor U+FFFF as printable.  For every
    record whose [status] and [proto_status], which the template writes
    unquoted, are empty or plain words (letters, digits, [_] and [-], not
    starting with [-], other than [null], [Null] and [NULL]), and whose
    other fields and sequence elements are valid UTF-8: the text that
    [holonTemplate] renders decodes, with [ParseFrontmatter], to that very
    record, every field and both sequences included, with the rendered
    body and no error. *)
Theorem roundtrip_of_plain_records :
  forall (isPrintWide : Z -> bool) (id : Identity),
    Codec.tableOK isPrintWide = true ->
    Codec.plainRecord id = true ->
    Registry.ParseFrontmatter Yaml.Unmarshal
                              (Writer.holonTemplate isPrintWide id)
    = (id, Writer.holonBody id, None).
Proof.
  intros isPrintWide id Ht H.
  rewrite CodecFacts.ParseFrontmatter_unfold.
  change (GoStrings.HasPrefix (Writer.holonTemplate isPrintWide id) "---")
    with true.
  cbn [negb]. rewrite RoundTrip.afterOpening_template.
  rewrite RoundTrip.holonFrontmatter_lines at 1.
  rewrite LineFacts.indexFrom_lines
    by (discriminate ||
        now apply LineFacts.wellLines_lineOK, RoundTrip.frontmatterLines_ok).
  rewrite <- RoundTrip.holonFrontmatter_lines.
  rewrite GoStringsFacts.take_app, RoundTrip.Unmarshal_frontmatter
    by assumption.
  rewrite <- GoStringsFacts.drop_drop, GoStringsFacts.drop_app.
  reflexivity.
Qed.

Lemma roundtrip_of_plain_records_witness :
  Codec.tableOK Codec.latinExtended = true /\
  Codec.plainRecord Codec.accented = true /\
  Registry.ParseFrontmatter
    Yaml.Unmarshal
    (Writer.holonTemplate Codec.latinExtended Codec.accented)
  = (Codec.accented, Writer.holonBody Codec.accented, None).
Proof.
  split; [reflexivity|]. split; [reflexivity|].
  apply (roundtrip_of_plain_records Codec.latinExtended Codec.accented);
    reflexivity.
Defined.

(** What the template writes for the motto of that record. *)
Example accented_motto_line :
  nth 4 (Codec.frontmatterLines Codec.latinExtended Codec.accented) "" =
  "motto: " ++ Strconv.DQ ++ "Conna" ++ Utf8.encode 238 ++ "s-toi" ++
  Strconv.BS ++ "u00a0" ++ Utf8.encode 339 ++ Strconv.BS ++ "U0001f600" ++
  Strconv.DQ.
Proof. vm_compute. reflexivity. Qed.

(** C1, the claim as stated fails, whatever the YAML decoder is.  The two
    records [cutRecord "2026-02-12"] and [cutRecord "1999-01-01"] differ
    in [born] only, and their status holds a line feed followed by three
    dashes.  [ParseFrontmatter] takes the first line feed followed by
    three dashes for the end of the block, so for both records it hands
    the decoder the same text, which ends inside the status line: no
    decoder, and no Unicode table, makes both come back. *)
Lemma roundtrip_cut_by_status :
  ~ (exists (yaml_Unmarshal : string -> Identity -> Identity * option error)
            (isPrintWide : Z -> bool),
        fst (fst (Registry.ParseFrontmatter
                    yaml_Unmarshal
                    (Writer.holonTemplate isPrintWide
                                          (Codec.cutRecord "2026-02-12"))))
        = Codec.cutRecord "2026-02-12" /\
        fst (fst (Registry.ParseFrontmatter
                    yaml_Unmarshal
                    (Writer.holonTemplate isPrintWide
                                          (Codec.cutRecord "1999-01-01"))))
        = Codec.cutRecord "1999-01-01").
Proof.
  intros (yaml_Unmarshal & isPrintWide & HA & HB).
  vm_compute in HA, HB.
  match type of HA with
  | context [yaml_Unmarshal ?b ?z] =>
      destruct (yaml_Unmarshal b z) as [id [e|]]
  end.
  - discriminate HA.
  - rewrite HA in HB. discriminate HB.
Qed.

(** The same loss on the model of the decoder, for two records one could
    meet: the status [null] comes back empty, since an unquoted [null] is
    the null of YAML; and a byte that is not UTF-8, which Go quotes as
    [\xff], comes back as the two bytes of U+00FF. *)
Example status_null_comes_back_empty :
  fst (fst (Registry.ParseFrontmatter
              Yaml.Unmarshal
              (Writer.holonTemplate (fun _ => false) (Codec.sophia "null"))))
  = Codec.sophia "".
Proof. vm_compute. reflexivity. Qed.

Example invalid_utf8_comes_back_changed :
  let raw := String (ascii_of_nat 255) "" in
  let id := mkIdentity raw "" "" "" "" "" "draft" "" [] "" [] "" "" "draft" in
  UUID (fst (fst (Registry.ParseFrontmatter
                    Yaml.Unmarshal
                    (Writer.holonTemplate (fun _ => false) id))))
  = String (ascii_of_nat 195) (String (ascii_of_nat 191) "").
Proof. vm_compute. reflexivity. Qed.

(* ================================================================== *)
(** * Further properties *)
(* ================================================================== *)

(** The frame of a record *)

Module SplitFacts.

Import GoStrings GoStringsFacts Codec CodecFacts.

(** [indexFrom] finds an occurrence that starts no later than any given
    one. *)
Lemma indexFrom_le (sep pre post : string) :
  exists j, indexFrom (pre ++ sep ++ post) sep = Some j /\
            (j <= String.length pre)%nat.
Proof.
  induction pre as [|c pre (j & Hj & Hle)].
  - exists 0%nat. split; [|simpl; lia].
    cbn [append]. apply indexFrom_here, HasPrefix_app.
  - cbn [append indexFrom].
    destruct (HasPrefix (String c (pre ++ sep ++ post)) sep).
    + exists 0%nat. split; [reflexivity | simpl; lia].
    + exists (S j). rewrite Hj. split; [reflexivity | simpl; lia].
Qed.

(** What lies before the first occurrence holds no occurrence. *)
Lemma indexFrom_minimal (s sep : string) (i : nat) :
  sep <> "" -> indexFrom s sep = Some i -> ~ occursIn sep (take i s).
Proof.
  intros Hsep Hi (pre & post & E).
  pose proof (indexFrom_Some s sep i Hi) as Hs.
  rewrite E, !append_assoc in Hs.
  destruct (indexFrom_le sep pre
              (post ++ sep ++ drop (i + String.length sep) s))
    as (j & Hj & Hle).
  rewrite <- Hs, Hi in Hj. injection Hj as <-.
  assert (Hlen : String.length (take i s) =
                 (String.length pre + String.length sep +
                  String.length post)%nat).
  { rewrite E, !length_append. lia. }
  assert (Hi' : (String.length (take i s) <= i)%nat).
  { clear. revert s. induction i as [|i IH]; intros [|c s]; simpl; try lia.
    specialize (IH s). lia. }
  destruct sep; [contradiction|]. simpl in Hlen. lia.
Qed.

End SplitFacts.

(** X1.  What [ParseFrontmatter] accepts, it splits without loss.  When it
    returns a record and no error, the content is the three dashes, the
    line feed that may follow them, a block, a line feed with three
    dashes, and the returned body, in this order and with nothing else;
    the block holds no line feed followed by three dashes, and it is the
    text that the decoder turned into the returned record. *)
Theorem ParseFrontmatter_splits_content :
  forall (yaml_Unmarshal : string -> Identity -> Identity * option error)
         (data : string) (id : Identity) (body : string),
    Registry.ParseFrontmatter yaml_Unmarshal data = (id, body, None) ->
    exists opening block,
      (opening = "---" \/ opening = "---" ++ GoStrings.NL) /\
      data = opening ++ block ++ Codec.closing ++ body /\
      ~ Codec.occursIn Codec.closing block /\
      yaml_Unmarshal block zeroIdentity = (id, None).
Proof.
  intros yaml_Unmarshal data id body H.
  rewrite CodecFacts.ParseFrontmatter_unfold in H.
  destruct (GoStrings.HasPrefix data "---") eqn:Hp; [|discriminate H].
  cbn [negb] in H.
  destruct (GoStrings.indexFrom (Codec.afterOpening data) Codec.closing)
    as [i|] eqn:Hi; [|discriminate H].
  destruct (yaml_Unmarshal (GoStrings.take i (Codec.afterOpening data))
                           zeroIdentity) as [id' [e|]] eqn:Hy;
    [discriminate H|].
  injection H as <- <-.
  pose proof (GoStringsFacts.indexFrom_Some _ _ _ Hi) as Hs.
  change (String.length Codec.closing) with 4%nat in Hs.
  apply GoStringsFacts.HasPrefix_inv in Hp as [rest Hd].
  assert (Ho : exists opening,
             (opening = "---" \/ opening = "---" ++ GoStrings.NL) /\
             data = opening ++ Codec.afterOpening data).
  { unfold Codec.afterOpening. rewrite Hd. cbn [GoStrings.drop append].
    destruct rest as [|c rest]; [exists "---"; split; [now left | reflexivity]|].
    destruct (Ascii.eqb_spec c GoStrings.LF) as [->|].
    - exists ("---" ++ GoStrings.NL). split; [now right | reflexivity].
    - exists "---". split; [now left | reflexivity]. }
  destruct Ho as (opening & Hopen & Hdata).
  exists opening, (GoStrings.take i (Codec.afterOpening data)).
  split; [exact Hopen|]. split; [|split].
  - rewrite Hdata at 1. now rewrite <- Hs.
  - apply SplitFacts.indexFrom_minimal; [discriminate | exact Hi].
  - exact Hy.
Qed.

Lemma ParseFrontmatter_splits_content_witness :
  Registry.ParseFrontmatter
    Yaml.Unmarshal (Fixtures.holonText "aaaa-1111" "Alpha")
  = (mkIdentity "aaaa-1111" "Alpha" "Test" "" "" "" "draft" "" [] "" [] "" "" "",
     GoStrings.NL, None) /\
  exists opening block,
    (opening = "---" \/ opening = "---" ++ GoStrings.NL) /\
    Fixtures.holonText "aaaa-1111" "Alpha" =
      opening ++ block ++ Codec.closing ++ GoStrings.NL /\
    ~ Codec.occursIn Codec.closing block /\
    Yaml.Unmarshal block zeroIdentity =
      (mkIdentity "aaaa-1111" "Alpha" "Test" "" "" "" "draft" "" [] "" [] "" "" "",
       None).
Proof.
  assert (H : Registry.ParseFrontmatter
                Yaml.Unmarshal (Fixtures.holonText "aaaa-1111" "Alpha")
              = (mkIdentity "aaaa-1111" "Alpha" "Test" "" "" "" "draft" ""
                            [] "" [] "" "" "",
                 GoStrings.NL, None)) by (vm_compute; reflexivity).
  split; [exact H|].
  exact (ParseFrontmatter_splits_content _ _ _ _ H).
Defined.

(** X2.  An empty frontmatter is refused as unclosed.  The line feed after
    the opening dashes is consumed with them, so when the closing dashes
    stand on the very next line no line feed is left before them: unless
    a line feed with three dashes occurs further on, the decode fails with
    "unclosed YAML frontmatter", whatever the decoder is. *)
Theorem empty_frontmatter_is_unclosed :
  forall (yaml_Unmarshal : string -> Identity -> Identity * option error)
         (tail : string),
    ~ Codec.occursIn Codec.closing tail ->
    Registry.ParseFrontmatter yaml_Unmarshal
      ("---" ++ GoStrings.NL ++ "---" ++ tail)
    = (zeroIdentity, "", Some (errorString "unclosed YAML frontmatter")).
Proof.
  intros yaml_Unmarshal tail Hno.
  rewrite CodecFacts.ParseFrontmatter_unfold.
  change (GoStrings.HasPrefix ("---" ++ GoStrings.NL ++ "---" ++ tail) "---")
    with true.
  cbn [negb].
  change (Codec.afterOpening ("---" ++ GoStrings.NL ++ "---" ++ tail))
    with ("---" ++ tail).
  destruct (GoStrings.indexFrom ("---" ++ tail) Codec.closing) as [i|] eqn:Hi;
    [|reflexivity].
  exfalso. apply Hno.
  pose proof (GoStringsFacts.indexFrom_Some _ _ _ Hi) as Hs.
  destruct i as [|[|[|i]]]; cbn [GoStrings.take append] in Hs;
    try discriminate Hs.
  injection Hs as Hs. eexists _, _. exact Hs.
Qed.

Lemma empty_frontmatter_is_unclosed_witness :
  ~ Codec.occursIn Codec.closing (GoStrings.NL ++ "# Title") /\
  Registry.ParseFrontmatter Yaml.Unmarshal
    ("---" ++ GoStrings.NL ++ "---" ++ GoStrings.NL ++ "# Title")
  = (zeroIdentity, "", Some (errorString "unclosed YAML frontmatter")).
Proof.
  assert (H : ~ Codec.occursIn Codec.closing (GoStrings.NL ++ "# Title")).
  { intros (pre & post & E).
    apply (GoStringsFacts.indexFrom_None (GoStrings.NL ++ "# Title")
             Codec.closing eq_refl pre post E). }
  split; [exact H|].
  exact (empty_frontmatter_is_unclosed Yaml.Unmarshal _ H).
Defined.

(** Counting in a scan *)

Module CountFacts.

Import GoStrings Filepath Traversal Trace ScanTheory ProgressFacts.

Section Count.

Variable yaml_Unmarshal : string -> Identity -> Identity * option error.

Local Abbreviation holonsIn := (holonsIn yaml_Unmarshal).
Local Abbreviation fileTrace := (fileTrace yaml_Unmarshal).

Lemma length_holonsIn (files : list (string * DirEntry)) :
  (List.length (holonsIn files) <= List.length files)%nat.
Proof.
  induction files as [|[p d] files IH]; simpl; [lia|].
  destruct (decodeHolon yaml_Unmarshal d); simpl; lia.
Qed.

(** While files are examined, no report counts more records than files. *)
Lemma found_le_scanned (N : Z) (files : list (string * DirEntry)) :
  forall i k,
    (0 <= k <= i)%Z ->
    Forall (fun q => (0 <= HolonsFound q <= ScannedFiles q)%Z)
           (progressOf (fileTrace N i k files)).
Proof.
  induction files as [|[p d] files IH]; intros i k Hk; [constructor|].
  rewrite progressOf_fileTrace_cons. apply Forall_app. split.
  - destruct (reportDue N (i + 1)); constructor; [|constructor].
    cbn [HolonsFound ScannedFiles]. lia.
  - apply IH. destruct (decodeHolon yaml_Unmarshal d); lia.
Qed.

End Count.

Lemma div_succ (N a : Z) :
  (0 < N)%Z -> (0 <= a)%Z ->
  ((a + 1) / N = a / N + (if (a + 1) mod N =? 0 then 1 else 0))%Z.
Proof.
  intros HN Ha.
  pose proof (Z.div_mod a N ltac:(lia)) as Hdm.
  pose proof (Z.mod_pos_bound a N HN) as Hr.
  destruct (Z.eq_dec (a mod N) (N - 1)) as [E|E].
  - rewrite <- (Z.mod_unique (a + 1) N (a / N + 1) 0) by lia.
    cbn [Z.eqb]. symmetry. apply (Z.div_unique _ _ _ 0); lia.
  - rewrite <- (Z.mod_unique (a + 1) N (a / N) (a mod N + 1)) by lia.
    rewrite (proj2 (Z.eqb_neq _ 0)) by lia.
    symmetry. rewrite Z.add_0_r. apply (Z.div_unique _ _ _ (a mod N + 1)); lia.
Qed.

(** The multiples of [N] among [1 .. n] are [n / N] many. *)
Lemma count_multiples (N : Z) (n : nat) :
  (0 < N)%Z ->
  Z.of_nat (List.length (List.filter (positiveMultiple N)
                                     (map Z.of_nat (seq 1 n)))) =
  (Z.of_nat n / N)%Z.
Proof.
  intros HN. induction n as [|n IH].
  - simpl. now rewrite Z.div_0_l by lia.
  - rewrite seq_S, map_app, List.filter_app, length_app, Nat2Z.inj_add, IH.
    cbn [map List.filter]. unfold positiveMultiple.
    rewrite (proj2 (Z.ltb_lt 0 N) HN).
    rewrite (proj2 (Z.ltb_lt 0 (Z.of_nat (1 + n)))) by lia.
    cbn [andb].
    replace (Z.of_nat (S n)) with (Z.of_nat n + 1)%Z by lia.
    replace (Z.of_nat (1 + n)) with (Z.of_nat n + 1)%Z by lia.
    rewrite (div_succ N (Z.of_nat n)) by lia.
    now destruct ((Z.of_nat n + 1) mod N =? 0)%Z.
Qed.

End CountFacts.

(** X3.  In every progress report of a scan the number of records found
    is at most the number of files examined, and neither is negative:
    whatever the tree, the interval and the decoder. *)
Theorem found_at_most_scanned :
  forall (yaml_Unmarshal : string -> Identity -> Identity * option error)
         (Join : string -> string -> string)
         (fs : FileSystem) (root : string) (N : Z),
    Forall (fun q => (0 <= HolonsFound q <= ScannedFiles q)%Z)
           (Trace.progressOf
              (Trace.scanTrace yaml_Unmarshal Join fs root N)).
Proof.
  intros yaml_Unmarshal Join fs root N.
  rewrite ScanTheory.scanTrace_whole. unfold Trace.wholeTrace.
  rewrite ScanTheory.progressOf_app. apply Forall_app. split.
  - apply CountFacts.found_le_scanned. lia.
  - cbn [Trace.progressOf]. constructor; [|constructor].
    cbn [HolonsFound ScannedFiles].
    pose proof (CountFacts.length_holonsIn yaml_Unmarshal
                  (Trace.visibleFiles Join fs root)).
    lia.
Qed.

(** X4.  The number of progress reports.  A scan with a positive interval
    [N] over a tree in which it examines [n] files calls the progress
    callback [n / N + 1] times (integer division): once for each multiple
    of [N] reached, and once at the end.  With an interval above the
    number of files it reports once. *)
Theorem number_of_progress_reports :
  forall (yaml_Unmarshal : string -> Identity -> Identity * option error)
         (Join : string -> string -> string)
         (fs : FileSystem) (root : string) (N : Z),
    (0 < N)%Z ->
    let n := Z.of_nat (List.length (Trace.visibleFiles Join fs root)) in
    Z.of_nat (List.length
                (Trace.progressOf
                   (Trace.scanTrace yaml_Unmarshal Join fs root N)))
    = (n / N + 1)%Z
    /\ ((n < N)%Z ->
        Trace.progressOf (Trace.scanTrace yaml_Unmarshal Join fs root N) =
        [mkProgress n
           (Z.of_nat (List.length
                        (Trace.holonsIn yaml_Unmarshal
                           (Trace.visibleFiles Join fs root))))]).
Proof.
  intros yaml_Unmarshal Join fs root N HN n.
  rewrite ScanTheory.scanTrace_whole. unfold Trace.wholeTrace.
  rewrite ScanTheory.progressOf_app. cbn [Trace.progressOf].
  pose proof (ProgressFacts.scanned_fileTrace yaml_Unmarshal (Trace.clamp N)
                (Trace.visibleFiles Join fs root) 0 0) as Hsc.
  change (Z.of_nat 0) with 0%Z in Hsc.
  rewrite (List.filter_ext _ _ (ProgressFacts.reportDue_clamp N)) in Hsc.
  pose proof (CountFacts.count_multiples
                N (List.length (Trace.visibleFiles Join fs root)) HN) as Hc.
  rewrite <- Hsc, length_map in Hc.
  split.
  - rewrite length_app, Nat2Z.inj_add, Hc. reflexivity.
  - intros Hlt. fold n in Hc. rewrite Z.div_small in Hc by lia.
    destruct (Trace.progressOf _) as [|q l]; [reflexivity|].
    simpl in Hc. lia.
Qed.

Lemma number_of_progress_reports_witness :
  (0 < 2)%Z /\
  Z.of_nat (List.length
              (Trace.progressOf
                 (Trace.scanTrace Yaml.Unmarshal Fixtures.joinSlash
                                  Fixtures.testFS Fixtures.testRoot 2)))
  = (Z.of_nat (List.length
                 (Trace.visibleFiles Fixtures.joinSlash Fixtures.testFS
                                     Fixtures.testRoot)) / 2 + 1)%Z.
Proof.
  split; [lia|].
  apply (number_of_progress_reports Yaml.Unmarshal Fixtures.joinSlash
           Fixtures.testFS Fixtures.testRoot 2).
  lia.
Defined.

(** Quoted fields and the frame *)

Module FrameFacts.

Import GoStrings GoStringsFacts Utf8 Utf8Facts Strconv Codec BitFacts
       BytesFacts TextFacts HexFacts QuoteFacts LineFacts.
Local Open Scope Z_scope.

Lemma printable_notLF (s : string) :
  allBytes printable s = true -> allBytes notLF s = true.
Proof.
  apply allBytes_impl. intros c Hc. unfold notLF.
  destruct (Ascii.eqb_spec c LF) as [->|]; [discriminate Hc | reflexivity].
Qed.

Lemma high_notLF (s : string) :
  allBytes (fun c => 128 <=? byte c) s = true -> allBytes notLF s = true.
Proof.
  apply allBytes_impl. intros c Hc. unfold notLF.
  destruct (Ascii.eqb_spec c LF) as [->|]; [discriminate Hc | reflexivity].
Qed.

Lemma forallb_cons_true {A : Type} (f : A -> bool) (x : A) (l : list A) :
  f x = true -> forallb f l = true -> forallb f (x :: l) = true.
Proof. intros Hx Hl. simpl. now rewrite Hx, Hl. Qed.

Lemma printable_hex2 (b : Z) :
  0 <= b < 256 -> allBytes printable (hex2 b) = true.
Proof.
  intros H. unfold hex2. bits_to_arith.
  destruct (lowerhex_digit (b / 16)) as (h1 & -> & _ & P1); [divmod|].
  destruct (lowerhex_digit (b mod 16)) as (h2 & -> & _ & P2); [divmod|].
  cbn [append allBytes]. now rewrite P1, P2.
Qed.

Section Tables.

Variable isPrintWide : Z -> bool.

Local Abbreviation appendEscapedRune := (appendEscapedRune isPrintWide).
Local Abbreviation quoteBody := (quoteBody isPrintWide).
Local Abbreviation Quote := (Quote isPrintWide).

(** The loop of [appendQuotedWith] at a byte that starts no valid
    encoding. *)
Lemma quoteBody_invalid (c0 : ascii) (s1 : string) :
  DecodeRuneInString (String c0 s1) = (RuneError, 1%nat) ->
  quoteBody (String c0 s1) = BS ++ "x" ++ hex2 (byte c0) ++ quoteBody s1.
Proof.
  intros H. cbn [Strconv.quoteBody].
  destruct (RuneSelf <=? byte c0) eqn:Hself.
  - rewrite H. cbn [Nat.eqb andb]. rewrite Z.eqb_refl.
    now rewrite !append_assoc.
  - exfalso. unfold DecodeRuneInString, RuneSelf in *.
    pose proof (byte_range c0).
    replace (byte c0 <? 128) with true in H by lia.
    injection H as H. unfold RuneError in H. lia.
Qed.

(** What Go writes for a rune holds no line feed. *)
Lemma notLF_chunk (x : string) (r : Z) :
  x <> "" -> DecodeRuneInString x = (r, String.length x) ->
  wellDecoded (r, x) = true ->
  allBytes notLF (appendEscapedRune r) = true.
Proof.
  intros Hx H Hd.
  pose proof (proj1 (wellDecoded_decoded r x) Hd) as Hdec.
  pose proof (decode_bytes x r Hx H Hdec) as Hb.
  destruct (decode_canon x r Hx H Hdec) as (Hv & He & Hwide).
  destruct x as [|c0 [|c1 x]]; [contradiction| |].
  - destruct Hb as [-> Hlt]. apply printable_notLF, printable_escaped.
    now apply Z.ltb_lt.
  - specialize (Hwide ltac:(simpl; lia)).
    rewrite appendEscapedRune_wide by assumption.
    destruct (IsPrint isPrintWide r).
    + rewrite He. now apply high_notLF.
    + pose proof (ValidRune_range r Hv) as [Hr _].
      apply printable_notLF.
      destruct (Z.ltb_spec r 65536) as [Hlt|Hge].
      * destruct (hex4_digits r ltac:(lia)) as (_ & _ & _ & _ & _ & _ & Hh).
        cbn [append BS allBytes]. now rewrite Hh.
      * destruct (hex8_digits r ltac:(lia))
          as (_ & _ & _ & _ & _ & _ & _ & _ & _ & _ & Hh).
        cbn [append BS allBytes]. now rewrite Hh.
Qed.

(** Whatever bytes a string holds, what Go writes for it holds no line
    feed. *)
Lemma notLF_quoteBody (n : nat) :
  forall s, (String.length s <= n)%nat -> allBytes notLF (quoteBody s) = true.
Proof.
  induction n as [|n IH]; intros s Hn.
  - destruct s; [reflexivity | simpl in Hn; lia].
  - destruct s as [|c0 s1]; [reflexivity|].
    destruct (DecodeRuneInString (String c0 s1)) as [r w] eqn:E.
    destruct (decode_width (String c0 s1) r w ltac:(discriminate) E)
      as [Hw Hl].
    destruct (wellDecoded (r, take w (String c0 s1))) eqn:Hd.
    + pose proof (length_take w (String c0 s1) Hl) as Hlen.
      assert (Hdec : decoded r w).
      { apply wellDecoded_decoded in Hd. now rewrite Hlen in Hd. }
      destruct (decode_take (String c0 s1) r w ltac:(discriminate) E Hdec)
        as [Et _].
      rewrite <- Hlen in Et at 2.
      assert (Hx : take w (String c0 s1) <> "").
      { intros E0. rewrite E0 in Hlen. simpl in Hlen. lia. }
      rewrite <- (take_drop w (String c0 s1)).
      rewrite (quoteBody_rune isPrintWide _ _ r Hx Et Hd), allBytes_app.
      rewrite (notLF_chunk _ r Hx Et Hd), IH; [reflexivity|].
      rewrite length_drop. simpl in *. lia.
    + unfold wellDecoded in Hd. cbn [fst snd] in Hd.
      apply negb_false_iff, andb_true_iff in Hd as [Hr Hw1].
      apply Z.eqb_eq in Hr. apply Nat.eqb_eq in Hw1.
      rewrite length_take in Hw1 by exact Hl. subst r w.
      rewrite (quoteBody_invalid c0 s1 E), !allBytes_app.
      rewrite (printable_notLF (hex2 (byte c0)))
        by apply printable_hex2, byte_range.
      rewrite IH by (simpl in Hn; lia). reflexivity.
Qed.

Lemma notLF_Quote (s : string) : allBytes notLF (Quote s) = true.
Proof.
  unfold Strconv.Quote. rewrite !allBytes_app.
  now rewrite (notLF_quoteBody (String.length s) s (Nat.le_refl _)).
Qed.

Lemma notLF_itemsTail (ss : list string) :
  allBytes notLF (itemsTail isPrintWide ss) = true.
Proof.
  induction ss as [|s ss IH]; [reflexivity|].
  cbn [itemsTail]. now rewrite !allBytes_app, notLF_Quote, IH.
Qed.

Lemma notLF_joinQuoted (ss : list string) :
  allBytes notLF (Writer.joinQuoted isPrintWide ss) = true.
Proof.
  destruct ss as [|s ss]; [reflexivity|].
  now rewrite joinQuoted_cons, allBytes_app, notLF_Quote, notLF_itemsTail.
Qed.

Lemma lineOK_entry (lit : string) (c : ascii) (x : string) :
  lineOK (String c lit) = true -> allBytes notLF x = true ->
  lineOK (String c lit ++ x) = true.
Proof.
  unfold lineOK. intros H Hx. apply andb_true_iff in H as [Hp Hd].
  rewrite allBytes_app, Hp, Hx. cbn [append HasPrefix] in *. exact Hd.
Qed.

(** The lines of the frontmatter, whatever the quoted fields hold. *)
Lemma frontmatterLines_lineOK (id : Identity) :
  allBytes notLF (Status id) = true ->
  allBytes notLF (ProtoStatus id) = true ->
  forallb lineOK (frontmatterLines isPrintWide id) = true.
Proof.
  intros Hs Hp. unfold frontmatterLines.
  repeat (apply forallb_cons_true;
          [ first [ reflexivity
                  | apply lineOK_entry; [reflexivity|];
                    first [ apply notLF_Quote
                          | assumption
                          | rewrite allBytes_app, notLF_joinQuoted;
                            reflexivity ] ] |]).
  reflexivity.
Qed.

End Tables.

End FrameFacts.

(** X5.  The quoted fields never break the frame.  Whatever bytes the
    quoted fields of a record hold (line feeds, dashes, quotes, bytes
    that are not UTF-8), and whatever the decoder and the tables are: when
    [status] and [proto_status], the two fields written unquoted, hold no
    line feed, [ParseFrontmatter] applied to the rendered text hands the
    decoder exactly the rendered frontmatter, and when the decoder accepts
    it, returns the rendered body. *)
Theorem quoted_fields_keep_the_frame :
  forall (yaml_Unmarshal : string -> Identity -> Identity * option error)
         (isPrintWide : Z -> bool) (id : Identity),
    Codec.allBytes Codec.notLF (Status id) = true ->
    Codec.allBytes Codec.notLF (ProtoStatus id) = true ->
    Registry.ParseFrontmatter yaml_Unmarshal
                              (Writer.holonTemplate isPrintWide id) =
    match yaml_Unmarshal (Writer.holonFrontmatter isPrintWide id)
                         zeroIdentity with
    | (_, Some err) =>
        (zeroIdentity, "",
         Some (errorString ("YAML parse error: " ++ Error err)))
    | (id', None) => (id', Writer.holonBody id, None)
    end.
Proof.
  intros yaml_Unmarshal isPrintWide id Hs Hp.
  rewrite CodecFacts.ParseFrontmatter_unfold.
  change (GoStrings.HasPrefix (Writer.holonTemplate isPrintWide id) "---")
    with true.
  cbn [negb]. rewrite RoundTrip.afterOpening_template.
  rewrite RoundTrip.holonFrontmatter_lines at 1.
  rewrite LineFacts.indexFrom_lines
    by (discriminate || now apply FrameFacts.frontmatterLines_lineOK).
  rewrite <- RoundTrip.holonFrontmatter_lines.
  rewrite GoStringsFacts.take_app.
  rewrite <- GoStringsFacts.drop_drop, GoStringsFacts.drop_app.
  reflexivity.
Qed.

Lemma quoted_fields_keep_the_frame_witness :
  Codec.allBytes Codec.notLF (Status Create.newIdentity) = true /\
  Codec.allBytes Codec.notLF (ProtoStatus Create.newIdentity) = true /\
  Registry.ParseFrontmatter Yaml.Unmarshal
    (Writer.holonTemplate Codec.latinExtended Create.newIdentity) =
  match Yaml.Unmarshal
          (Writer.holonFrontmatter Codec.latinExtended Create.newIdentity)
          zeroIdentity with
  | (_, Some err) =>
      (zeroIdentity, "",
       Some (errorString ("YAML parse error: " ++ Error err)))
  | (id', None) => (id', Writer.holonBody Create.newIdentity, None)
  end.
Proof.
  split; [reflexivity|]. split; [reflexivity|].
  apply (quoted_fields_keep_the_frame Yaml.Unmarshal Codec.latinExtended
           Create.newIdentity); reflexivity.
Defined.

(** Lower case and the not-found message *)

Module CaseFacts.

Import GoStrings GoStringsFacts Utf8 Utf8Facts GoStringsUnicode Codec
       TextFacts GoCase.
Local Open Scope Z_scope.

Lemma runes_byte (c : ascii) (s : string) :
  byte c < 128 -> runes (String c s) = (byte c, String c "") :: runes s.
Proof.
  intros H. change (String c s) with (String c "" ++ s).
  apply runes_cons; [discriminate| |].
  - unfold DecodeRuneInString, RuneSelf.
    now rewrite (proj2 (Z.ltb_lt _ _) H).
  - unfold wellDecoded, RuneError. cbn [fst snd].
    now rewrite (proj2 (Z.eqb_neq _ _)) by lia.
Qed.

Lemma runes_app_ascii (a b : string) :
  allBytes (fun c => byte c <? 128) a = true ->
  runes (a ++ b) = (runes a ++ runes b)%list.
Proof.
  induction a as [|c a IH]; intros H; [reflexivity|].
  simpl in H. apply andb_true_iff in H as [Hc Ha]. apply Z.ltb_lt in Hc.
  cbn [append]. rewrite !runes_byte by exact Hc.
  now rewrite (IH Ha).
Qed.

Lemma concatBytes_app (a b : list (Z * string)) :
  concatBytes (a ++ b) = concatBytes a ++ concatBytes b.
Proof.
  induction a as [|[r x] a IH]; [reflexivity|].
  cbn [app concatBytes fold_right snd] in *.
  unfold concatBytes in IH. now rewrite IH, append_assoc.
Qed.

(** The bytes of the runes of a string are the string. *)
Lemma concatBytes_runesFuel (n : nat) :
  forall s, (String.length s <= n)%nat -> concatBytes (runesFuel n s) = s.
Proof.
  induction n as [|n IH]; intros s Hn.
  - destruct s; [reflexivity | simpl in Hn; lia].
  - destruct s as [|c s]; [reflexivity|].
    cbn [runesFuel].
    destruct (DecodeRuneInString (String c s)) as [r w] eqn:E.
    destruct (decode_width (String c s) r w ltac:(discriminate) E) as [Hw _].
    change (concatBytes ((r, take w (String c s)) ::
                         runesFuel n (drop w (String c s))))
      with (take w (String c s) ++
            concatBytes (runesFuel n (drop w (String c s)))).
    rewrite IH by (rewrite length_drop; simpl in *; lia).
    apply take_drop.
Qed.

Lemma concatBytes_runes (s : string) : concatBytes (runes s) = s.
Proof. apply concatBytes_runesFuel. reflexivity. Qed.

(** Leading white space is dropped up to a rune that is none. *)
Lemma dropWhileSpace_keeps (a b : list (Z * string)) (r : Z) (x : string)
      (b' : list (Z * string)) :
  b = (r, x) :: b' -> IsSpace r = false ->
  exists a', dropWhileSpace (a ++ b) = (a' ++ b)%list.
Proof.
  intros -> Hr. induction a as [|[r0 x0] a (a' & IH)].
  - exists []. cbn [app dropWhileSpace]. now rewrite Hr.
  - cbn [app dropWhileSpace]. destruct (IsSpace r0).
    + now exists a'.
    + now exists ((r0, x0) :: a).
Qed.

(** The message of the resolver, trimmed, keeps its first words. *)
Lemma TrimSpace_not_found (target : string) :
  exists t, TrimSpace ("holon not found: " ++ target) =
            "holon not found:" ++ t.
Proof.
  unfold TrimSpace.
  change ("holon not found: " ++ target)
    with ("holon not found:" ++ String " " target).
  rewrite runes_app_ascii by reflexivity.
  set (R := runes (String " " target)).
  change (runes "holon not found:")
    with ((104, "h") :: skipn 1 (runes "holon not found:")).
  cbn [app dropWhileSpace]. change (IsSpace 104) with false. cbv iota.
  change ((104, "h") :: (skipn 1 (runes "holon not found:") ++ R)%list)
    with ((runes "holon not found:" ++ R)%list).
  rewrite rev_app_distr.
  destruct (dropWhileSpace_keeps (rev R) (rev (runes "holon not found:"))
              58 ":" (skipn 1 (rev (runes "holon not found:")))
              eq_refl eq_refl) as (a' & ->).
  rewrite rev_app_distr, rev_involutive, concatBytes_app.
  exists (concatBytes (rev a')). f_equal.
Qed.

Lemma mapBytes_app (f : ascii -> ascii) (a b : string) :
  mapBytes f (a ++ b) = mapBytes f a ++ mapBytes f b.
Proof. induction a as [|c a IH]; simpl; [reflexivity | now rewrite IH]. Qed.

Lemma anyByte_app (f : ascii -> bool) (a b : string) :
  anyByte f (a ++ b) = anyByte f a || anyByte f b.
Proof.
  induction a as [|c a IH]; simpl; [reflexivity|].
  now rewrite IH, orb_assoc.
Qed.

Section Tables.

Variable toLowerWide : Z -> Z.

Local Abbreviation mapping := (unicode_ToLower toLowerWide).

(** The first loop of [strings.Map] over runes that stay as they are. *)
Lemma mapFrom_skip (a rs : list (Z * string)) (s : string) :
  forall before,
    forallb (fun cb => (mapping (fst cb) =? fst cb) && wellDecoded cb) a
    = true ->
    mapFrom mapping before (a ++ rs) s =
    mapFrom mapping (before ++ concatBytes a) rs s.
Proof.
  induction a as [|[c x] a IH]; intros before H.
  - cbn [app]. change (concatBytes []) with "". now rewrite append_nil_r.
  - cbn [forallb fst] in H. apply andb_true_iff in H as [Hc Ha].
    cbn [app mapFrom]. rewrite Hc, (IH _ Ha).
    change (concatBytes ((c, x) :: a)) with (x ++ concatBytes a).
    now rewrite append_assoc.
Qed.

(** What [strings.Map] has passed over stays at the head of its result. *)
Lemma mapFrom_prefix (rs : list (Z * string)) (s : string) :
  forall before,
    s = before ++ concatBytes rs ->
    exists u, mapFrom mapping before rs s = before ++ u.
Proof.
  induction rs as [|[c x] rs IH]; intros before E.
  - cbn [mapFrom]. now exists (concatBytes []).
  - cbn [mapFrom].
    destruct ((mapping c =? c) && wellDecoded (c, x)).
    + destruct (IH (before ++ x)) as (u & Hu).
      { rewrite E. change (concatBytes ((c, x) :: rs))
          with (x ++ concatBytes rs).
        now rewrite append_assoc. }
      exists (x ++ u). now rewrite Hu, append_assoc.
    + eexists. reflexivity.
Qed.

(** [strings.ToLower] leaves the first words of the resolver's message
    in place. *)
Lemma ToLower_not_found (t : string) :
  HasPrefix (ToLower toLowerWide ("holon not found:" ++ t))
            "holon not found:" = true.
Proof.
  unfold ToLower. rewrite !anyByte_app.
  change (anyByte (fun c => RuneSelf <=? byte c) "holon not found:")
    with false.
  change (anyByte isUpperByte "holon not found:") with false.
  cbn [orb].
  destruct (anyByte (fun c => RuneSelf <=? byte c) t); cbn [negb].
  - unfold Map. rewrite runes_app_ascii by reflexivity.
    rewrite mapFrom_skip by reflexivity.
    change ("" ++ concatBytes (runes "holon not found:"))
      with "holon not found:".
    destruct (mapFrom_prefix (runes t) ("holon not found:" ++ t)
                             "holon not found:") as (u & ->).
    { now rewrite concatBytes_runes. }
    apply HasPrefix_app.
  - destruct (anyByte isUpperByte t); cbn [negb].
    + rewrite mapBytes_app.
      change (mapBytes lowerByte "holon not found:") with "holon not found:".
      apply HasPrefix_app.
    + apply HasPrefix_app.
Qed.

End Tables.

End CaseFacts.

(** ShowIdentity and ListIdentities *)

Module RpcFacts.

Import GoStrings GoStringsFacts Filepath Traversal Trace Server Rpc.

Section Rpc.

Variable yaml_Unmarshal : string -> Identity -> Identity * option error.
Variable toLowerWide : Z -> Z.
Variable filepath_Join : list string -> string.
Variable filepath_Clean : string -> string.
Variable filepath_Dir : string -> string.
Variable filepath_Rel : string -> string -> string + error.
Variable fs : FileSystem.
Variable os_ReadFileAt : string -> string + error.

Local Abbreviation Join2 := (fun p n : string => filepath_Join [p; n]).

(** The resolver's own error is recognised. *)
Lemma isIdentityNotFound_resolver (target : string) :
  isIdentityNotFound toLowerWide
    (Some (errorString ("holon not found: " ++ target))) = true.
Proof.
  unfold isIdentityNotFound. cbn [Error].
  destruct (CaseFacts.TrimSpace_not_found target) as (t & ->).
  apply CaseFacts.ToLower_not_found.
Qed.

(** What the bulk scan examines, the resolver examines too. *)
Lemma visible_all (root p : string) (d : DirEntry) :
  In (p, d) (visibleFiles Join2 fs root) -> In (p, d) (allFiles Join2 fs root).
Proof.
  unfold visibleFiles, allFiles. rewrite !FindFacts.filesUnder_locates.
  intros (d0 & dirs & E & Hl & _). exists d0, dirs.
  repeat split; [exact E | exact Hl|]. apply Forall_forall. reflexivity.
Qed.

Lemma holons_visible_all (root : string) (h : LocatedIdentity) :
  In h (holonsIn yaml_Unmarshal (visibleFiles Join2 fs root)) ->
  In h (holonsIn yaml_Unmarshal (allFiles Join2 fs root)).
Proof.
  rewrite !FindFacts.holonsIn_In. intros (d & Hin & Hd).
  exists d. split; [now apply visible_all | exact Hd].
Qed.

Lemma show_found (h : LocatedIdentity) :
  stable filepath_Join fs os_ReadFileAt ->
  In h (holonsIn yaml_Unmarshal (allFiles Join2 fs ".")) ->
  exists data body,
    os_ReadFileAt (Path h) = inl data /\
    Registry.ParseFrontmatter yaml_Unmarshal data = (Identity_ h, body, None).
Proof.
  intros Hst Hin. apply FindFacts.holonsIn_In in Hin as (d & Hin & Hd).
  unfold decodeHolon in Hd.
  destruct (String.eqb (Name d) "HOLON.md"); [|discriminate Hd].
  destruct (os_ReadFile d) as [data|] eqn:Hr; [|discriminate Hd].
  destruct (Registry.ParseFrontmatter yaml_Unmarshal data)
    as [[id body] [e|]] eqn:Hp; [discriminate Hd|].
  injection Hd as <-. exists data, body. split; [|exact Hp].
  exact (Hst _ _ _ Hin Hr).
Qed.

End Rpc.

End RpcFacts.



(** The record under [holon-a] of the tests, shown by a prefix of its
    identifier. *)
Example ShowIdentity_by_prefix :
  match Rpc.ShowIdentity Yaml.Unmarshal (fun r => r) Workdir.joinClean
                         Workdir.dotFS Workdir.readAt
                         (Some (Rpc.mkShowRequest "aaaa")) with
  | inl resp =>
      Server.pbUuid (Rpc.showIdentity resp) = "aaaa-1111" /\
      Rpc.showFilePath resp = "holon-a/HOLON.md" /\
      Rpc.showRawContent resp = Fixtures.holonText "aaaa-1111" "Alpha"
  | inr _ => False
  end.
Proof. vm_compute. repeat split. Qed.

(** X7.  [ListIdentities] never fails.  Whatever the request and the file
    system are (a root that does not exist, directories that cannot be
    read), the answer is a list of entries and no error: one entry, with
    the origin "local", for each record that the bulk scan finds under
    the root directory, in traversal order; the root directory is the
    current directory when the request is [nil] or names a blank one. *)
Theorem ListIdentities_never_fails :
  forall (yaml_Unmarshal : string -> Identity -> Identity * option error)
         (filepath_Join : list string -> string)
         (filepath_Clean filepath_Dir : string -> string)
         (filepath_Rel : string -> string -> string + error)
         (fs : FileSystem) (req : option Rpc.ListIdentitiesRequest),
    let rootDir :=
      match req with
      | Some r => if Create.blank (Rpc.reqRootDir r) then "."
                  else Rpc.reqRootDir r
      | None => "."
      end in
    Rpc.ListIdentities yaml_Unmarshal filepath_Join filepath_Clean
                       filepath_Dir filepath_Rel fs req =
    inl (Rpc.mkListResponse
           (map (fun h =>
                   Rpc.mkHolonEntry
                     (Server.toProto (Identity_ h)) "local"
                     (Rpc.relativeHolonDir filepath_Clean filepath_Dir
                                           filepath_Rel rootDir (Path h)))
                (Trace.holonsIn yaml_Unmarshal
                   (Trace.visibleFiles (fun p n => filepath_Join [p; n])
                                       fs rootDir)))).
Proof.
  intros yaml_Unmarshal filepath_Join filepath_Clean filepath_Dir filepath_Rel
         fs req rootDir.
  unfold Rpc.ListIdentities.
  assert (E : match req with
              | Some r =>
                  if negb (String.eqb
                             (GoStringsUnicode.TrimSpace (Rpc.reqRootDir r)) "")
                  then Rpc.reqRootDir r else "."
              | None => "."
              end = rootDir).
  { subst rootDir. destruct req as [r|]; [|reflexivity].
    rewrite BlankFacts.TrimSpace_blank.
    now destruct (Create.blank (Rpc.reqRootDir r)). }
  rewrite E, ScanTheory.FindAllWithPaths_holons. reflexivity.
Qed.



(** CreateIdentity, in full *)

Module CreateFacts.

Import GoStrings Server Codec.

Lemma replaceSpaces_no_space (s : string) :
  allBytes (fun c => negb (Ascii.eqb c " ")) (replaceSpaces s) = true.
Proof.
  induction s as [|c s IH]; [reflexivity|].
  cbn [replaceSpaces allBytes]. rewrite IH, andb_true_r.
  now destruct (Ascii.eqb_spec c " ") as [->|Hc];
    [|apply negb_true_iff, Ascii.eqb_neq].
Qed.

Lemma validUTF8_clade (c : pbClade) : validUTF8 (cladeToString c) = true.
Proof. destruct c; reflexivity. Qed.

Lemma validUTF8_reproduction (r : pbReproductionMode) :
  validUTF8 (reproductionToString r) = true.
Proof. destruct r; reflexivity. Qed.

Section Create.

Variable isPrintWide : Z -> bool.
Variable strings_ToLower : string -> string.
Variable filepath_Join : list string -> string.
Variable identity_New : Identity.
Variable os : OsWrites.

(** A successful call, in full. *)
Lemma CreateIdentity_success (req : CreateIdentityRequest)
      (resp : CreateIdentityResponse) (log : list fsOp) :
  CreateIdentity isPrintWide strings_ToLower filepath_Join identity_New os
                 (Some req) = (inl resp, log) ->
  let dir := Created.directory strings_ToLower filepath_Join req in
  let id := Created.created identity_New req in
  let path := filepath_Join [dir; "HOLON.md"] in
  resp = mkCreateResponse (toProto id) path /\
  log = [OpMkdirAll dir; OpCreate path;
         OpWrite path (Writer.holonTemplate isPrintWide id)].
Proof.
  unfold CreateIdentity, Created.created, Created.directory,
    WriterIO.WriteHolonMD.
  destruct (String.eqb (GoStringsUnicode.TrimSpace (reqGivenName req)) "");
    [discriminate|].
  destruct (String.eqb (GoStringsUnicode.TrimSpace (reqFamilyName req)) "");
    [discriminate|].
  destruct (String.eqb (GoStringsUnicode.TrimSpace (reqMotto req)) "");
    [discriminate|].
  destruct (String.eqb (GoStringsUnicode.TrimSpace (reqComposer req)) "");
    [discriminate|].
  destruct (String.eqb (reqLang req) "");
    destruct (reqAliases req) as [|a l];
    cbn [negb List.length Nat.ltb Nat.leb GivenName FamilyName UUID Motto
         Composer Clade Status Born Parents Reproduction Aliases GeneratedBy
         Lang ProtoStatus];
    (destruct (os_MkdirAll os _); [discriminate|];
     destruct (os_Create os _); [discriminate|];
     destruct (file_Write os _); [discriminate|];
     intros H; injection H as <- <-; split; reflexivity).
Qed.

End Create.

End CreateFacts.

(** X9.  What a request leaves unsaid is filled in.  In the record that a
    successful [CreateIdentity] returns, an unspecified clade has become
    DETERMINISTIC_PURE and an unspecified reproduction mode MANUAL, and
    every other value of the two enumerations comes back as it was sent;
    an empty language and an empty list of aliases leave those of
    [identity.New] in place. *)
Theorem CreateIdentity_fills_in_defaults :
  forall (isPrintWide : Z -> bool) (strings_ToLower : string -> string)
         (filepath_Join : list string -> string) (identity_New : Identity)
         (os : OsWrites) (req : Server.CreateIdentityRequest)
         (resp : Server.CreateIdentityResponse) (log : list fsOp),
    Server.CreateIdentity isPrintWide strings_ToLower filepath_Join
                          identity_New os (Some req) = (inl resp, log) ->
    Server.pbCladeOf (Server.respIdentity resp) =
      match Server.reqClade req with
      | Server.Clade_CLADE_UNSPECIFIED => Server.Clade_DETERMINISTIC_PURE
      | c => c
      end
    /\ Server.pbReproduction (Server.respIdentity resp) =
       match Server.reqReproduction req with
       | Server.ReproductionMode_REPRODUCTION_UNSPECIFIED =>
           Server.ReproductionMode_MANUAL
       | r => r
       end
    /\ Server.pbLang (Server.respIdentity resp) =
       (if String.eqb (Server.reqLang req) "" then Lang identity_New
        else Server.reqLang req)
    /\ Server.pbAliases (Server.respIdentity resp) =
       match Server.reqAliases req with
       | [] => Aliases identity_New
       | aliases => aliases
       end.
Proof.
  intros isPrintWide strings_ToLower filepath_Join identity_New os req resp
         log H.
  apply CreateFacts.CreateIdentity_success in H as [-> _].
  cbn [Server.respIdentity Server.toProto Server.pbCladeOf
       Server.pbReproduction Server.pbLang Server.pbAliases
       Created.created Clade Reproduction Lang Aliases].
  repeat split.
  - now destruct (Server.reqClade req).
  - now destruct (Server.reqReproduction req).
  - now destruct (Server.reqAliases req).
Qed.

Lemma CreateIdentity_fills_in_defaults_witness :
  let req :=
    Server.mkCreateRequest "Swift" "Prober" "Probe deep." "B. ALTER"
                           Server.Clade_CLADE_UNSPECIFIED
                           Server.ReproductionMode_REPRODUCTION_UNSPECIFIED
                           "" [] "" in
  exists resp log,
    Server.CreateIdentity Codec.latinExtended (fun s => s) Workdir.joinClean
                          Create.newIdentity Create.writableOS (Some req)
    = (inl resp, log) /\
    Server.pbCladeOf (Server.respIdentity resp) =
      Server.Clade_DETERMINISTIC_PURE /\
    Server.pbReproduction (Server.respIdentity resp) =
      Server.ReproductionMode_MANUAL.
Proof.
  intros req.
  destruct (Server.CreateIdentity Codec.latinExtended (fun s => s)
              Workdir.joinClean Create.newIdentity Create.writableOS
              (Some req)) as [[resp|e] log] eqn:E;
    [|vm_compute in E; discriminate E].
  exists resp, log. split; [reflexivity|].
  destruct (CreateIdentity_fills_in_defaults _ _ _ _ _ _ _ _ E)
    as (Hc & Hr & _).
  split; [exact Hc | exact Hr].
Defined.



(** X11.  What [CreateIdentity] writes, [ParseFrontmatter] reads back.
    Let the tables of [strconv] list neither U+2028 nor U+2029 nor U+FFFE
    nor U+FFFF as printable, let the record of [identity.New] have plain
    words for its two statuses and valid UTF-8 elsewhere, and let the
    names, the motto, the composer, the language and the aliases of the
    request be valid UTF-8.  Then the content that a successful call
    writes at the path it returns decodes without error, and the decoded
    record, converted with [toProto], is the identity of the answer. *)
Theorem created_file_decodes_to_the_answer :
  forall (isPrintWide : Z -> bool) (strings_ToLower : string -> string)
         (filepath_Join : list string -> string) (identity_New : Identity)
         (os : OsWrites) (req : Server.CreateIdentityRequest)
         (resp : Server.CreateIdentityResponse) (log : list fsOp),
    Codec.tableOK isPrintWide = true ->
    Codec.plainRecord identity_New = true ->
    Codec.validUTF8 (Server.reqGivenName req) = true ->
    Codec.validUTF8 (Server.reqFamilyName req) = true ->
    Codec.validUTF8 (Server.reqMotto req) = true ->
    Codec.validUTF8 (Server.reqComposer req) = true ->
    Codec.validUTF8 (Server.reqLang req) = true ->
    forallb Codec.validUTF8 (Server.reqAliases req) = true ->
    Server.CreateIdentity isPrintWide strings_ToLower filepath_Join
                          identity_New os (Some req) = (inl resp, log) ->
    exists content id body,
      In (OpWrite (Server.respFilePath resp) content) log /\
      Registry.ParseFrontmatter Yaml.Unmarshal content = (id, body, None) /\
      Server.toProto id = Server.respIdentity resp.
Proof.
  intros isPrintWide strings_ToLower filepath_Join identity_New os req resp
         log Ht Hnew Hg Hf Hm Hc Hl Ha H.
  apply CreateFacts.CreateIdentity_success in H as [-> ->].
  set (id := Created.created identity_New req).
  assert (Hid : Codec.plainRecord id = true).
  { unfold Codec.plainRecord in Hnew |- *.
    repeat (apply andb_true_iff in Hnew as [Hnew ?]).
    subst id.
    cbn [Created.created UUID GivenName FamilyName Motto Composer Clade
         Status Born Parents Reproduction Aliases GeneratedBy Lang
         ProtoStatus].
    rewrite CreateFacts.validUTF8_clade, CreateFacts.validUTF8_reproduction.
    assert (Hal : forallb Codec.validUTF8
                          match Server.reqAliases req with
                          | [] => Aliases identity_New
                          | _ :: _ => Server.reqAliases req
                          end = true)
      by (destruct (Server.reqAliases req); assumption).
    assert (Hla : Codec.validUTF8
                    (if String.eqb (Server.reqLang req) ""
                     then Lang identity_New else Server.reqLang req) = true)
      by (destruct (String.eqb (Server.reqLang req) ""); assumption).
    rewrite Hal, Hla, Hg, Hf, Hm, Hc.
    repeat match goal with
           | Hx : ?b = true |- context [?b] => rewrite Hx
           end.
    reflexivity. }
  exists (Writer.holonTemplate isPrintWide id), id, (Writer.holonBody id).
  split; [cbn [Server.respFilePath]; right; right; now left|].
  split; [|reflexivity].
  rewrite CodecFacts.ParseFrontmatter_unfold.
  change (GoStrings.HasPrefix (Writer.holonTemplate isPrintWide id) "---")
    with true.
  cbn [negb]. rewrite RoundTrip.afterOpening_template.
  rewrite RoundTrip.holonFrontmatter_lines at 1.
  rewrite LineFacts.indexFrom_lines
    by (discriminate ||
        now apply LineFacts.wellLines_lineOK, RoundTrip.frontmatterLines_ok).
  rewrite <- RoundTrip.holonFrontmatter_lines.
  rewrite GoStringsFacts.take_app, RoundTrip.Unmarshal_frontmatter
    by assumption.
  rewrite <- GoStringsFacts.drop_drop, GoStringsFacts.drop_app.
  reflexivity.
Qed.

Lemma created_file_decodes_to_the_answer_witness :
  let req :=
    Server.mkCreateRequest "Swift" "Prober" (Motto Codec.accented) "B. ALTER"
                           Server.Clade_PROBABILISTIC_ADAPTIVE
                           Server.ReproductionMode_BRED
                           "go" ["sw"; "prober"] "holons/swift" in
  Codec.tableOK Codec.latinExtended = true /\
  Codec.plainRecord Create.newIdentity = true /\
  exists resp log,
    Server.CreateIdentity Codec.latinExtended (fun s => s) Workdir.joinClean
                          Create.newIdentity Create.writableOS (Some req)
    = (inl resp, log) /\
    exists content id body,
      In (OpWrite (Server.respFilePath resp) content) log /\
      Registry.ParseFrontmatter Yaml.Unmarshal content = (id, body, None) /\
      Server.toProto id = Server.respIdentity resp.
Proof.
  intros req. split; [reflexivity|]. split; [reflexivity|].
  destruct (Server.CreateIdentity Codec.latinExtended (fun s => s)
              Workdir.joinClean Create.newIdentity Create.writableOS
              (Some req)) as [[resp|e] log] eqn:E;
    [|vm_compute in E; discriminate E].
  exists resp, log. split; [reflexivity|].
  exact (created_file_decodes_to_the_answer
           Codec.latinExtended (fun s => s) Workdir.joinClean
           Create.newIdentity Create.writableOS req resp log
           eq_refl eq_refl eq_refl eq_refl eq_refl eq_refl eq_refl eq_refl E).
Defined.

(** The two streams of a listing *)

Module StreamFacts.

Import GoStrings Filepath Traversal Trace Cli Streams.

Lemma stdoutOf_app (a b : list output) :
  stdoutOf (a ++ b) = (stdoutOf a ++ stdoutOf b)%list.
Proof. apply List.filter_app. Qed.

Lemma rowsOf_app (a b : list output) :
  rowsOf (a ++ b) = (rowsOf a ++ rowsOf b)%list.
Proof. apply List.filter_app. Qed.

Section RunList.

Variable filepath_Clean : string -> string.
Variable filepath_Dir : string -> string.
Variable filepath_Rel : string -> string -> string + error.
Variable stderrIsTerminal : bool.

Local Abbreviation clearProgressLine := (clearProgressLine stderrIsTerminal).
Local Abbreviation printProgress := (printProgress stderrIsTerminal).
Local Abbreviation printEntry := (printEntry stderrIsTerminal).
Local Abbreviation scanOnFound :=
  (scanOnFound filepath_Clean filepath_Dir filepath_Rel stderrIsTerminal).
Local Abbreviation scanOnProgress := (scanOnProgress stderrIsTerminal).

Lemma clearProgressLine_shaped (st : listState) :
  shaped st -> shaped (clearProgressLine st).
Proof.
  unfold Cli.clearProgressLine, shaped.
  destruct (negb stderrIsTerminal || negb (progressVisible st));
    [tauto|].
  cbn [emit out printedHeader printedEntries].
  rewrite stdoutOf_app, rowsOf_app. cbn. rewrite !app_nil_r. tauto.
Qed.

Lemma printEntry_shaped (id : Identity) (origin path : string)
      (st : listState) :
  shaped st -> shaped (printEntry id origin path st).
Proof.
  intros H. apply clearProgressLine_shaped in H.
  unfold Cli.printEntry. destruct H as (Ho & Hn & Hh).
  set (st1 := clearProgressLine st) in *.
  destruct (printedHeader st1) eqn:Hp; cbn [negb]; unfold shaped;
    cbn [emit out printedHeader printedEntries];
    rewrite ?stdoutOf_app, ?rowsOf_app; cbn; rewrite ?app_nil_r.
  - rewrite Hp, Ho, Hn, length_app. cbn [List.length].
    split; [now rewrite <- app_assoc|]. split; [lia|].
    split; [discriminate|]. intros E. now apply app_eq_nil in E.
  - rewrite (proj1 Hh eq_refl) in *. cbn in Ho. rewrite Ho, Hn. cbn.
    split; [reflexivity|]. split; [reflexivity|]. split; discriminate.
Qed.

Lemma scanOnFound_shaped (root origin : string) (dedupe : bool)
      (h : LocatedIdentity) (st : listState) :
  shaped st -> shaped (scanOnFound root origin dedupe h st).
Proof.
  intros H. unfold Cli.scanOnFound.
  destruct (dedupe && bool_decide _); [exact H|].
  apply printEntry_shaped. now destruct dedupe.
Qed.

Lemma scanOnProgress_shaped (scanLabel : string) (p : ScanProgress)
      (st : listState) :
  shaped st -> shaped (scanOnProgress scanLabel p st).
Proof.
  intros H. unfold Cli.scanOnProgress, Cli.printProgress.
  destruct ((ScannedFiles p =? 0)%Z || (ScannedFiles p =? lastReported st)%Z);
    [exact H|].
  unfold shaped in *.
  destruct (negb stderrIsTerminal);
    cbn [emit out printedHeader printedEntries];
    rewrite stdoutOf_app, rowsOf_app; cbn; rewrite !app_nil_r; exact H.
Qed.

Lemma replay_shaped (root origin scanLabel : string) (dedupe : bool)
      (t : list scanEvent) :
  forall st,
    shaped st ->
    shaped (fold_left (replay (Some (scanOnFound root origin dedupe))
                              (Some (scanOnProgress scanLabel))) t st).
Proof.
  induction t as [|e t IH]; intros st H; [exact H|].
  cbn [fold_left]. apply IH. destruct e as [h|p]; cbn [replay callback].
  - now apply scanOnFound_shaped.
  - now apply scanOnProgress_shaped.
Qed.

End RunList.


Section Runs.

Variable yaml_Unmarshal : string -> Identity -> Identity * option error.
Variable filepath_Join : list string -> string.
Variable filepath_Clean : string -> string.
Variable filepath_Dir : string -> string.
Variable filepath_Rel : string -> string -> string + error.
Variable fs : FileSystem.

Local Abbreviation scanAndPrint b :=
  (Cli.scanAndPrint yaml_Unmarshal filepath_Join filepath_Clean filepath_Dir
                    filepath_Rel b fs).

Lemma scanAndPrint_shaped (b : bool) (root scanRoot scanLabel origin : string)
      (dedupe : bool) (st : listState) :
  shaped st -> shaped (scanAndPrint b root scanRoot scanLabel origin dedupe st).
Proof.
  intros H. unfold Cli.scanAndPrint.
  rewrite ScanTheory.ScanAllWithPaths_replay. cbn [fst].
  apply replay_shaped. exact H.
Qed.

(** The closures of a listing with and without a terminal, side by
    side. *)
Lemma clearProgressLine_same (b1 b2 : bool) (s1 s2 : listState) :
  sameStdout s1 s2 ->
  sameStdout (Cli.clearProgressLine b1 s1) (Cli.clearProgressLine b2 s2).
Proof.
  unfold Cli.clearProgressLine, sameStdout.
  intros (H1 & H2 & H3 & H4 & H5).
  destruct (negb b1 || negb (progressVisible s1)),
    (negb b2 || negb (progressVisible s2));
    cbn [emit out localSeen printedHeader printedEntries lastReported];
    rewrite ?stdoutOf_app; cbn; rewrite ?app_nil_r; tauto.
Qed.

Lemma printEntry_same (b1 b2 : bool) (id : Identity) (origin path : string)
      (s1 s2 : listState) :
  sameStdout s1 s2 ->
  sameStdout (Cli.printEntry b1 id origin path s1)
             (Cli.printEntry b2 id origin path s2).
Proof.
  intros H. apply (clearProgressLine_same b1 b2) in H.
  unfold Cli.printEntry.
  set (t1 := Cli.clearProgressLine b1 s1) in *.
  set (t2 := Cli.clearProgressLine b2 s2) in *.
  destruct H as (H1 & H2 & H3 & H4 & H5). rewrite <- H2.
  unfold sameStdout.
  destruct (printedHeader t1) eqn:Hp; cbn [negb];
    cbn [emit out localSeen printedHeader printedEntries lastReported];
    rewrite ?stdoutOf_app; cbn; rewrite H1, H3, H4, H5;
    repeat split; congruence.
Qed.

Lemma scanOnFound_same (b1 b2 : bool) (root origin : string) (dedupe : bool)
      (h : LocatedIdentity) (s1 s2 : listState) :
  sameStdout s1 s2 ->
  sameStdout
    (Cli.scanOnFound filepath_Clean filepath_Dir filepath_Rel b1
                     root origin dedupe h s1)
    (Cli.scanOnFound filepath_Clean filepath_Dir filepath_Rel b2
                     root origin dedupe h s2).
Proof.
  intros H. unfold Cli.scanOnFound.
  pose proof H as (H1 & H2 & H3 & H4 & H5). rewrite <- H1.
  destruct (dedupe && bool_decide _); [exact H|].
  apply printEntry_same. destruct dedupe; [|exact H].
  unfold sameStdout. cbn [out localSeen printedHeader printedEntries lastReported].
  rewrite H1. tauto.
Qed.

Lemma scanOnProgress_same (b1 b2 : bool) (scanLabel : string)
      (p : ScanProgress) (s1 s2 : listState) :
  sameStdout s1 s2 ->
  sameStdout (Cli.scanOnProgress b1 scanLabel p s1)
             (Cli.scanOnProgress b2 scanLabel p s2).
Proof.
  intros H. unfold Cli.scanOnProgress, Cli.printProgress.
  pose proof H as (H1 & H2 & H3 & H4 & H5). rewrite <- H4.
  destruct ((ScannedFiles p =? 0)%Z || (ScannedFiles p =? lastReported s1)%Z);
    [exact H|].
  unfold sameStdout.
  destruct (negb b1), (negb b2);
    cbn [emit out localSeen printedHeader printedEntries lastReported];
    rewrite !stdoutOf_app; cbn; rewrite !app_nil_r; tauto.
Qed.

Lemma replay_same (b1 b2 : bool) (root origin scanLabel : string)
      (dedupe : bool) (t : list scanEvent) :
  forall s1 s2,
    sameStdout s1 s2 ->
    sameStdout
      (fold_left (replay (Some (Cli.scanOnFound filepath_Clean filepath_Dir
                                                filepath_Rel b1 root origin
                                                dedupe))
                         (Some (Cli.scanOnProgress b1 scanLabel))) t s1)
      (fold_left (replay (Some (Cli.scanOnFound filepath_Clean filepath_Dir
                                                filepath_Rel b2 root origin
                                                dedupe))
                         (Some (Cli.scanOnProgress b2 scanLabel))) t s2).
Proof.
  induction t as [|e t IH]; intros s1 s2 H; [exact H|].
  cbn [fold_left]. apply IH. destruct e as [h|p]; cbn [replay callback].
  - now apply scanOnFound_same.
  - now apply scanOnProgress_same.
Qed.

Lemma scanAndPrint_same (b1 b2 : bool)
      (root scanRoot scanLabel origin : string) (dedupe : bool)
      (s1 s2 : listState) :
  sameStdout s1 s2 ->
  sameStdout (scanAndPrint b1 root scanRoot scanLabel origin dedupe s1)
             (scanAndPrint b2 root scanRoot scanLabel origin dedupe s2).
Proof.
  intros H. unfold Cli.scanAndPrint.
  rewrite !ScanTheory.ScanAllWithPaths_replay. cbn [fst].
  apply replay_same. destruct H as (H1 & H2 & H3 & H4 & H5).
  unfold sameStdout. cbn [out localSeen printedHeader printedEntries lastReported].
  tauto.
Qed.

Lemma emit_plain (o : output) (st : listState) :
  isEscape o = false -> plain st -> plain (emit o st).
Proof.
  unfold plain. intros Ho H. cbn [emit out].
  rewrite forallb_app, H. cbn. now rewrite Ho.
Qed.

Lemma printEntry_plain (id : Identity) (origin path : string)
      (st : listState) :
  plain st -> plain (Cli.printEntry false id origin path st).
Proof.
  intros H. unfold Cli.printEntry, Cli.clearProgressLine. cbn [negb orb].
  destruct (printedHeader st); cbn [negb]; unfold plain; cbn [out];
    repeat apply emit_plain; auto.
Qed.

Lemma scanOnFound_plain (root origin : string) (dedupe : bool)
      (h : LocatedIdentity) (st : listState) :
  plain st ->
  plain (Cli.scanOnFound filepath_Clean filepath_Dir filepath_Rel false
                         root origin dedupe h st).
Proof.
  intros H. unfold Cli.scanOnFound.
  destruct (dedupe && bool_decide _); [exact H|].
  apply printEntry_plain. now destruct dedupe.
Qed.

Lemma scanOnProgress_plain (scanLabel : string) (p : ScanProgress)
      (st : listState) :
  plain st -> plain (Cli.scanOnProgress false scanLabel p st).
Proof.
  intros H. unfold Cli.scanOnProgress, Cli.printProgress.
  destruct ((ScannedFiles p =? 0)%Z || (ScannedFiles p =? lastReported st)%Z);
    [exact H|].
  cbn [negb]. now apply emit_plain.
Qed.

Lemma scanAndPrint_plain (root scanRoot scanLabel origin : string)
      (dedupe : bool) (st : listState) :
  plain st -> plain (scanAndPrint false root scanRoot scanLabel origin dedupe st).
Proof.
  intros H. unfold Cli.scanAndPrint.
  rewrite ScanTheory.ScanAllWithPaths_replay. cbn [fst].
  set (st0 := mkList _ _ _ _ 0 _).
  assert (H0 : plain st0) by exact H. clearbody st0. revert st0 H0.
  match goal with
  | |- forall st0, _ -> plain (fold_left _ ?tr st0) =>
      induction tr as [|e t IH]; intros st0 H0; [exact H0|]
  end.
  cbn [fold_left]. apply IH. destruct e as [h|p]; cbn [replay callback].
  - now apply scanOnFound_plain.
  - now apply scanOnProgress_plain.
Qed.

End Runs.

End StreamFacts.

(** X12.  The standard output of a listing.  Whatever is listed, [RunList]
    writes to standard output either the header, the rule and then the
    rows, the header and the rule once and before every row, or, when it
    printed no row, the one line "No holons found."; and the counter of
    printed entries is the number of rows. *)
Theorem RunList_standard_output :
  forall (yaml_Unmarshal : string -> Identity -> Identity * option error)
         (filepath_Join : list string -> string)
         (filepath_Clean filepath_Dir : string -> string)
         (filepath_Rel : string -> string -> string + error)
         (os_UserHomeDir : option string) (stderrIsTerminal : bool)
         (fs : FileSystem) (root : string),
    let st :=
      fst (Cli.RunList yaml_Unmarshal filepath_Join filepath_Clean
                       filepath_Dir filepath_Rel os_UserHomeDir
                       stderrIsTerminal fs root) in
    Streams.stdoutOf (Cli.out st) =
      match Streams.rowsOf (Cli.out st) with
      | [] => [Cli.PrintNoHolons]
      | rows => Cli.PrintHeader :: Cli.PrintRule :: rows
      end
    /\ Cli.printedEntries st =
       Z.of_nat (List.length (Streams.rowsOf (Cli.out st))).
Proof.
  intros yaml_Unmarshal filepath_Join filepath_Clean filepath_Dir filepath_Rel
         os_UserHomeDir stderrIsTerminal fs root st.
  subst st. unfold Cli.RunList. cbn [fst].
  set (root' := filepath_Clean (if String.eqb root "" then "." else root)).
  set (st0 := Cli.mkList ∅ false 0 false 0 []).
  assert (H0 : Streams.shaped st0) by (repeat split).
  set (st1 := Cli.scanAndPrint _ _ _ _ _ _ _ root' _ "local" "local" true st0).
  assert (H1 : Streams.shaped st1)
    by now apply StreamFacts.scanAndPrint_shaped.
  set (st2 := Cli.scanAndPrint _ _ _ _ _ _ _ root' root' "root" "local" true st1).
  assert (H2 : Streams.shaped st2)
    by now apply StreamFacts.scanAndPrint_shaped.
  set (st3 := if negb (String.eqb _ "") then _ else st2).
  assert (H3 : Streams.shaped st3).
  { subst st3. destruct (negb (String.eqb _ "")); [|exact H2].
    now apply StreamFacts.scanAndPrint_shaped. }
  apply (StreamFacts.clearProgressLine_shaped stderrIsTerminal) in H3.
  set (st4 := Cli.clearProgressLine stderrIsTerminal st3) in *.
  destruct H3 as (Ho & Hn & Hh).
  destruct (Z.eqb_spec (Cli.printedEntries st4) 0) as [E|E].
  - assert (Hrows : Streams.rowsOf (Cli.out st4) = []).
    { rewrite Hn in E. destruct (Streams.rowsOf (Cli.out st4));
        [reflexivity | simpl in E; lia]. }
    cbn [Cli.emit Cli.out Cli.printedEntries].
    rewrite StreamFacts.stdoutOf_app, StreamFacts.rowsOf_app, Hrows, Ho, Hrows.
    cbn. destruct (Cli.printedHeader st4) eqn:Hp.
    + apply (proj2 Hh) in Hrows. congruence.
    + split; [reflexivity | exact E].
  - split; [|exact Hn].
    rewrite Ho. destruct (Cli.printedHeader st4) eqn:Hp.
    + destruct (Streams.rowsOf (Cli.out st4)); [simpl in Hn; lia | reflexivity].
    + rewrite (proj1 Hh eq_refl) in Hn. simpl in Hn. lia.
Qed.

(** X13.  The terminal changes standard error only.  Whether standard
    error is a terminal or not, [RunList] writes the same lines to
    standard output, counts the same entries and remembers the same keys;
    and when standard error is no terminal, it writes no escape sequence
    at all: neither the line-clearing sequence nor an inline progress
    line. *)
Theorem RunList_terminal_changes_stderr_only :
  forall (yaml_Unmarshal : string -> Identity -> Identity * option error)
         (filepath_Join : list string -> string)
         (filepath_Clean filepath_Dir : string -> string)
         (filepath_Rel : string -> string -> string + error)
         (os_UserHomeDir : option string)
         (fs : FileSystem) (root : string),
    let run b :=
      fst (Cli.RunList yaml_Unmarshal filepath_Join filepath_Clean
                       filepath_Dir filepath_Rel os_UserHomeDir b fs root) in
    Streams.stdoutOf (Cli.out (run true)) =
      Streams.stdoutOf (Cli.out (run false))
    /\ Cli.printedEntries (run true) = Cli.printedEntries (run false)
    /\ Cli.localSeen (run true) = Cli.localSeen (run false)
    /\ forallb (fun o => negb (Streams.isEscape o)) (Cli.out (run false))
       = true.
Proof.
  intros yaml_Unmarshal filepath_Join filepath_Clean filepath_Dir filepath_Rel
         os_UserHomeDir fs root run.
  subst run. cbv beta. unfold Cli.RunList. cbn [fst].
  set (root' := filepath_Clean (if String.eqb root "" then "." else root)).
  set (st0 := Cli.mkList ∅ false 0 false 0 []).
  assert (S0 : Streams.sameStdout st0 st0) by (repeat split).
  assert (P0 : Streams.plain st0) by reflexivity.
  pose proof (StreamFacts.scanAndPrint_same
                yaml_Unmarshal filepath_Join filepath_Clean filepath_Dir
                filepath_Rel fs true false root'
                (filepath_Join [root'; "holons"]) "local" "local" true
                _ _ S0) as S1.
  apply (StreamFacts.scanAndPrint_plain
           yaml_Unmarshal filepath_Join filepath_Clean filepath_Dir
           filepath_Rel fs root' (filepath_Join [root'; "holons"])
           "local" "local" true) in P0.
  apply (StreamFacts.scanAndPrint_same
           yaml_Unmarshal filepath_Join filepath_Clean filepath_Dir
           filepath_Rel fs true false root' root' "root" "local" true) in S1.
  apply (StreamFacts.scanAndPrint_plain
           yaml_Unmarshal filepath_Join filepath_Clean filepath_Dir
           filepath_Rel fs root' root' "root" "local" true) in P0.
  set (a2 := Cli.scanAndPrint _ _ _ _ _ true fs root' root' _ _ _ _) in *.
  set (b2 := Cli.scanAndPrint _ _ _ _ _ false fs root' root' _ _ _ _) in *.
  set (cacheDir := Cli.holonCacheDir filepath_Join os_UserHomeDir).
  set (a3 := if negb (String.eqb cacheDir "") then _ else a2).
  set (b3 := if negb (String.eqb cacheDir "") then _ else b2).
  assert (S3 : Streams.sameStdout a3 b3).
  { subst a3 b3. destruct (negb (String.eqb cacheDir "")); [|exact S1].
    now apply StreamFacts.scanAndPrint_same. }
  assert (P3 : Streams.plain b3).
  { subst b3. destruct (negb (String.eqb cacheDir "")); [|exact P0].
    now apply StreamFacts.scanAndPrint_plain. }
  apply (StreamFacts.clearProgressLine_same true false) in S3.
  assert (P4 : Streams.plain (Cli.clearProgressLine false b3))
    by exact P3.
  set (a4 := Cli.clearProgressLine true a3) in *.
  set (b4 := Cli.clearProgressLine false b3) in *.
  destruct S3 as (H1 & H2 & H3 & H4 & H5). rewrite <- H3.
  destruct (Cli.printedEntries a4 =? 0)%Z.
  - cbn [Cli.emit Cli.out Cli.printedEntries Cli.localSeen].
    rewrite !StreamFacts.stdoutOf_app, H5.
    repeat split; try assumption.
    now apply (StreamFacts.emit_plain Cli.PrintNoHolons).
  - repeat split; assumption.
Qed.

(** The prompts and RunShow *)

Module PromptFacts.

Import GoStrings Commands.

(** The decimal digits tell the number. *)
Lemma formatInt_inj (a b : Z) : formatInt a = formatInt b -> a = b.
Proof.
  assert (Hread : forall z,
             DecimalString.NilZero.int_of_string (formatInt z)
             = Some (Z.to_int z)).
  { intros z. unfold formatInt. apply DecimalString.NilZero.isi.
    - destruct z as [|p|p]; cbn; try discriminate.
      intros E. injection E as E.
      now apply DecimalPos.Unsigned.to_uint_nonnil in E.
    - destruct z as [|p|p]; cbn; try discriminate.
      intros E. injection E as E.
      now apply DecimalPos.Unsigned.to_uint_nonnil in E. }
  intros H. apply DecimalZ.to_int_inj.
  pose proof (Hread a) as Ha. rewrite H, Hread in Ha. now injection Ha.
Qed.

Lemma blank_TrimSpace (s : string) :
  Create.blank s = true -> GoStringsUnicode.TrimSpace s = "".
Proof.
  intros H. apply String.eqb_eq. now rewrite BlankFacts.TrimSpace_blank.
Qed.

Lemma answer_TrimSpace (s : string) :
  Create.blank s = false ->
  String.eqb (GoStringsUnicode.TrimSpace s) "" = false.
Proof. intros H. now rewrite BlankFacts.TrimSpace_blank. Qed.

(** What [pick] returns is a choice. *)
Lemma pick_In (answer : string) (choices : list string) :
  forall i r, pick answer i choices = Some r -> In r choices.
Proof.
  induction choices as [|c rest IH]; intros i r H; [discriminate H|].
  cbn [pick] in H.
  destruct (String.eqb answer (formatInt (i + 1)) || String.eqb answer c).
  - injection H as <-. now left.
  - right. exact (IH _ _ H).
Qed.

(** The number of a choice picks it, when no choice before it is spelled
    as that number. *)
Lemma pick_number (choices : list string) :
  forall (i : Z) (k : nat) (c : string),
    nth_error choices k = Some c ->
    (forall d, In d (firstn k choices) ->
               d <> formatInt (i + Z.of_nat k + 1)) ->
    pick (formatInt (i + Z.of_nat k + 1)) i choices = Some c.
Proof.
  induction choices as [|c0 rest IH]; intros i k c Hk Hd.
  - destruct k; discriminate Hk.
  - destruct k as [|k]; cbn [pick].
    + injection Hk as <-. rewrite Z.add_0_r, String.eqb_refl. reflexivity.
    + cbn [nth_error] in Hk.
      destruct (String.eqb_spec (formatInt (i + Z.of_nat (S k) + 1))
                                (formatInt (i + 1))) as [E|_].
      { apply formatInt_inj in E. lia. }
      destruct (String.eqb_spec (formatInt (i + Z.of_nat (S k) + 1)) c0)
        as [E|_].
      { exfalso. apply (Hd c0); [now left | now symmetry]. }
      cbn [orb].
      replace (i + Z.of_nat (S k) + 1)%Z with (i + 1 + Z.of_nat k + 1)%Z
        in * by lia.
      apply IH; [exact Hk|]. intros d Hin. apply Hd. now right.
Qed.

End PromptFacts.

(** X14.  [ask] returns the first answer.  Blank lines, those that are
    empty or hold white space only, are refused with "(required)" and the
    prompt is printed again; the first other line is returned without the
    white space around it, and the lines after it are left unread. *)
Theorem ask_returns_the_first_answer :
  forall (prompt : string) (blanks : list string) (line : string)
         (rest shown : list string) (fuel : nat),
    forallb Create.blank blanks = true ->
    Create.blank line = false ->
    (List.length blanks < fuel)%nat ->
    Commands.ask fuel prompt (Commands.mkConsole (blanks ++ line :: rest) shown)
    = Some (GoStringsUnicode.TrimSpace line,
            Commands.mkConsole
              rest
              (shown ++
               Commands.refusals (prompt ++ ": ")
                                 ("  (required)" ++ GoStrings.NL) blanks ++
               [prompt ++ ": "])).
Proof.
  intros prompt blanks. induction blanks as [|b blanks IH];
    intros line rest shown fuel Hb Hl Hf.
  - destruct fuel as [|fuel]; [cbn in Hf; lia|].
    cbn [Commands.ask Commands.print Commands.scanText Commands.pending
         Commands.printed app].
    rewrite (PromptFacts.answer_TrimSpace _ Hl). reflexivity.
  - destruct fuel as [|fuel]; [cbn in Hf; lia|].
    cbn [forallb] in Hb. apply andb_true_iff in Hb as [Hb0 Hb].
    cbn [Commands.ask Commands.print Commands.scanText Commands.pending
         Commands.printed app].
    rewrite (PromptFacts.blank_TrimSpace _ Hb0). cbn [String.eqb negb].
    unfold Commands.print. cbn [Commands.pending Commands.printed].
    rewrite IH; [|exact Hb | exact Hl | cbn in Hf; lia].
    unfold Commands.refusals. cbn [map List.concat].
    rewrite <- !app_assoc. reflexivity.
Qed.

Lemma ask_returns_the_first_answer_witness :
  Commands.ask 3 "Motto" (Commands.mkConsole [""; "  "; " Know thyself. "; "x"] [])
  = Some ("Know thyself.",
          Commands.mkConsole
            ["x"]
            ["Motto: "; "  (required)" ++ GoStrings.NL;
             "Motto: "; "  (required)" ++ GoStrings.NL; "Motto: "]).
Proof.
  exact (ask_returns_the_first_answer
           "Motto" [""; "  "] " Know thyself. " ["x"] [] 3
           eq_refl eq_refl (le_n 3)).
Defined.

(** X15.  [ask] does not return at the end of the input.  When the input
    holds blank lines only, or nothing at all, no number of turns of the
    loop of [ask] gives an answer: it keeps printing the prompt and
    "(required)". *)
Theorem ask_never_returns_without_an_answer :
  forall (fuel : nat) (prompt : string) (lines shown : list string),
    forallb Create.blank lines = true ->
    Commands.ask fuel prompt (Commands.mkConsole lines shown) = None.
Proof.
  induction fuel as [|fuel IH]; intros prompt lines shown H; [reflexivity|].
  destruct lines as [|l lines];
    cbn [Commands.ask Commands.print Commands.scanText Commands.pending
         Commands.printed].
  - cbn. apply (IH prompt [] _). reflexivity.
  - cbn [forallb] in H. apply andb_true_iff in H as [Hl H].
    rewrite (PromptFacts.blank_TrimSpace _ Hl). cbn [String.eqb negb].
    apply IH. exact H.
Qed.

Lemma ask_never_returns_without_an_answer_witness :
  Commands.ask 1000 "Composer" (Commands.mkConsole [] []) = None.
Proof.
  exact (ask_never_returns_without_an_answer 1000 "Composer" [] [] eq_refl).
Defined.

(** X16.  [askChoice] answers with a choice.  Whatever is typed, what
    [askChoice] returns is one of the choices it was given; so with no
    choice to offer it returns nothing. *)
Theorem askChoice_returns_a_choice :
  forall (fuel : nat) (prompt : string) (choices : list string)
         (c c' : Commands.console) (r : string),
    Commands.askChoice fuel prompt choices c = Some (r, c') ->
    In r choices.
Proof.
  induction fuel as [|fuel IH]; intros prompt choices c c' r H;
    [discriminate H|].
  cbn [Commands.askChoice] in H.
  destruct (Commands.scanText _) as [text c1].
  destruct (Commands.pick _ 0 choices) as [r0|] eqn:Hp.
  - injection H as <- _. exact (PromptFacts.pick_In _ _ _ _ Hp).
  - exact (IH _ _ _ _ _ H).
Qed.

Lemma askChoice_returns_a_choice_witness :
  Commands.askChoice 2 "Choose reproduction mode"
                     ["manual"; "assisted"; "automatic"]
                     (Commands.mkConsole ["7"; " manual"] [])
  = Some ("manual",
          Commands.mkConsole []
            ["Choose reproduction mode (1-3): ";
             "  (invalid choice)" ++ GoStrings.NL;
             "Choose reproduction mode (1-3): "])
  /\ In "manual" ["manual"; "assisted"; "automatic"].
Proof.
  split; [reflexivity|].
  exact (askChoice_returns_a_choice
           2 "Choose reproduction mode" ["manual"; "assisted"; "automatic"]
           (Commands.mkConsole ["7"; " manual"] [])
           (Commands.mkConsole []
              ["Choose reproduction mode (1-3): ";
               "  (invalid choice)" ++ GoStrings.NL;
               "Choose reproduction mode (1-3): "])
           "manual" eq_refl).
Defined.

(** X17.  A choice is taken by its number.  When the line typed is, up
    to white space around it, the number [k+1] of the choice at index
    [k], [askChoice] returns that choice at once, provided no choice
    before it is spelled as that number. *)
Theorem askChoice_by_number :
  forall (fuel : nat) (prompt : string) (choices : list string)
         (k : nat) (c line : string) (rest shown : list string),
    nth_error choices k = Some c ->
    GoStringsUnicode.TrimSpace line = Commands.formatInt (Z.of_nat k + 1) ->
    (forall d, In d (firstn k choices) ->
               d <> Commands.formatInt (Z.of_nat k + 1)) ->
    Commands.askChoice (S fuel) prompt choices
                       (Commands.mkConsole (line :: rest) shown)
    = Some (c, Commands.mkConsole
                 rest
                 (shown ++
                  [prompt ++ " (1-" ++
                   Commands.formatInt (Z.of_nat (List.length choices)) ++
                   "): "])).
Proof.
  intros fuel prompt choices k c line rest shown Hk Hline Hd.
  cbn [Commands.askChoice Commands.print Commands.scanText Commands.pending
       Commands.printed].
  rewrite Hline.
  pose proof (PromptFacts.pick_number choices 0 k c Hk) as Hp.
  change (0 + Z.of_nat k + 1)%Z with (Z.of_nat k + 1)%Z in Hp.
  rewrite (Hp Hd). reflexivity.
Qed.

Lemma askChoice_by_number_witness :
  Commands.askChoice 1 "Choose clade"
                     ["deterministic/pure"; "deterministic/stateful"]
                     (Commands.mkConsole [" 2 "; "go"] [])
  = Some ("deterministic/stateful",
          Commands.mkConsole ["go"] ["Choose clade (1-2): "]).
Proof.
  refine (askChoice_by_number
            0 "Choose clade" ["deterministic/pure"; "deterministic/stateful"]
            1 "deterministic/stateful" " 2 " ["go"] [] eq_refl eq_refl _).
  intros d [<-|[]]. discriminate.
Defined.


